(** * react-zoom-viewer: gesture-to-transform engine

    A shallow embedding of the hooks [useZoomController], [useSwipe],
    [useGesture] and of the [ZoomViewer] component, with the properties
    stated about them.

    Numbers.  A JavaScript [number] is an IEEE-754 double.  It is modelled
    here by a real number: [+ - * /], comparisons, [Math.sqrt], [Math.cos],
    [Math.sin], [Math.atan2] and [Math.PI] are the exact operations, and
    [Math.round], [Math.trunc] and [toFixed] are the exact roundings.  The
    only place where the two part ways on ordinary inputs is a division by
    zero ([Infinity] or [NaN] in JavaScript, [0] for [Rdiv]); statements
    that go through such a division carry the hypothesis that the divisor
    is not zero.

    Mutable React refs ([useRef]) are fields of an explicit state record
    that every handler takes and returns; callbacks handed to a hook are
    functions on the state of the caller. *)

From Stdlib Require Import Reals Lra Lia ZArith List Bool.
Import ListNotations.

Open Scope R_scope.

(** ** JavaScript arithmetic on reals *)

Module JS.

(** Comparison operators, as the booleans JavaScript computes. *)
Definition ltb (a b : R) : bool := if Rlt_dec a b then true else false.
Definition leb (a b : R) : bool := if Rle_dec a b then true else false.
Definition gtb (a b : R) : bool := ltb b a.
Definition geb (a b : R) : bool := leb b a.
Definition eqb (a b : R) : bool := if Req_dec_T a b then true else false.

(** [Math.round x]: the nearest integer, a tie going up. *)
Definition round (x : R) : Z := Zfloor (x + 1 / 2).

(** [Math.trunc x]: the integer part, towards zero. *)
Definition trunc (x : R) : Z :=
  if Rlt_dec x 0 then (- Zfloor (- x))%Z else Zfloor x.

(** [Number(x.toFixed(2))]: [x] rounded to two decimals, the sign handled
    apart and a tie going to the larger magnitude. *)
Definition toFixed2 (x : R) : R :=
  if Rlt_dec x 0 then - (IZR (Zfloor (- x * 100 + 1 / 2)) / 100)
  else IZR (Zfloor (x * 100 + 1 / 2)) / 100.

(** [Math.atan2 y x], in radians, in the interval (-PI, PI]. *)
Definition atan2 (y x : R) : R :=
  if Rlt_dec 0 x then atan (y / x)
  else if Rlt_dec x 0 then
         if Rle_dec 0 y then atan (y / x) + PI else atan (y / x) - PI
  else if Rlt_dec 0 y then PI / 2
  else if Rlt_dec y 0 then - (PI / 2)
  else 0.

End JS.

Notation "a <? b" := (JS.ltb a b) : R_scope.
Notation "a <=? b" := (JS.leb a b) : R_scope.
Notation "a >? b" := (JS.gtb a b) : R_scope.
Notation "a >=? b" := (JS.geb a b) : R_scope.
Notation "a =? b" := (JS.eqb a b) : R_scope.

(** ** useZoomController *)

Module ZoomController.

Record Props := {
  zoomRatioStep : R;
  minZoomRatio : R;
  initialZoomRatio : R
}.

Definition defaultProps : Props :=
  {| zoomRatioStep := 0.5; minZoomRatio := 0.5; initialZoomRatio := 1 |}.

(** The [detail] of a [paper-zoom] event. *)
Record PaperZoomEvent := {
  zoomRatio : R;
  prevZoomRatio : R
}.

(** [prevZoomRatioRef] and the events dispatched on [currentWindow] so
    far, oldest first. *)
Record State := {
  prevZoomRatioRef : R;
  dispatched : list PaperZoomEvent
}.

Definition init (p : Props) : State :=
  {| prevZoomRatioRef := initialZoomRatio p; dispatched := [] |}.

Inductive ZoomDirection := zin | zout.

Definition getZoomRatio (st : State) : R := prevZoomRatioRef st.

(** [zoom direction]: the returned ratio and the state after the call. *)
Definition zoom (p : Props) (direction : ZoomDirection) (st : State)
  : R * State :=
  let prev := prevZoomRatioRef st in
  let nextZoomRatio :=
    JS.toFixed2
      (Rmax (prev + zoomRatioStep p
                    * (match direction with zin => 1 | zout => -1 end))
            (minZoomRatio p)) in
  let st' :=
    {| prevZoomRatioRef := nextZoomRatio;
       dispatched := dispatched st ++
         [{| zoomRatio := nextZoomRatio; prevZoomRatio := prev |}] |} in
  (prevZoomRatioRef st', st').

Definition zoomIn (p : Props) := zoom p zin.
Definition zoomOut (p : Props) := zoom p zout.

Definition setZoomRatio (r : R) (st : State) : State :=
  {| prevZoomRatioRef := r; dispatched := dispatched st |}.

(** The state after [n] calls of [zoomIn]. *)
Fixpoint zoomInTimes (p : Props) (n : nat) (st : State) : State :=
  match n with
  | O => st
  | S k => snd (zoomIn p (zoomInTimes p k st))
  end.

End ZoomController.

(** ** useSwipe *)

Module Swipe.

Inductive Direction := none | left | right | up | down.
Inductive DirectionType := horizontal | vertical.

(** An entry of [positions]. *)
Record Position := { x : R; y : R; timeStamp : R }.

Record SwiperMatrix := {
  startX : R;
  startY : R;
  startTimeStamp : R;
  distanceX : R;
  distanceY : R;
  direction : Direction;
  acceleration : R;
  positions : list Position;
  force : R;
  directionAngle : R
}.

(** What a handler reads of a mouse or touch event: the coordinates of
    the pointer ([touches[0]], [changedTouches[0]] or the event itself)
    and [event.timeStamp]. *)
Record PointerEvent := { clientX : R; clientY : R; eventTimeStamp : R }.

Record SwipeProps := {
  directionType : DirectionType;
  threshold : R;
  isEnabled : bool
}.

Definition defaultProps : SwipeProps :=
  {| directionType := horizontal; threshold := 30; isEnabled := true |}.

Definition initialMatrix : SwiperMatrix :=
  {| startX := 0; startY := 0; startTimeStamp := 0;
     distanceX := 0; distanceY := 0; direction := none;
     acceleration := 0;
     positions := [{| x := 0; y := 0; timeStamp := 0 |}];
     force := 0; directionAngle := 0 |}.

Definition getDirection (dt : DirectionType) (dX dY : R) : Direction :=
  match dt with
  | horizontal =>
      if dX =? 0 then none else if dX <? 0 then left else right
  | vertical =>
      if dY =? 0 then none else if dY <? 0 then up else down
  end.

Definition LAST_POSITION_COUNT : nat := 10.
Definition MIN_DISPLACEMENT : R := 10.
Definition MIN_TOTAL_TIME : R := 100.
Definition MAX_FORCE : R := 7.
Definition ROUND_ANGLE : R := 15.

(** [ps[i]]; every index the loops below read is inside the array. *)
Definition at_ (ps : list Position) (i : nat) : Position :=
  nth i ps {| x := 0; y := 0; timeStamp := 0 |}.

(** [positions.slice(Math.max(positions.length - LAST_POSITION_COUNT, 0))] *)
Definition relevantPositions (ps : list Position) : list Position :=
  skipn (length ps - LAST_POSITION_COUNT) ps.

(** One turn of the first loop, on [(force, totalDx, totalDy)]. *)
Definition speedStep (rel : list Position) (acc : R * R * R) (i : nat)
  : R * R * R :=
  let '(force, totalDx, totalDy) := acc in
  let dx := x (at_ rel i) - x (at_ rel (i - 1)) in
  let dy := y (at_ rel i) - y (at_ rel (i - 1)) in
  let dt := timeStamp (at_ rel i) - timeStamp (at_ rel (i - 1)) in
  let speed := if dt =? 0 then 0 else sqrt (dx * dx + dy * dy) / dt in
  (force + speed, totalDx + dx, totalDy + dy).

(** [for (let i = 1; i < relevantPositions.length - 1; i++)] *)
Definition speedLoop (rel : list Position) : R * R * R :=
  fold_left (speedStep rel) (seq 1 (length rel - 2)) (0, 0, 0).

(** The second loop over the indices [idx], from [totalLastTime] and
    [totalLastDisplacement]: the value of [isForceZero] when it ends,
    [false] as soon as a turn reaches the [break]. *)
Fixpoint lastLoop (ps : list Position) (idx : list nat)
         (totalLastTime totalLastDisplacement : R) : bool :=
  match idx with
  | [] => true
  | i :: rest =>
      let n := length ps in
      let dx := x (at_ ps (n - i)) - x (at_ ps (n - 1 - i)) in
      let dy := y (at_ ps (n - i)) - y (at_ ps (n - 1 - i)) in
      let dt := timeStamp (at_ ps (n - i)) - timeStamp (at_ ps (n - 1 - i)) in
      let totalLastTime := totalLastTime + dt in
      let totalLastDisplacement :=
        totalLastDisplacement + sqrt (dx * dx + dy * dy) in
      if (totalLastDisplacement >? MIN_DISPLACEMENT)
         && (totalLastTime <? MIN_TOTAL_TIME)
      then false
      else lastLoop ps rest totalLastTime totalLastDisplacement
  end.

(** [for (let i = 1; i < Math.min(LAST_POSITION_COUNT, positions.length - 1); i++)] *)
Definition isForceZero (ps : list Position) : bool :=
  lastLoop ps (seq 1 (Nat.min LAST_POSITION_COUNT (length ps - 1) - 1)) 0 0.

Record ForceAndDirection := { fdForce : R; fdDirectionAngle : R }.

Definition calculateForceAndDirection (ps : list Position)
  : ForceAndDirection :=
  let '(force, totalDx, totalDy) := speedLoop (relevantPositions ps) in
  let angle := JS.atan2 totalDy totalDx * (180 / PI) in
  let force := if isForceZero ps then 0 else force in
  {| fdForce := Rmin force MAX_FORCE;
     fdDirectionAngle := IZR (JS.round (angle / ROUND_ANGLE)) * ROUND_ANGLE |}.

(** The refs of the hook: [isSwiping], [swiperMatrix], and how many
    gestures have their [handleMove] and [handleEnd] closures registered
    on the window (a start adds a pair, the end event removes them). *)
Record State := {
  isSwiping : bool;
  swiperMatrix : SwiperMatrix;
  listeners : nat
}.

Definition init : State :=
  {| isSwiping := false; swiperMatrix := initialMatrix; listeners := 0 |}.

Inductive Event :=
| Start (e : PointerEvent)
| Move (e : PointerEvent)
| End (e : PointerEvent).

Section Handlers.

(** The state of the caller and the callbacks it passes; a callback
    that is left out is the identity. *)
Variable C : Type.
Variable props : SwipeProps.
Variable onStart : SwiperMatrix -> C -> C.
Variable onMove : SwiperMatrix -> C -> C.
Variable onEnd : SwiperMatrix -> bool -> C -> C.

Definition handleStart (e : PointerEvent) (s : State * C) : State * C :=
  let '(st, c) := s in
  let m := swiperMatrix st in
  let m :=
    {| startX := clientX e; startY := clientY e;
       startTimeStamp := eventTimeStamp e;
       distanceX := distanceX m; distanceY := distanceY m;
       direction := direction m; acceleration := acceleration m;
       positions := [{| x := clientX e; y := clientY e;
                        timeStamp := eventTimeStamp e |}];
       force := force m; directionAngle := directionAngle m |} in
  ({| isSwiping := true; swiperMatrix := m;
      listeners := S (listeners st) |},
   onStart m c).

Definition handleMove (e : PointerEvent) (s : State * C) : State * C :=
  let '(st, c) := s in
  if negb (isSwiping st) then s
  else
    let m := swiperMatrix st in
    let dX := clientX e - startX m in
    let dY := clientY e - startY m in
    let m :=
      {| startX := startX m; startY := startY m;
         startTimeStamp := startTimeStamp m;
         distanceX := dX; distanceY := dY;
         direction := getDirection (directionType props) dX dY;
         acceleration := acceleration m;
         positions := positions m ++
           [{| x := clientX e; y := clientY e;
               timeStamp := eventTimeStamp e |}];
         force := force m; directionAngle := directionAngle m |} in
    ({| isSwiping := isSwiping st; swiperMatrix := m;
        listeners := listeners st |},
     onMove m c).

Definition handleEnd (e : PointerEvent) (s : State * C) : State * C :=
  let '(st, c) := s in
  let m := swiperMatrix st in
  let dX := clientX e - startX m in
  let dY := clientY e - startY m in
  let ps := positions m ++
    [{| x := clientX e; y := clientY e; timeStamp := eventTimeStamp e |}] in
  let distance :=
    match directionType props with
    | horizontal => dX
    | vertical => dY
    end in
  let fd := calculateForceAndDirection ps in
  let overThreshold := Rabs distance >? threshold props in
  let m :=
    {| startX := startX m; startY := startY m;
       startTimeStamp := startTimeStamp m;
       distanceX := dX; distanceY := dY;
       direction := getDirection (directionType props) dX dY;
       acceleration :=
         if overThreshold
         then Rabs (distance / (eventTimeStamp e - startTimeStamp m))
         else acceleration m;
       positions := ps;
       force := fdForce fd; directionAngle := fdDirectionAngle fd |} in
  ({| isSwiping := false; swiperMatrix := m; listeners := listeners st |},
   onEnd m overThreshold c).

(** What an event does: a start on the element runs [handleStart] (when
    the hook is enabled; the element is taken to be attached); a move or
    an end on the window runs the handler of every gesture that is
    registered, and the end unregisters them. *)
Definition dispatch (ev : Event) (s : State * C) : State * C :=
  match ev with
  | Start e => if isEnabled props then handleStart e s else s
  | Move e => Nat.iter (listeners (fst s)) (handleMove e) s
  | End e =>
      let '(st, c) := Nat.iter (listeners (fst s)) (handleEnd e) s in
      ({| isSwiping := isSwiping st; swiperMatrix := swiperMatrix st;
          listeners := 0 |}, c)
  end.

End Handlers.

Arguments handleStart {C}.
Arguments handleMove {C}.
Arguments handleEnd {C}.
Arguments dispatch {C}.

(** The force as the specification words it: over the last (at most) 10
    samples, the speeds of all consecutive pairs are summed and the sum
    is capped at 7; it is 0 unless, going backward through the same
    samples, the displacement summed so far exceeds 10 while the time
    summed so far is under 100. *)
Definition pairSpeed (a b : Position) : R :=
  let dx := x b - x a in
  let dy := y b - y a in
  let dt := timeStamp b - timeStamp a in
  if dt =? 0 then 0 else sqrt (dx * dx + dy * dy) / dt.

Fixpoint sumPairSpeeds (w : list Position) : R :=
  match w with
  | a :: (b :: _) as tl => pairSpeed a b + sumPairSpeeds tl
  | _ => 0
  end.

(** [w] is the window, latest sample first. *)
Fixpoint terminalMomentum (w : list Position) (time disp : R) : bool :=
  match w with
  | b :: (a :: _) as tl =>
      let dx := x b - x a in
      let dy := y b - y a in
      let time := time + (timeStamp b - timeStamp a) in
      let disp := disp + sqrt (dx * dx + dy * dy) in
      ((disp >? 10) && (time <? 100)) || terminalMomentum tl time disp
  | _ => false
  end.

Definition referenceForce (ps : list Position) : R :=
  let w := skipn (length ps - 10) ps in
  if terminalMomentum (rev w) 0 0 then Rmin (sumPairSpeeds w) 7 else 0.

End Swipe.

(** ** useGesture *)

Module Gesture.

Record GestureStatus := { isPanning : bool }.

Section Callbacks.

(** The state of the component that uses the hook, and its callbacks. *)
Variable V : Type.
Variable onPanStart : Swipe.SwiperMatrix -> V -> V.
Variable onPanning : Swipe.SwiperMatrix -> V -> V.
Variable onPanEnd : Swipe.SwiperMatrix -> V -> V.

(** The three callbacks given to [useSwipe].  [onEnd] is declared with
    the record as its only parameter: the second argument of the call,
    [overThreshold], is not read. *)
Definition onStart (m : Swipe.SwiperMatrix) (s : GestureStatus * V)
  : GestureStatus * V :=
  ({| isPanning := true |}, onPanStart m (snd s)).

Definition onMove (m : Swipe.SwiperMatrix) (s : GestureStatus * V)
  : GestureStatus * V :=
  (fst s, onPanning m (snd s)).

Definition onEnd (m : Swipe.SwiperMatrix) (overThreshold : bool)
           (s : GestureStatus * V) : GestureStatus * V :=
  ({| isPanning := false |}, onPanEnd m (snd s)).

End Callbacks.

Arguments onStart {V}.
Arguments onMove {V}.
Arguments onEnd {V}.

End Gesture.

(** ** ZoomViewer *)

Module ZoomViewer.

Definition MIN_ZOOM_RATIO : R := 0.5.
Definition FIND_TARGET_ELEMENT_RETRY_MAX_COUNT : nat := 30.

Record Props := {
  isInBounds : bool;
  fitOnInit : bool;
  centerOnInit : bool;
  isDisabled : bool
}.

Definition defaultProps : Props :=
  {| isInBounds := true; fitOnInit := true; centerOnInit := true;
     isDisabled := false |}.

(** What the code reads of a [DOMRect]. *)
Record Rect := { width : R; height : R }.

(** [element.style.transform]: the [translate3d(Xpx, Ypx, 0px)] component
    and the [scale(S)] component, each absent until first written.  The
    translation is written through [Math.trunc] and the scale through
    [toFixed(2)], so each is replaced in place by the regular expressions
    once it is there; the translation always comes first, so [m41], [m42]
    and [m11] of the computed matrix are X, Y and S. *)
Record Transform := {
  translate3d : option (Z * Z);
  scale : option R
}.

(** The page: the rectangle of [viewerRef.current] and the size of the
    target element before any transform, each absent while the element
    is not attached; and [offsetWidth] and [offsetHeight] of the viewer,
    read only when it is attached. *)
Record Layout := {
  viewerRef : option Rect;
  targetElement : option Rect;
  viewerOffset : Rect
}.

(** A callback passed to [requestAnimationFrame] and not yet run, with
    the variables it closes over: [animate] of [moveElementAfterPanEnd]
    (its [onEnd] is [setElementEndPosition], the only one ever passed) or
    [animate] of [animateTransform]. *)
Inductive Frame :=
| MomentumAnimate (initialForce force direction prevScale : R)
| TransformAnimate (targetScale : option R) (position : option (R * R))
                   (duration startTime prevX prevY prevScale : R).

Record Viewer := {
  style : Transform;
  opacity0 : bool;
  prevTargetPosition : R * R;
  moveElementAfterPanEndFrame : option nat;
  findTargetElementRetryCount : nat;
  (** [performance.now()] while the current task runs *)
  now : R;
  (** pending animation frame requests, with their ids, oldest first *)
  frames : list (nat * Frame);
  nextFrameId : nat;
  (** pending [setTimeout] retries of [initTargetElement] *)
  retryTimers : nat;
  (** the arguments [onInit] was called with, oldest first *)
  onInitCalls : list R
}.

Definition initialViewer : Viewer :=
  {| style := {| translate3d := None; scale := None |};
     opacity0 := true;
     prevTargetPosition := (0, 0);
     moveElementAfterPanEndFrame := None;
     findTargetElementRetryCount := 0;
     now := 0; frames := []; nextFrameId := 1;
     retryTimers := 0; onInitCalls := [] |}.

Definition setStyle (t : Transform) (v : Viewer) : Viewer :=
  {| style := t; opacity0 := opacity0 v;
     prevTargetPosition := prevTargetPosition v;
     moveElementAfterPanEndFrame := moveElementAfterPanEndFrame v;
     findTargetElementRetryCount := findTargetElementRetryCount v;
     now := now v; frames := frames v; nextFrameId := nextFrameId v;
     retryTimers := retryTimers v; onInitCalls := onInitCalls v |}.

Definition setPrevTargetPosition (p : R * R) (v : Viewer) : Viewer :=
  {| style := style v; opacity0 := opacity0 v;
     prevTargetPosition := p;
     moveElementAfterPanEndFrame := moveElementAfterPanEndFrame v;
     findTargetElementRetryCount := findTargetElementRetryCount v;
     now := now v; frames := frames v; nextFrameId := nextFrameId v;
     retryTimers := retryTimers v; onInitCalls := onInitCalls v |}.

Definition setMoveFrame (f : option nat) (v : Viewer) : Viewer :=
  {| style := style v; opacity0 := opacity0 v;
     prevTargetPosition := prevTargetPosition v;
     moveElementAfterPanEndFrame := f;
     findTargetElementRetryCount := findTargetElementRetryCount v;
     now := now v; frames := frames v; nextFrameId := nextFrameId v;
     retryTimers := retryTimers v; onInitCalls := onInitCalls v |}.

Definition setFrames (fs : list (nat * Frame)) (v : Viewer) : Viewer :=
  {| style := style v; opacity0 := opacity0 v;
     prevTargetPosition := prevTargetPosition v;
     moveElementAfterPanEndFrame := moveElementAfterPanEndFrame v;
     findTargetElementRetryCount := findTargetElementRetryCount v;
     now := now v; frames := fs; nextFrameId := nextFrameId v;
     retryTimers := retryTimers v; onInitCalls := onInitCalls v |}.

Definition setNow (t : R) (v : Viewer) : Viewer :=
  {| style := style v; opacity0 := opacity0 v;
     prevTargetPosition := prevTargetPosition v;
     moveElementAfterPanEndFrame := moveElementAfterPanEndFrame v;
     findTargetElementRetryCount := findTargetElementRetryCount v;
     now := t; frames := frames v; nextFrameId := nextFrameId v;
     retryTimers := retryTimers v; onInitCalls := onInitCalls v |}.

(** [requestAnimationFrame(f)]; the id it returns is [nextFrameId v]. *)
Definition requestAnimationFrame (f : Frame) (v : Viewer) : Viewer :=
  {| style := style v; opacity0 := opacity0 v;
     prevTargetPosition := prevTargetPosition v;
     moveElementAfterPanEndFrame := moveElementAfterPanEndFrame v;
     findTargetElementRetryCount := findTargetElementRetryCount v;
     now := now v; frames := frames v ++ [(nextFrameId v, f)];
     nextFrameId := S (nextFrameId v);
     retryTimers := retryTimers v; onInitCalls := onInitCalls v |}.

Definition cancelAnimationFrame (id : nat) (v : Viewer) : Viewer :=
  setFrames (filter (fun f => negb (Nat.eqb (fst f) id)) (frames v)) v.

Definition getPrevTransformedPosition (t : Transform) : R * R :=
  match translate3d t with
  | Some (tx, ty) => (IZR tx, IZR ty)
  | None => (0, 0)
  end.

Definition getPrevTransformedScale (t : Transform) : R :=
  match scale t with
  | Some s => s
  | None => 1
  end.

(** [targetElement.getBoundingClientRect()]: the size of the target as
    transformed, its own size times the current scale. *)
Definition targetRect (own : Rect) (t : Transform) : Rect :=
  {| width := width own * getPrevTransformedScale t;
     height := height own * getPrevTransformedScale t |}.

Definition getTransformedPosition (currentPosition : R * R) (scale : R)
           (containerSize : Rect) : R * R :=
  let centerX := width containerSize / 2 in
  let centerY := height containerSize / 2 in
  let distX := fst currentPosition - centerX in
  let distY := snd currentPosition - centerY in
  (centerX + distX * scale, centerY + distY * scale).

(** The result of [getNextPosition]; [isOverBounds] is [None] for the
    [undefined] of the early return. *)
Record NextPosition := {
  nextX : R;
  nextY : R;
  isOverBounds : option bool
}.

Definition truthy (b : option bool) : bool :=
  match b with Some true => true | _ => false end.

(** [getNextPosition({x, y, inBoundsOffset, zoomRatio})], on the two
    rectangles it measures ([None] when a ref is empty). *)
Definition getNextPosition (isInBounds : bool) (rects : option (Rect * Rect))
           (x y inBoundsOffset zoomRatio : R) : NextPosition :=
  match rects with
  | None => {| nextX := x; nextY := y; isOverBounds := None |}
  | Some (viewerRect, targetRect) =>
      let targetWidth := width targetRect * zoomRatio in
      let targetHeight := height targetRect * zoomRatio in
      if isInBounds then
        let isOverWidth := targetWidth >=? width viewerRect in
        let isOverHeight := targetHeight >=? height viewerRect in
        let isLeftOverBounds := x >? inBoundsOffset in
        let isRightOverBounds :=
          x + targetWidth <? width viewerRect - inBoundsOffset in
        let isTopOverBounds := y >? inBoundsOffset in
        let isBottomOverBounds :=
          y + targetHeight <? height viewerRect - inBoundsOffset in
        let '(nX, over) :=
          if negb isOverWidth then
            let '(nX, over) := if x <? 0 then (0, true) else (x, false) in
            if nX + targetWidth >? width viewerRect
            then (width viewerRect - targetWidth, true) else (nX, over)
          else
            let '(nX, over) :=
              if isLeftOverBounds then (0, true) else (x, false) in
            if isRightOverBounds
            then (width viewerRect - targetWidth, true) else (nX, over) in
        let '(nY, over) :=
          if negb isOverHeight then
            let '(nY, over) := if y <? 0 then (0, true) else (y, over) in
            if nY + targetHeight >? height viewerRect
            then (height viewerRect - targetHeight, true) else (nY, over)
          else
            let '(nY, over) :=
              if isTopOverBounds then (0, true) else (y, over) in
            if isBottomOverBounds
            then (height viewerRect - targetHeight, true) else (nY, over) in
        if isOverWidth && isOverHeight then
          {| nextX := if isLeftOverBounds then 0
                      else if isRightOverBounds
                           then width viewerRect - targetWidth else nX;
             nextY := if isTopOverBounds then 0
                      else if isBottomOverBounds
                           then height viewerRect - targetHeight else nY;
             isOverBounds :=
               Some (existsb (fun b => b)
                       [isLeftOverBounds; isRightOverBounds;
                        isTopOverBounds; isBottomOverBounds]) |}
        else {| nextX := nX; nextY := nY; isOverBounds := Some over |}
      else {| nextX := x; nextY := y; isOverBounds := Some false |}
  end.

Definition setRetryCount (n : nat) (v : Viewer) : Viewer :=
  {| style := style v; opacity0 := opacity0 v;
     prevTargetPosition := prevTargetPosition v;
     moveElementAfterPanEndFrame := moveElementAfterPanEndFrame v;
     findTargetElementRetryCount := n;
     now := now v; frames := frames v; nextFrameId := nextFrameId v;
     retryTimers := retryTimers v; onInitCalls := onInitCalls v |}.

(** [setTimeout(() => initTargetElement(), 200)] *)
Definition setRetryTimer (v : Viewer) : Viewer :=
  {| style := style v; opacity0 := opacity0 v;
     prevTargetPosition := prevTargetPosition v;
     moveElementAfterPanEndFrame := moveElementAfterPanEndFrame v;
     findTargetElementRetryCount := findTargetElementRetryCount v;
     now := now v; frames := frames v; nextFrameId := nextFrameId v;
     retryTimers := S (retryTimers v); onInitCalls := onInitCalls v |}.

(** [onInit?.(zoomRatio)] *)
Definition onInit (zoomRatio : R) (v : Viewer) : Viewer :=
  {| style := style v; opacity0 := opacity0 v;
     prevTargetPosition := prevTargetPosition v;
     moveElementAfterPanEndFrame := moveElementAfterPanEndFrame v;
     findTargetElementRetryCount := findTargetElementRetryCount v;
     now := now v; frames := frames v; nextFrameId := nextFrameId v;
     retryTimers := retryTimers v;
     onInitCalls := onInitCalls v ++ [zoomRatio] |}.

(** [targetElement.classList.remove("opacity-0")] *)
Definition removeOpacity0 (v : Viewer) : Viewer :=
  {| style := style v; opacity0 := false;
     prevTargetPosition := prevTargetPosition v;
     moveElementAfterPanEndFrame := moveElementAfterPanEndFrame v;
     findTargetElementRetryCount := findTargetElementRetryCount v;
     now := now v; frames := frames v; nextFrameId := nextFrameId v;
     retryTimers := retryTimers v; onInitCalls := onInitCalls v |}.

(** [setTranslate(element, x, y)], the branch without animation. *)
Definition setTranslateNow (x y : R) (t : Transform) : Transform :=
  {| translate3d := Some (JS.trunc x, JS.trunc y); scale := scale t |}.

(** [animateTransform(element, {scale, position}, options)]; [options]
    is the duration when it is given. *)
Definition animateTransform (targetScale : option R)
           (position : option (R * R)) (options : option R) (v : Viewer)
  : Viewer :=
  let duration := match options with Some d => d | None => 150 end in
  let startTime := now v in
  let '(prevX, prevY) := getPrevTransformedPosition (style v) in
  let prevScale := getPrevTransformedScale (style v) in
  requestAnimationFrame
    (TransformAnimate targetScale position duration startTime
                      prevX prevY prevScale) v.

(** [animate(currentTime)] of [animateTransform]: the transform it
    writes, and whether it requests another frame. *)
Definition transformAnimate (targetScale : option R)
           (position : option (R * R))
           (duration startTime prevX prevY prevScale currentTime : R)
           (t : Transform) : Transform * bool :=
  let elapsedTime := currentTime - startTime in
  let progress :=
    if duration =? 0 then 1 else Rmin (elapsedTime / duration) 1 in
  let nextScale :=
    Rmax (match targetScale with
          | Some s => prevScale + (s - prevScale) * progress
          | None => 0
          end) MIN_ZOOM_RATIO in
  let nextX :=
    match position with
    | Some p => prevX + (fst p - prevX) * progress
    | None => 0
    end in
  let nextY :=
    match position with
    | Some p => prevY + (snd p - prevY) * progress
    | None => 0
    end in
  let newScale := JS.toFixed2 nextScale in
  let t :=
    match position with
    | Some _ => {| translate3d := Some (JS.trunc nextX, JS.trunc nextY);
                   scale := scale t |}
    | None => t
    end in
  let t :=
    match targetScale with
    | Some _ => {| translate3d := translate3d t; scale := Some newScale |}
    | None => t
    end in
  (t, progress <? 1).

Definition setTranslate (x y : R) (animate : bool) (v : Viewer) : Viewer :=
  if negb animate then setStyle (setTranslateNow x y (style v)) v
  else animateTransform None (Some (x, y)) None v.

Definition setScale (s : R) (position : option (R * R))
           (options : option R) (v : Viewer) : Viewer :=
  let '(nX, nY) := match position with Some p => p | None => (0, 0) end in
  animateTransform (Some s) (Some (nX, nY)) options v.

(** The scale chosen under [fitOnInit] in [initTargetElement]. *)
Definition fitInitScale (viewerRect targetRect : Rect) : R :=
  let viewerRatio := width viewerRect / height viewerRect in
  let targetRatio := width targetRect / height targetRect in
  if targetRatio >? viewerRatio
  then width viewerRect / width targetRect
  else height viewerRect / height targetRect.

Definition scalingFactor (prevScale : R) : R :=
  3 * (IZR (JS.round (prevScale * 0.3)) + 1).

(** What one run of [animate] of [moveElementAfterPanEnd] does: the
    transform it writes, the force after the decay, the arguments of the
    call of [onEnd] if there is one, and whether it requests another
    frame (the request is commented out in the source). *)
Record MomentumResult := {
  mrStyle : Transform;
  mrForce : R;
  mrOnEnd : option (R * R);
  mrRequested : bool
}.

(** The invariant of the data model: the scale component of the element,
    once written, is at least the floor. *)
Definition scaleAboveFloor (t : Transform) : Prop :=
  match scale t with
  | Some w => MIN_ZOOM_RATIO <= w
  | None => True
  end.

Section Component.

Variable props : Props.
Variable layout : Layout.

(** The two rectangles [getNextPosition] measures. *)
Definition rects (t : Transform) : option (Rect * Rect) :=
  match viewerRef layout, targetElement layout with
  | Some viewerRect, Some own => Some (viewerRect, targetRect own t)
  | _, _ => None
  end.

Definition setElementEndPosition (x y : R) (v : Viewer) : Viewer :=
  match targetElement layout with
  | None => v
  | Some _ =>
      let np :=
        getNextPosition (isInBounds props) (rects (style v)) x y 0 1 in
      setTranslate (nextX np) (nextY np) true v
  end.

Definition momentumAnimate (initialForce force direction prevScale : R)
           (t : Transform) : MomentumResult :=
  let directionRadian := direction * PI / 180 in
  let scalingFactor := scalingFactor prevScale in
  let distance := force * scalingFactor in
  let dx := distance * cos directionRadian in
  let dy := distance * sin directionRadian in
  let '(prevX, prevY) := getPrevTransformedPosition t in
  let nX := prevX + dx in
  let nY := prevY + dy in
  let over :=
    truthy (isOverBounds
              (getNextPosition (isInBounds props) (rects t) nX nY
                               (Rmax (initialForce * 3) 10) 1)) in
  let t := setTranslateNow nX nY t in
  let force := force * 0.95 in
  if over then
    {| mrStyle := t; mrForce := force; mrOnEnd := Some (nX, nY);
       mrRequested := false |}
  else if force >? 0.3 then
    {| mrStyle := t; mrForce := force; mrOnEnd := None;
       mrRequested := false |}
  else
    {| mrStyle := t; mrForce := force; mrOnEnd := Some (nX, nY);
       mrRequested := false |}.

Definition moveElementAfterPanEnd (initialForce direction : R)
           (v : Viewer) : Viewer :=
  match targetElement layout with
  | None => v
  | Some _ =>
      let prevScale := getPrevTransformedScale (style v) in
      requestAnimationFrame
        (MomentumAnimate initialForce initialForce direction prevScale) v
  end.

Definition onPanStart (panMatrix : Swipe.SwiperMatrix) (v : Viewer)
  : Viewer :=
  if isDisabled props then v
  else
    let v :=
      match moveElementAfterPanEndFrame v with
      | Some id => setMoveFrame None (cancelAnimationFrame id v)
      | None => v
      end in
    match targetElement layout with
    | None => v
    | Some _ =>
        setPrevTargetPosition (getPrevTransformedPosition (style v)) v
    end.

Definition onPanning (panMatrix : Swipe.SwiperMatrix) (v : Viewer)
  : Viewer :=
  match isDisabled props, targetElement layout with
  | false, Some _ =>
      let '(prevX, prevY) := prevTargetPosition v in
      let nX := prevX + Swipe.distanceX panMatrix in
      let nY := prevY + Swipe.distanceY panMatrix in
      setTranslate nX nY false v
  | _, _ => v
  end.

Definition onPanEnd (panMatrix : Swipe.SwiperMatrix) (v : Viewer)
  : Viewer :=
  match isDisabled props, targetElement layout with
  | false, Some _ =>
      let '(prevX, prevY) := getPrevTransformedPosition (style v) in
      let force := Swipe.force panMatrix in
      let directionAngle := Swipe.directionAngle panMatrix in
      let np :=
        getNextPosition (isInBounds props) (rects (style v))
                        prevX prevY 30 1 in
      if truthy (isOverBounds np) || (force =? 0)
      then setElementEndPosition (nextX np) (nextY np) v
      else moveElementAfterPanEnd force directionAngle v
  | _, _ => v
  end.

Definition zoomTargetElement (deltaZoomRatio : R) (v : Viewer) : Viewer :=
  match viewerRef layout, targetElement layout with
  | Some _, Some _ =>
      let '(prevX, prevY) := getPrevTransformedPosition (style v) in
      let prevZoomRatio := getPrevTransformedScale (style v) in
      if (prevZoomRatio =? 0) || (deltaZoomRatio =? 0) then v
      else
        let nextZoomRatio := prevZoomRatio + deltaZoomRatio in
        let '(x, y) :=
          getTransformedPosition (prevX, prevY)
                                 (nextZoomRatio / prevZoomRatio)
                                 (viewerOffset layout) in
        let np :=
          getNextPosition (isInBounds props) (rects (style v)) x y 0
                          (nextZoomRatio / prevZoomRatio) in
        setScale nextZoomRatio (Some (nextX np, nextY np)) None v
  | _, _ => v
  end.

(** [onChangeZoomRatio], the callback given to [useReceiveZoomEvent]. *)
Definition onChangeZoomRatio (zoomRatio prevZoomRatio : R) (v : Viewer)
  : Viewer :=
  zoomTargetElement (zoomRatio - prevZoomRatio) v.

Definition initTargetElement (v : Viewer) : Viewer :=
  match viewerRef layout, targetElement layout with
  | Some viewerRect, Some own =>
      let tRect := targetRect own (style v) in
      if (width tRect =? 0) && (height tRect =? 0) then
        if isDisabled props then v
        else
          let v := setRetryCount (S (findTargetElementRetryCount v)) v in
          if Nat.ltb FIND_TARGET_ELEMENT_RETRY_MAX_COUNT
                     (findTargetElementRetryCount v)
          then v
          else setRetryTimer v
      else
        let isOverWidth := width tRect >=? width viewerRect in
        let isOverHeight := height tRect >=? height viewerRect in
        let prevScale := getPrevTransformedScale (style v) in
        let initScale :=
          if fitOnInit props then fitInitScale viewerRect tRect else 1 in
        let v :=
          if fitOnInit props && negb (initScale =? 1)
             && negb (centerOnInit props)
          then onInit (prevScale * initScale)
                      (setScale (prevScale * initScale) None (Some 0) v)
          else v in
        let v :=
          if centerOnInit props then
            let prevX :=
              if isOverWidth then 0
              else width viewerRect / 2 - width tRect / 2 in
            let prevY :=
              if isOverHeight then 0
              else height viewerRect / 2 - height tRect / 2 in
            let '(x, y) :=
              getTransformedPosition (prevX, prevY) initScale viewerRect in
            let np :=
              getNextPosition (isInBounds props) (rects (style v))
                              x y 0 initScale in
            onInit (prevScale * initScale)
                   (setScale (prevScale * initScale)
                             (Some (nextX np, nextY np)) (Some 0) v)
          else v in
        removeOpacity0 v
  | _, _ => v
  end.

(** A pending callback run at a display refresh. *)
Definition runFrame (currentTime : R) (f : Frame) (v : Viewer) : Viewer :=
  match f with
  | MomentumAnimate initialForce force direction prevScale =>
      let r :=
        momentumAnimate initialForce force direction prevScale (style v) in
      let v := setStyle (mrStyle r) v in
      match mrOnEnd r with
      | Some (x, y) => setMoveFrame None (setElementEndPosition x y v)
      | None => v
      end
  | TransformAnimate targetScale position duration startTime
                     prevX prevY prevScale =>
      let '(t, again) :=
        transformAnimate targetScale position duration startTime
                         prevX prevY prevScale currentTime (style v) in
      let v := setStyle t v in
      if again then requestAnimationFrame f v else v
  end.

(** A display refresh at [currentTime]: the callbacks requested before
    it run in order; what they request waits for the next one. *)
Definition animationFrame (currentTime : R) (v : Viewer) : Viewer :=
  fold_left (fun v f => runFrame currentTime (snd f) v) (frames v)
            (setFrames [] (setNow currentTime v)).

End Component.

End ZoomViewer.

(** ** The viewer under its gesture hooks *)

Module App.

Definition State : Type :=
  Swipe.State * (Gesture.GestureStatus * ZoomViewer.Viewer).

Definition init : State :=
  (Swipe.init, ({| Gesture.isPanning := false |}, ZoomViewer.initialViewer)).

(** The tasks of the event loop: a pointer event on the target, a display
    refresh, a [paper-zoom] event received at some time, and a call of
    [initTargetElement] (by the layout effect, a resize of the window or a
    retry timer) at some time. *)
Inductive Task :=
| Pointer (ev : Swipe.Event)
| AnimationFrame (currentTime : R)
| Zoom (time : R) (ev : ZoomController.PaperZoomEvent)
| InitTarget (time : R).

Definition timeOf (ev : Swipe.Event) : R :=
  match ev with
  | Swipe.Start e | Swipe.Move e | Swipe.End e => Swipe.eventTimeStamp e
  end.

Section Wiring.

(** The properties of the swipe hook ([useGesture] leaves them at their
    defaults), those of the viewer, and the page. *)
Variable swipeProps : Swipe.SwipeProps.
Variable props : ZoomViewer.Props.
Variable layout : ZoomViewer.Layout.

Definition onStart :=
  Gesture.onStart (ZoomViewer.onPanStart props layout).
Definition onMove :=
  Gesture.onMove (ZoomViewer.onPanning props layout).
Definition onEnd :=
  Gesture.onEnd (ZoomViewer.onPanEnd props layout).

Definition viewerOf (s : State) : ZoomViewer.Viewer := snd (snd s).

Definition withViewer (f : ZoomViewer.Viewer -> ZoomViewer.Viewer)
           (s : State) : State :=
  (fst s, (fst (snd s), f (snd (snd s)))).

(** One task of the event loop.  A pointer event is handled at the time
    it carries. *)
Definition run (task : Task) (s : State) : State :=
  match task with
  | Pointer ev =>
      Swipe.dispatch swipeProps onStart onMove onEnd ev
        (withViewer (ZoomViewer.setNow (timeOf ev)) s)
  | AnimationFrame currentTime =>
      withViewer (ZoomViewer.animationFrame props layout currentTime) s
  | Zoom time ev =>
      withViewer
        (fun v =>
           ZoomViewer.onChangeZoomRatio props layout
             (ZoomController.zoomRatio ev)
             (ZoomController.prevZoomRatio ev)
             (ZoomViewer.setNow time v)) s
  | InitTarget time =>
      withViewer
        (fun v =>
           ZoomViewer.initTargetElement props layout
             (ZoomViewer.setNow time v)) s
  end.

Definition runAll (tasks : list Task) (s : State) : State :=
  fold_left (fun s task => run task s) tasks s.

End Wiring.

End App.

(** ** Concrete gestures *)

Module Scenario.

(** A gesture of three samples, 20 px every 10 ms. *)
Definition steadyThrow : list Swipe.Position :=
  [ {| Swipe.x := 0; Swipe.y := 0; Swipe.timeStamp := 0 |};
    {| Swipe.x := 20; Swipe.y := 0; Swipe.timeStamp := 10 |};
    {| Swipe.x := 40; Swipe.y := 0; Swipe.timeStamp := 20 |} ].

(** A gesture that goes 100 px to the left and 1 px up before it stops. *)
Definition leftwardDrag : list Swipe.Position :=
  [ {| Swipe.x := 100; Swipe.y := 1; Swipe.timeStamp := 0 |};
    {| Swipe.x := 0; Swipe.y := 0; Swipe.timeStamp := 10 |};
    {| Swipe.x := 0; Swipe.y := 0; Swipe.timeStamp := 20 |} ].

(** Content of 100 by 100 in a viewer of 1000 by 1000. *)
Definition layout : ZoomViewer.Layout :=
  {| ZoomViewer.viewerRef :=
       Some {| ZoomViewer.width := 1000; ZoomViewer.height := 1000 |};
     ZoomViewer.targetElement :=
       Some {| ZoomViewer.width := 100; ZoomViewer.height := 100 |};
     ZoomViewer.viewerOffset :=
       {| ZoomViewer.width := 1000; ZoomViewer.height := 1000 |} |}.

(** A press at the origin, a move 10 px to the right after 10 ms, and the
    release 15 px further after 10 ms more: 25 px in all, under the
    threshold of 30. *)
Definition press : Swipe.PointerEvent :=
  {| Swipe.clientX := 0; Swipe.clientY := 0; Swipe.eventTimeStamp := 0 |}.
Definition drag : Swipe.PointerEvent :=
  {| Swipe.clientX := 10; Swipe.clientY := 0; Swipe.eventTimeStamp := 10 |}.
Definition release : Swipe.PointerEvent :=
  {| Swipe.clientX := 25; Swipe.clientY := 0; Swipe.eventTimeStamp := 20 |}.

Definition shortThrow : list App.Task :=
  [App.Pointer (Swipe.Start press); App.Pointer (Swipe.Move drag);
   App.Pointer (Swipe.End release)].

Definition shortThrowPositions : list Swipe.Position :=
  [ {| Swipe.x := 0; Swipe.y := 0; Swipe.timeStamp := 0 |};
    {| Swipe.x := 10; Swipe.y := 0; Swipe.timeStamp := 10 |};
    {| Swipe.x := 25; Swipe.y := 0; Swipe.timeStamp := 20 |} ].

(** The viewer with its default properties, under [useGesture]. *)
Definition run : App.Task -> App.State -> App.State :=
  App.run Swipe.defaultProps ZoomViewer.defaultProps layout.
Definition runAll : list App.Task -> App.State -> App.State :=
  App.runAll Swipe.defaultProps ZoomViewer.defaultProps layout.

(** The transform of the element when [shortThrow] is released. *)
Definition atRelease : ZoomViewer.Transform :=
  {| ZoomViewer.translate3d := Some (10, 0)%Z; ZoomViewer.scale := None |}.

End Scenario.

(** ** throttle *)

Module FunctionUtil.

Section Throttle.

(** The arguments and the state of the function that is throttled. *)
Variable A : Type.
Variable S : Type.
Variable func : A -> S -> S.
Variable delay : R.

(** The function that [throttle(func, delay)] returns, called at the time
    [now] ([new Date().getTime()]) on the state of [func] and [lastTime]
    (0 when the closure is made). *)
Definition throttle (now : R) (args : A) (s : S * R) : S * R :=
  let '(st, lastTime) := s in
  if now - lastTime <? delay then s else (func args st, now).

End Throttle.

Arguments throttle {A S}.

End FunctionUtil.

(** ** useZoomController: the wheel, and sequences of calls *)

Module ZoomWheel.

(** What [handleWheel] reads of a [WheelEvent]. *)
Record WheelEvent := { deltaY : R }.

(** The controller and [lastTime] of [throttledZoom]. *)
Definition State : Type := ZoomController.State * R.

Definition init (p : ZoomController.Props) : State :=
  (ZoomController.init p, 0).

Definition throttledZoom (p : ZoomController.Props)
  : R -> R -> State -> State :=
  FunctionUtil.throttle
    (fun dY st =>
       snd (ZoomController.zoom p
              (if dY >? 0 then ZoomController.zout else ZoomController.zin)
              st))
    150.

(** [handleWheel(event)], called at the time [now]. *)
Definition handleWheel (p : ZoomController.Props) (now : R)
           (event : WheelEvent) (s : State) : State :=
  throttledZoom p now (deltaY event) s.

(** Wheel events, each with the time it is handled at, in order. *)
Definition handleWheels (p : ZoomController.Props)
           (events : list (R * WheelEvent)) (s : State) : State :=
  fold_left (fun s e => handleWheel p (fst e) (snd e) s) events s.

(** Calls of [zoomIn] and [zoomOut], in order. *)
Definition zoomAll (p : ZoomController.Props)
           (ds : list ZoomController.ZoomDirection)
           (st : ZoomController.State) : ZoomController.State :=
  fold_left (fun st d => snd (ZoomController.zoom p d st)) ds st.

(** Wheel events that come 150 ms or more after one another, the first
    one after [last]. *)
Fixpoint spaced (last : R) (events : list (R * WheelEvent)) : Prop :=
  match events with
  | [] => True
  | e :: rest => 150 <= fst e - last /\ spaced (fst e) rest
  end.

(** Each event carries as its previous ratio the ratio of the event
    before it, the first one [r0]. *)
Fixpoint chained (r0 : R) (evs : list ZoomController.PaperZoomEvent) : Prop :=
  match evs with
  | [] => True
  | ev :: rest =>
      ZoomController.prevZoomRatio ev = r0
      /\ chained (ZoomController.zoomRatio ev) rest
  end.

End ZoomWheel.

(** ** useReceiveZoomEvent *)

Module ReceiveZoomEvent.

Record State := { zoomRatioRef : R; prevZoomRatioRef : R }.

Definition init : State := {| zoomRatioRef := 1; prevZoomRatioRef := 1 |}.

Definition getZoomRatio (st : State) : R := zoomRatioRef st.
Definition getPrevZoomRatio (st : State) : R := prevZoomRatioRef st.

Section Receiver.

(** The state of the component that listens, and its callback. *)
Variable C : Type.
Variable onChangeZoomRatio : R -> R -> C -> C.

Definition handleZoom (event : ZoomController.PaperZoomEvent)
           (s : State * C) : State * C :=
  let zoomRatio := ZoomController.zoomRatio event in
  let prevZoomRatio := ZoomController.prevZoomRatio event in
  ({| zoomRatioRef := zoomRatio; prevZoomRatioRef := prevZoomRatio |},
   onChangeZoomRatio zoomRatio prevZoomRatio (snd s)).

(** The events dispatched on the window, received in order. *)
Definition receive (events : list ZoomController.PaperZoomEvent)
           (s : State * C) : State * C :=
  fold_left (fun s event => handleZoom event s) events s.

End Receiver.

Arguments handleZoom {C}.
Arguments receive {C}.

End ReceiveZoomEvent.

(** ** What the bounds mean *)

Module Bounds.

(** A translation [c] of content of extent [extent] in a viewport of
    extent [viewport], with an inset [inset]: smaller content lies inside
    the viewport; content that is at least as large leaves no gap wider
    than the inset on either side. *)
Definition within (extent viewport inset c : R) : Prop :=
  (extent < viewport -> 0 <= c /\ c + extent <= viewport)
  /\ (viewport <= extent -> c <= inset /\ viewport - inset <= c + extent).

End Bounds.

(** ** Pending animations *)

Module Animation.

(** Whether a pending callback is an animation whose duration has elapsed
    at the time [t]. *)
Definition elapsedAt (t : R) (f : nat * ZoomViewer.Frame) : Prop :=
  match snd f with
  | ZoomViewer.MomentumAnimate _ _ _ _ => False
  | ZoomViewer.TransformAnimate _ _ duration startTime _ _ _ =>
      duration = 0 \/ (0 < duration /\ duration <= t - startTime)
  end.

End Animation.

(** ** Histories of positions *)

Module SwipeOrder.

(** The samples come in the order of their time stamps. *)
Fixpoint timeOrdered (ps : list Swipe.Position) : Prop :=
  match ps with
  | a :: (b :: _) as tl =>
      Swipe.timeStamp a <= Swipe.timeStamp b /\ timeOrdered tl
  | _ => True
  end.

End SwipeOrder.

(** ** Sessions of the swipe hook *)

Module SwipeRun.

Section Run.

Variable C : Type.
Variable props : Swipe.SwipeProps.
Variable onStart : Swipe.SwiperMatrix -> C -> C.
Variable onMove : Swipe.SwiperMatrix -> C -> C.
Variable onEnd : Swipe.SwiperMatrix -> bool -> C -> C.

(** The events of a session, handled in order. *)
Definition dispatchAll (events : list Swipe.Event) (s : Swipe.State * C)
  : Swipe.State * C :=
  fold_left (fun s ev => Swipe.dispatch props onStart onMove onEnd ev s)
            events s.

End Run.

Arguments dispatchAll {C}.

(** The start of the record, as a sample. *)
Definition startOf (m : Swipe.SwiperMatrix) : Swipe.Position :=
  {| Swipe.x := Swipe.startX m; Swipe.y := Swipe.startY m;
     Swipe.timeStamp := Swipe.startTimeStamp m |}.

(** What a session keeps true of the motion record: its first position
    is its start, and its direction is the direction of its distance. *)
Definition recordOk (props : Swipe.SwipeProps) (st : Swipe.State) : Prop :=
  hd_error (Swipe.positions (Swipe.swiperMatrix st))
  = Some (startOf (Swipe.swiperMatrix st))
  /\ Swipe.direction (Swipe.swiperMatrix st)
     = Swipe.getDirection (Swipe.directionType props)
                          (Swipe.distanceX (Swipe.swiperMatrix st))
                          (Swipe.distanceY (Swipe.swiperMatrix st)).

End SwipeRun.

(** ** Drags *)

Module Pan.

(** What holds from a press at [e0] until the release: the gesture is
    recorded from [e0] by at least one pair of listeners, and the viewer
    remembers where the element was. *)
Definition panning (e0 : Swipe.PointerEvent) (p0 : R * R)
           (s : App.State) : Prop :=
  Swipe.isSwiping (fst s) = true
  /\ (0 < Swipe.listeners (fst s))%nat
  /\ Swipe.startX (Swipe.swiperMatrix (fst s)) = Swipe.clientX e0
  /\ Swipe.startY (Swipe.swiperMatrix (fst s)) = Swipe.clientY e0
  /\ ZoomViewer.prevTargetPosition (App.viewerOf s) = p0.

(** The element is where it was at the press, moved by as much as the
    pointer went from [e0] to [e]. *)
Definition pannedTo (e0 e : Swipe.PointerEvent) (p0 : R * R)
           (t : ZoomViewer.Transform) : Prop :=
  ZoomViewer.translate3d t
  = Some (JS.trunc (fst p0 + (Swipe.clientX e - Swipe.clientX e0)),
          JS.trunc (snd p0 + (Swipe.clientY e - Swipe.clientY e0))).

(** A press at [e0] and then the moves [es]. *)
Definition drag (e0 : Swipe.PointerEvent) (es : list Swipe.PointerEvent)
  : list App.Task :=
  App.Pointer (Swipe.Start e0)
  :: map (fun e => App.Pointer (Swipe.Move e)) es.

End Pan.

(** ** Facts about the roundings *)

Section Roundings.

Lemma Zfloor_IZR_half (k : Z) : Zfloor (IZR k + 1 / 2) = k.
Proof. apply Zfloor_eq; lra. Qed.

Lemma round_IZR (k : Z) : JS.round (IZR k) = k.
Proof. unfold JS.round; apply Zfloor_IZR_half. Qed.

Lemma round_bounds (x : R) :
  IZR (JS.round x) - 1 / 2 <= x < IZR (JS.round x) + 1 / 2.
Proof.
  unfold JS.round; pose proof (Zfloor_bound (x + 1 / 2)); lra.
Qed.

(** A non-negative number with at most two decimals is left as it is. *)
Lemma toFixed2_hundredths (k : Z) :
  (0 <= k)%Z -> JS.toFixed2 (IZR k / 100) = IZR k / 100.
Proof.
  intros Hk; unfold JS.toFixed2.
  apply IZR_le in Hk.
  destruct (Rlt_dec (IZR k / 100) 0) as [Hneg | _]; [lra |].
  replace (IZR k / 100 * 100) with (IZR k) by field.
  now rewrite Zfloor_IZR_half.
Qed.

Lemma toFixed2_mono_nonneg (a b : R) :
  0 <= a -> a <= b -> JS.toFixed2 a <= JS.toFixed2 b.
Proof.
  intros Ha Hab; unfold JS.toFixed2.
  destruct (Rlt_dec a 0); [lra |].
  destruct (Rlt_dec b 0); [lra |].
  assert (H : (Zfloor (a * 100 + 1 / 2) <= Zfloor (b * 100 + 1 / 2))%Z)
    by (apply Zfloor_le; lra).
  apply IZR_le in H; lra.
Qed.

End Roundings.

(** ** The zoom controller *)

Section ZoomControllerFacts.

Import ZoomController.

Lemma zoomInTimes_default (n : nat) :
  getZoomRatio (zoomInTimes defaultProps n (init defaultProps))
  = 1 + 0.5 * INR n.
Proof.
  induction n as [| n IH].
  - simpl; lra.
  - cbn [zoomInTimes zoomIn zoom snd getZoomRatio prevZoomRatioRef].
    unfold getZoomRatio in IH; rewrite IH.
    cbn [zoomRatioStep minZoomRatio defaultProps].
    rewrite S_INR.
    pose proof (pos_INR n) as Hn.
    rewrite Rmax_left by lra.
    rewrite INR_IZR_INZ in *.
    replace (1 + 0.5 * IZR (Z.of_nat n) + 0.5 * 1)
      with (IZR (150 + 50 * Z.of_nat n) / 100)
      by (rewrite plus_IZR, mult_IZR; lra).
    rewrite toFixed2_hundredths by lia.
    rewrite plus_IZR, mult_IZR; lra.
Qed.

Lemma zoomOut_default_from (r : R) (evs : list PaperZoomEvent) :
  0.5 <= r <= 1 ->
  zoomOut defaultProps {| prevZoomRatioRef := r; dispatched := evs |}
  = (0.5, {| prevZoomRatioRef := 0.5;
             dispatched := evs ++ [{| zoomRatio := 0.5;
                                      prevZoomRatio := r |}] |}).
Proof.
  intros Hr.
  unfold zoomOut, zoom; cbn [prevZoomRatioRef dispatched zoomRatioStep
                             minZoomRatio defaultProps].
  rewrite Rmax_right by lra.
  assert (H : JS.toFixed2 0.5 = 0.5).
  { replace 0.5 with (IZR 50 / 100) by lra.
    apply toFixed2_hundredths; lia. }
  rewrite H; reflexivity.
Qed.

(** C7.  With the default properties (initial ratio 1, step 0.5, floor
    0.5), the ratio after [n] calls of [zoomIn] is [1 + 0.5 n]; [zoomOut]
    from 1 gives 0.5, and [zoomOut] at 0.5 gives 0.5 again.  Whatever the
    properties, the result of a call is the stepped value, raised to the
    floor, rounded to two decimals; it becomes the current ratio, and one
    event carrying it and the previous ratio is dispatched. *)
Theorem zoom_sequence :
  (forall n : nat,
      getZoomRatio (zoomInTimes defaultProps n (init defaultProps))
      = 1 + 0.5 * INR n)
  /\ fst (zoomOut defaultProps (init defaultProps)) = 0.5
  /\ (forall evs : list PaperZoomEvent,
         let st := {| prevZoomRatioRef := 0.5; dispatched := evs |} in
         fst (zoomOut defaultProps st) = 0.5
         /\ getZoomRatio (snd (zoomOut defaultProps st)) = 0.5)
  /\ (forall (p : Props) (d : ZoomDirection) (st : State),
         let stepped :=
           getZoomRatio st
           + zoomRatioStep p * (match d with zin => 1 | zout => -1 end) in
         let next := JS.toFixed2 (Rmax stepped (minZoomRatio p)) in
         fst (zoom p d st) = next
         /\ getZoomRatio (snd (zoom p d st)) = next
         /\ dispatched (snd (zoom p d st))
            = dispatched st ++ [{| zoomRatio := next;
                                   prevZoomRatio := getZoomRatio st |}]).
Proof.
  split; [exact zoomInTimes_default |].
  split.
  { unfold init; cbn [initialZoomRatio defaultProps].
    rewrite zoomOut_default_from by lra; reflexivity. }
  split.
  { intros evs st; subst st.
    rewrite zoomOut_default_from by lra; split; reflexivity. }
  intros p d st; cbn; repeat split; reflexivity.
Qed.

(** C10.  [setZoomRatio r] stores [r] itself as the current ratio,
    whatever the floor of the controller, and dispatches no event:
    [getZoomRatio] then returns [r]. *)
Theorem setZoomRatio_stores (r : R) (st : State) :
  getZoomRatio (setZoomRatio r st) = r
  /\ dispatched (setZoomRatio r st) = dispatched st.
Proof. split; reflexivity. Qed.

(** The first ratios of the sequence, and a ratio under the floor kept
    as it is by [setZoomRatio]. *)
Example zoomIn_three :
  getZoomRatio (zoomInTimes defaultProps 3 (init defaultProps)) = 2.5.
Proof. rewrite zoomInTimes_default; simpl; lra. Qed.

Example setZoomRatio_below_floor :
  getZoomRatio (setZoomRatio 0.123 (init defaultProps)) = 0.123
  /\ 0.123 < minZoomRatio defaultProps.
Proof. split; [reflexivity | simpl; lra]. Qed.

End ZoomControllerFacts.

(** ** Case analysis on comparisons *)

Ltac unfold_cmp :=
  unfold JS.gtb, JS.geb, JS.ltb, JS.leb, JS.eqb in *.

Ltac destruct_cmp :=
  repeat match goal with
    | |- context [Rlt_dec ?a ?b] => destruct (Rlt_dec a b)
    | |- context [Rle_dec ?a ?b] => destruct (Rle_dec a b)
    | |- context [Req_dec_T ?a ?b] => destruct (Req_dec_T a b)
    end.

(** ** The motion sampler *)

Section SwipeFacts.

Import Swipe.

Variable C : Type.
Variable props : SwipeProps.
Variable onStart : SwiperMatrix -> C -> C.
Variable onMove : SwiperMatrix -> C -> C.
Variable onEnd : SwiperMatrix -> bool -> C -> C.

Lemma iter_fixed {A : Type} (f : A -> A) (a : A) (n : nat) :
  f a = a -> Nat.iter n f a = a.
Proof.
  intros Hf; induction n as [| n IH]; simpl; [reflexivity |].
  now rewrite IH.
Qed.

Lemma handleMove_idle (e : PointerEvent) (st : State) (c : C) :
  isSwiping st = false -> handleMove props onMove e (st, c) = (st, c).
Proof. intros H; unfold handleMove; now rewrite H. Qed.

Lemma handleEnd_not_swiping (e : PointerEvent) (s : State * C) :
  isSwiping (fst (handleEnd props onEnd e s)) = false.
Proof. destruct s as [st c]; reflexivity. Qed.

(** The end event of a gesture leaves no gesture active. *)
Lemma dispatch_End_idle (e : PointerEvent) (s : State * C) :
  (0 < listeners (fst s))%nat ->
  isSwiping (fst (dispatch props onStart onMove onEnd (End e) s)) = false.
Proof.
  intros Hn; unfold dispatch.
  destruct (listeners (fst s)) as [| n]; [lia |].
  cbn [Nat.iter nat_rect].
  destruct (handleEnd props onEnd e _) as [st c] eqn:E; cbn.
  change st with (fst (st, c)); rewrite <- E.
  apply handleEnd_not_swiping.
Qed.

(** A move that comes after the end of a gesture changes nothing. *)
Lemma move_after_end_ignored (e e' : PointerEvent) (s : State * C) :
  (0 < listeners (fst s))%nat ->
  let ended := dispatch props onStart onMove onEnd (End e) s in
  dispatch props onStart onMove onEnd (Move e') ended = ended.
Proof.
  intros Hn ended.
  pose proof (dispatch_End_idle e s Hn) as Hi; fold ended in Hi.
  destruct ended as [st c]; cbn [fst] in Hi.
  unfold dispatch; apply iter_fixed, handleMove_idle, Hi.
Qed.

End SwipeFacts.

(** C9.  When no gesture is active ([isSwiping] is false: before the first
    start, or after the end), a move event changes nothing: the motion
    record, its positions and the state of the hook are the same after it,
    and so is the state of the caller, whatever its move callback does, so
    the callback is not invoked. *)
Theorem move_without_gesture_ignored
        (C : Type) (props : Swipe.SwipeProps)
        (onStart onMove : Swipe.SwiperMatrix -> C -> C)
        (onEnd : Swipe.SwiperMatrix -> bool -> C -> C)
        (e : Swipe.PointerEvent) (st : Swipe.State) (c : C) :
  Swipe.isSwiping st = false ->
  Swipe.dispatch props onStart onMove onEnd (Swipe.Move e) (st, c) = (st, c).
Proof.
  intros H; unfold Swipe.dispatch.
  apply iter_fixed, handleMove_idle, H.
Qed.

(** A move before any start, with a callback that records its calls. *)
Lemma move_without_gesture_ignored_witness :
  let log := fun (m : Swipe.SwiperMatrix) (c : list Swipe.SwiperMatrix) =>
               c ++ [m] in
  let e := {| Swipe.clientX := 5; Swipe.clientY := 7;
              Swipe.eventTimeStamp := 12 |} in
  Swipe.isSwiping Swipe.init = false
  /\ Swipe.dispatch Swipe.defaultProps log log (fun m _ c => c ++ [m])
                    (Swipe.Move e) (Swipe.init, [])
     = (Swipe.init, []).
Proof.
  split; [reflexivity |].
  apply move_without_gesture_ignored; reflexivity.
Defined.

(** ** The bounds resolver *)

Section BoundsFacts.

Import ZoomViewer.

(** C6.  With bounds enforced, along an axis where the scaled content is
    strictly smaller than the viewport the corrected value [c] satisfies
    [0 <= c] and [c + extent <= viewport extent], and it is the candidate
    when the candidate satisfies both already; and whenever either
    corrected value differs from the candidate, [isOverBounds] is true. *)
Theorem getNextPosition_smaller_axis
        (viewerRect targetRect : Rect) (x y inBoundsOffset zoomRatio : R) :
  let r := getNextPosition true (Some (viewerRect, targetRect))
                           x y inBoundsOffset zoomRatio in
  let targetWidth := width targetRect * zoomRatio in
  let targetHeight := height targetRect * zoomRatio in
  (targetWidth < width viewerRect ->
   0 <= nextX r /\ nextX r + targetWidth <= width viewerRect
   /\ (0 <= x /\ x + targetWidth <= width viewerRect -> nextX r = x))
  /\ (targetHeight < height viewerRect ->
      0 <= nextY r /\ nextY r + targetHeight <= height viewerRect
      /\ (0 <= y /\ y + targetHeight <= height viewerRect -> nextY r = y))
  /\ (nextX r <> x \/ nextY r <> y -> isOverBounds r = Some true).
Proof.
  destruct viewerRect as [vw vh], targetRect as [tw th].
  cbn [width height getNextPosition].
  set (W := tw * zoomRatio); set (H := th * zoomRatio).
  unfold_cmp.
  repeat split; intros;
    destruct_cmp; cbn in *;
    destruct_cmp; cbn in *;
    try reflexivity; try lra;
    match goal with
    | Hd : _ \/ _ |- _ => destruct Hd; lra
    end.
Qed.

End BoundsFacts.

Lemma getNextPosition_smaller_axis_witness :
  let viewerRect := {| ZoomViewer.width := 1000; ZoomViewer.height := 800 |} in
  let targetRect := {| ZoomViewer.width := 100; ZoomViewer.height := 100 |} in
  let r := ZoomViewer.getNextPosition true (Some (viewerRect, targetRect))
                                      (-5) 790 0 1 in
  (0 <= ZoomViewer.nextX r /\ ZoomViewer.nextX r + 100 * 1 <= 1000)
  /\ (0 <= ZoomViewer.nextY r /\ ZoomViewer.nextY r + 100 * 1 <= 800)
  /\ ZoomViewer.isOverBounds r = Some true.
Proof.
  intros viewerRect targetRect r.
  destruct (getNextPosition_smaller_axis viewerRect targetRect (-5) 790 0 1)
    as [HX [HY HF]].
  cbn [ZoomViewer.width ZoomViewer.height viewerRect targetRect] in HX, HY.
  fold r in HX, HY, HF.
  assert (HX' : 100 * 1 < 1000) by lra.
  assert (HY' : 100 * 1 < 800) by lra.
  destruct (HX HX') as [H1 [H2 _]], (HY HY') as [H3 [H4 _]].
  repeat split; try assumption.
  apply HF; right; lra.
Defined.

(** ** Initialisation *)

Section InitFacts.

Import ZoomViewer.

Lemma ratio_gt_cross (a b c d : R) :
  0 < b -> 0 < d -> (a / b > c / d <-> a * d > c * b).
Proof.
  intros Hb Hd.
  assert (Hbd : 0 < b * d) by nra.
  assert (E : a / b - c / d = (a * d - c * b) / (b * d)) by (field; lra).
  assert (Hi : 0 < / (b * d)) by (apply Rinv_0_lt_compat; exact Hbd).
  unfold Rdiv in E.
  split; intros H.
  - assert (H' : (a * d - c * b) * / (b * d) > 0) by (unfold Rdiv in H; lra).
    nra.
  - assert (H' : (a * d - c * b) * / (b * d) > 0) by nra.
    unfold Rdiv; lra.
Qed.

(** C3, as amended.  With positive heights, the scale chosen under
    [fitOnInit] is the width ratio when the content is relatively wider
    than the viewport (its aspect ratio is the greater one) and the
    height ratio otherwise.  For content of aspect ratio 2:1, a 1:1
    viewport and a 1:2 viewport both give the width ratio; a 4:1 viewport
    gives the height ratio. *)
Theorem fitInitScale_selection :
  (forall viewerRect targetRect : Rect,
      0 < height viewerRect -> 0 < height targetRect ->
      (width targetRect * height viewerRect
       > width viewerRect * height targetRect ->
       fitInitScale viewerRect targetRect
       = width viewerRect / width targetRect)
      /\ (~ width targetRect * height viewerRect
            > width viewerRect * height targetRect ->
          fitInitScale viewerRect targetRect
          = height viewerRect / height targetRect))
  /\ (forall c v : R, 0 < c -> 0 < v ->
         let content := {| width := 2 * c; height := c |} in
         fitInitScale {| width := v; height := v |} content = v / (2 * c)
         /\ fitInitScale {| width := v; height := 2 * v |} content
            = v / (2 * c)
         /\ fitInitScale {| width := 4 * v; height := v |} content = v / c).
Proof.
  assert (G : forall viewerRect targetRect : Rect,
      0 < height viewerRect -> 0 < height targetRect ->
      (width targetRect * height viewerRect
       > width viewerRect * height targetRect ->
       fitInitScale viewerRect targetRect
       = width viewerRect / width targetRect)
      /\ (~ width targetRect * height viewerRect
            > width viewerRect * height targetRect ->
          fitInitScale viewerRect targetRect
          = height viewerRect / height targetRect)).
  { intros [vw vh] [tw th]; cbn [width height]; intros Hv Ht.
    pose proof (ratio_gt_cross tw th vw vh Ht Hv) as Hc.
    unfold fitInitScale; cbn [width height]; unfold_cmp.
    split; intros H; destruct (Rlt_dec (vw / vh) (tw / th)) as [L | L];
      try reflexivity; exfalso.
    - apply L, Hc, H.
    - apply H, Hc, L. }
  split; [exact G |].
  intros c v Hc Hv content.
  repeat split.
  - destruct (G {| width := v; height := v |} content) as [W _];
      cbn [width height content]; try lra.
    rewrite W; [reflexivity | cbn [width height content]; nra].
  - destruct (G {| width := v; height := 2 * v |} content) as [W _];
      cbn [width height content]; try lra.
    rewrite W; [reflexivity | cbn [width height content]; nra].
  - destruct (G {| width := 4 * v; height := v |} content) as [_ Hh];
      cbn [width height content]; try lra.
    rewrite Hh; [reflexivity | cbn [width height content]; nra].
Qed.

Lemma fitInitScale_selection_witness :
  let content := {| width := 200; height := 100 |} in
  fitInitScale {| width := 100; height := 100 |} content = 100 / 200
  /\ fitInitScale {| width := 100; height := 200 |} content = 100 / 200
  /\ fitInitScale {| width := 400; height := 100 |} content = 100 / 100.
Proof.
  intros content.
  destruct fitInitScale_selection as [G _].
  repeat split.
  - destruct (G {| width := 100; height := 100 |} content) as [W _];
      cbn [width height content]; try lra.
    apply W; cbn [width height content]; lra.
  - destruct (G {| width := 100; height := 200 |} content) as [W _];
      cbn [width height content]; try lra.
    apply W; cbn [width height content]; lra.
  - destruct (G {| width := 400; height := 100 |} content) as [_ Hh];
      cbn [width height content]; try lra.
    apply Hh; cbn [width height content]; lra.
Defined.

End InitFacts.

(** C3, as stated, fails: content of 200 by 100 (2:1) in a viewport of 100
    by 200 (1:2) is scaled by the width ratio 100/200, not by the height
    ratio 200/100. *)
Lemma fitInitScale_tall_viewport_is_width_based :
  let viewerRect := {| ZoomViewer.width := 100; ZoomViewer.height := 200 |} in
  let targetRect := {| ZoomViewer.width := 200; ZoomViewer.height := 100 |} in
  ZoomViewer.fitInitScale viewerRect targetRect
  = ZoomViewer.width viewerRect / ZoomViewer.width targetRect
  /\ ZoomViewer.fitInitScale viewerRect targetRect
     <> ZoomViewer.height viewerRect / ZoomViewer.height targetRect.
Proof.
  intros viewerRect targetRect.
  assert (E : ZoomViewer.fitInitScale viewerRect targetRect = 100 / 200).
  { unfold ZoomViewer.fitInitScale; cbn; unfold_cmp.
    destruct (Rlt_dec (100 / 200) (200 / 100)) as [_ | N];
      [reflexivity | exfalso; lra]. }
  rewrite E; cbn; split; lra.
Qed.

(** ** The transform animator *)

Section AnimatorFacts.

Import ZoomViewer.

Lemma toFixed2_floor (a : R) :
  MIN_ZOOM_RATIO <= a -> MIN_ZOOM_RATIO <= JS.toFixed2 a.
Proof.
  unfold MIN_ZOOM_RATIO; intros Ha.
  assert (H : JS.toFixed2 (IZR 50 / 100) = IZR 50 / 100)
    by (apply toFixed2_hundredths; lia).
  pose proof (toFixed2_mono_nonneg (IZR 50 / 100) a) as M.
  rewrite H in M; lra.
Qed.

(** The scale a tick writes when the animation has a target scale. *)
Lemma transformAnimate_scale (s : R) (position : option (R * R))
      (duration startTime prevX prevY prevScale currentTime : R)
      (t : Transform) :
  let progress :=
    if duration =? 0 then 1
    else Rmin ((currentTime - startTime) / duration) 1 in
  scale (fst (transformAnimate (Some s) position duration startTime
                               prevX prevY prevScale currentTime t))
  = Some (JS.toFixed2 (Rmax (prevScale + (s - prevScale) * progress)
                            MIN_ZOOM_RATIO)).
Proof. reflexivity. Qed.

(** C8.  Every tick of an animation that has a target scale writes a
    scale that is at least [MIN_ZOOM_RATIO] (0.5), whatever the target,
    the scale it started from and the time of the tick.  The tick at
    which the progress reaches 1 (the duration is 0 or has elapsed)
    writes the target raised to the floor, rounded to two decimals, and
    requests no further frame: the settled scale is at least the floor
    too. *)
Theorem animated_scale_floor
        (s : R) (position : option (R * R))
        (duration startTime prevX prevY prevScale currentTime : R)
        (t : Transform) :
  let r := transformAnimate (Some s) position duration startTime
                            prevX prevY prevScale currentTime t in
  (exists w : R, scale (fst r) = Some w /\ MIN_ZOOM_RATIO <= w)
  /\ (duration = 0 \/ (0 < duration /\ duration <= currentTime - startTime)
      -> scale (fst r) = Some (JS.toFixed2 (Rmax s MIN_ZOOM_RATIO))
         /\ snd r = false).
Proof.
  intros r; split.
  - eexists; split; [apply transformAnimate_scale |].
    apply toFixed2_floor, Rmax_r.
  - intros Hd.
    assert (P : (if duration =? 0 then 1
                 else Rmin ((currentTime - startTime) / duration) 1) = 1).
    { unfold_cmp; destruct (Req_dec_T duration 0) as [| Hn];
        [reflexivity |].
      destruct Hd as [Hd | [Hp Hd]]; [contradiction |].
      apply Rmin_right.
      apply (Rmult_le_reg_r duration); [exact Hp |].
      unfold Rdiv; rewrite Rmult_assoc, Rinv_l by lra; lra. }
    subst r; unfold transformAnimate; cbn [fst snd].
    rewrite P; cbn [scale]; split.
    + replace (prevScale + (s - prevScale) * 1) with s by lra.
      reflexivity.
    + unfold_cmp; destruct (Rlt_dec 1 1); [lra | reflexivity].
Qed.

(** A target of 0.2 from scale 1, over 150 ms: the tick at 75 ms and the
    last one both write a scale of at least 0.5, and the last one
    settles at 0.5. *)
Lemma animated_scale_floor_witness :
  let t := {| translate3d := Some (0, 0)%Z; scale := Some 1 |} in
  let last := transformAnimate (Some 0.2) None 150 0 0 0 1 150 t in
  (exists w : R, scale (fst last) = Some w /\ MIN_ZOOM_RATIO <= w)
  /\ scale (fst last) = Some (JS.toFixed2 (Rmax 0.2 MIN_ZOOM_RATIO))
  /\ snd last = false.
Proof.
  intros t last.
  destruct (animated_scale_floor 0.2 None 150 0 0 0 1 150 t) as [F S].
  split; [exact F |].
  apply S; right; lra.
Defined.

Example settle_below_floor :
  JS.toFixed2 (Rmax 0.2 MIN_ZOOM_RATIO) = 0.5.
Proof.
  unfold MIN_ZOOM_RATIO; rewrite Rmax_right by lra.
  replace 0.5 with (IZR 50 / 100) by lra.
  apply toFixed2_hundredths; lia.
Qed.

End AnimatorFacts.

(** ** The force and direction estimator *)

Section EstimatorFacts.

Import Swipe.

Lemma round_eq (k : Z) (a : R) :
  IZR k - 1 / 2 <= a < IZR k + 1 / 2 -> JS.round a = k.
Proof. intros H; unfold JS.round; apply Zfloor_eq; lra. Qed.

Lemma sqrt_eq (a b : R) : 0 <= b -> b * b = a -> sqrt a = b.
Proof.
  intros Hb E; apply sqrt_lem_1; [rewrite <- E; nra | exact Hb | exact E].
Qed.

(** [Math.atan2] takes its values in (-PI, PI]. *)
Lemma atan2_range (b a : R) : - PI < JS.atan2 b a <= PI.
Proof.
  pose proof PI_RGT_0 as Hpi.
  unfold JS.atan2.
  destruct (Rlt_dec 0 a) as [Ha | Ha].
  { pose proof (atan_bound (b / a)); lra. }
  destruct (Rlt_dec a 0) as [Ha' | Ha'].
  - assert (Hi : / a < 0) by (apply Rinv_lt_0_compat; exact Ha').
    pose proof (atan_bound (b / a)) as Hb.
    destruct (Rle_dec 0 b) as [Hy | Hy].
    + assert (Hq : b / a <= 0) by (unfold Rdiv; nra).
      assert (atan (b / a) <= 0).
      { destruct Hq as [Hq | Hq].
        - pose proof (atan_increasing _ _ Hq) as Hinc.
          rewrite atan_0 in Hinc; lra.
        - rewrite Hq, atan_0; lra. }
      lra.
    + assert (Hq : 0 < b / a) by (unfold Rdiv; nra).
      pose proof (atan_increasing _ _ Hq) as Hinc.
      rewrite atan_0 in Hinc; lra.
  - destruct (Rlt_dec 0 b); [lra |].
    destruct (Rlt_dec b 0); lra.
Qed.

(** The direction angle in terms of the totals of the first loop. *)
Lemma directionAngle_eq (ps : list Position) :
  exists totalDy totalDx : R,
    fdDirectionAngle (calculateForceAndDirection ps)
    = IZR (JS.round (JS.atan2 totalDy totalDx * (180 / PI) / ROUND_ANGLE))
      * ROUND_ANGLE.
Proof.
  unfold calculateForceAndDirection.
  destruct (speedLoop (relevantPositions ps)) as [[f tdx] tdy].
  exists tdy, tdx; reflexivity.
Qed.

(** C5, as amended.  For every position history the direction angle is
    an integer multiple of 15 and lies in the closed interval from -180
    to 180. *)
Theorem directionAngle_range (ps : list Position) :
  let a := fdDirectionAngle (calculateForceAndDirection ps) in
  (exists k : Z, a = IZR k * 15) /\ -180 <= a <= 180.
Proof.
  intros a; subst a.
  destruct (directionAngle_eq ps) as [tdy [tdx E]]; rewrite E.
  unfold ROUND_ANGLE.
  set (q := JS.atan2 tdy tdx * (180 / PI) / 15).
  split; [exists (JS.round q); reflexivity |].
  pose proof PI_RGT_0 as Hpi.
  pose proof (atan2_range tdy tdx) as [Hlo Hhi].
  assert (Hq : -12 < q <= 12).
  { unfold q.
    replace (JS.atan2 tdy tdx * (180 / PI) / 15)
      with (12 * (JS.atan2 tdy tdx / PI)) by (field; lra).
    assert (-1 < JS.atan2 tdy tdx / PI <= 1).
    { split.
      - apply (Rmult_lt_reg_r PI); [exact Hpi |].
        unfold Rdiv; rewrite Rmult_assoc, Rinv_l by lra; lra.
      - apply (Rmult_le_reg_r PI); [exact Hpi |].
        unfold Rdiv; rewrite Rmult_assoc, Rinv_l by lra; lra. }
    lra. }
  pose proof (round_bounds q) as Hr.
  assert (H1 : (-12 <= JS.round q)%Z).
  { apply Zfloor_lub; lra. }
  assert (H2 : (JS.round q <= 12)%Z).
  { apply le_IZR.
    destruct (Rle_dec (IZR (JS.round q)) 12) as [L | L]; [exact L |].
    exfalso.
    assert (Hlt : (12 < JS.round q)%Z) by (apply lt_IZR; lra).
    assert (Hge : (13 <= JS.round q)%Z) by lia.
    apply IZR_le in Hge; lra. }
  apply IZR_le in H1, H2; lra.
Qed.

End EstimatorFacts.

(** ** Evaluation at concrete inputs *)

Ltac sqrt_is v :=
  match goal with
  | |- context [sqrt ?a] =>
      replace (sqrt a) with v by (symmetry; apply sqrt_eq; lra)
  end.

(** Settles every comparison between numerals. *)
Ltac decide_cmp :=
  unfold_cmp;
  repeat match goal with
    | |- context [Rlt_dec ?a ?b] =>
        destruct (Rlt_dec a b); [try (exfalso; lra) | try (exfalso; lra)]
    | |- context [Rle_dec ?a ?b] =>
        destruct (Rle_dec a b); [try (exfalso; lra) | try (exfalso; lra)]
    | |- context [Req_dec_T ?a ?b] =>
        destruct (Req_dec_T a b); [try (exfalso; lra) | try (exfalso; lra)]
    end.

Ltac eval_estimator :=
  unfold Swipe.calculateForceAndDirection, Swipe.relevantPositions,
         Swipe.speedLoop, Swipe.isForceZero, Swipe.referenceForce;
  cbn [length Nat.sub Swipe.LAST_POSITION_COUNT skipn seq fold_left
       Swipe.speedStep Swipe.at_ nth Swipe.x Swipe.y Swipe.timeStamp
       Nat.min Swipe.lastLoop rev app Swipe.sumPairSpeeds
       Swipe.terminalMomentum Swipe.fdForce Swipe.fdDirectionAngle];
  unfold Swipe.pairSpeed, Swipe.MIN_DISPLACEMENT, Swipe.MIN_TOTAL_TIME,
         Swipe.MAX_FORCE, Swipe.ROUND_ANGLE;
  cbn [Swipe.x Swipe.y Swipe.timeStamp].

Section EstimatorExamples.

Import Swipe.
Import Scenario.

(** C4.  On [steadyThrow] the force returned is 2, while the force of
    the reference definition is 4: the two differ. *)
Theorem force_misses_last_pair :
  fdForce (calculateForceAndDirection steadyThrow) = 2
  /\ referenceForce steadyThrow = 4
  /\ fdForce (calculateForceAndDirection steadyThrow)
     <> referenceForce steadyThrow.
Proof.
  assert (E1 : fdForce (calculateForceAndDirection steadyThrow) = 2).
  { unfold steadyThrow; eval_estimator.
    repeat sqrt_is 20.
    decide_cmp; cbn [andb].
    replace (10 - 0) with 10 by lra.
    rewrite Rmin_left by lra; lra. }
  assert (E2 : referenceForce steadyThrow = 4).
  { unfold steadyThrow; eval_estimator.
    repeat sqrt_is 20.
    decide_cmp; cbn [andb orb].
    replace (10 - 0) with 10 by lra.
    replace (20 - 10) with 10 by lra.
    rewrite Rmin_left by lra; lra. }
  rewrite E1, E2; repeat split; lra.
Qed.

Lemma atan_hundredth : 0 < atan (1 / 100) < PI / 24.
Proof.
  pose proof PI2_1 as Hp1.
  pose proof PI2_3_2 as Hp3.
  split.
  { assert (H : 0 < 1 / 100) by lra.
    apply atan_increasing in H; rewrite atan_0 in H; exact H. }
  assert (Hs : 12 / 100 <= sin (1 / 8)).
  { destruct (SIN (1 / 8)) as [L _]; [lra | lra |].
    eapply Rle_trans; [| exact L].
    unfold sin_lb, sin_approx, sin_term; simpl; lra. }
  assert (Hc : 0 < cos (1 / 8) <= 1).
  { split; [apply cos_gt_0; lra | apply COS_bound]. }
  assert (Ht : 1 / 100 < tan (1 / 8)).
  { assert (E : tan (1 / 8) * cos (1 / 8) = sin (1 / 8))
      by (unfold tan; field; lra).
    apply (Rmult_lt_reg_r (cos (1 / 8))); [lra |].
    rewrite E; nra. }
  apply atan_increasing in Ht.
  rewrite atan_tan in Ht by lra.
  lra.
Qed.

Lemma leftwardDrag_angle :
  fdDirectionAngle (calculateForceAndDirection leftwardDrag) = -180.
Proof.
  unfold leftwardDrag; eval_estimator.
  assert (E : JS.atan2 (0 + (0 - 1)) (0 + (0 - 100))
              = atan (1 / 100) - PI).
  { unfold JS.atan2; decide_cmp; do 2 f_equal; lra. }
  rewrite E.
  pose proof atan_hundredth as [H0 H1].
  pose proof PI_RGT_0 as Hpi.
  rewrite (round_eq (-12)); [lra |].
  replace ((atan (1 / 100) - PI) * (180 / PI) / 15)
    with (12 * (atan (1 / 100) / PI) - 12) by (field; lra).
  assert (0 < atan (1 / 100) / PI < 1 / 24).
  { split.
    - apply Rdiv_lt_0_compat; lra.
    - apply (Rmult_lt_reg_r PI); [exact Hpi |].
      unfold Rdiv at 1; rewrite Rmult_assoc, Rinv_l by lra; lra. }
  lra.
Qed.

End EstimatorExamples.

(** C5, as stated, fails: the direction angle of [leftwardDrag] is -180,
    outside the interval (-180, 180]. *)
Lemma directionAngle_reaches_minus_180 :
  let a :=
    Swipe.fdDirectionAngle
      (Swipe.calculateForceAndDirection Scenario.leftwardDrag) in
  a = -180 /\ ~ (-180 < a <= 180).
Proof.
  intros a; subst a; rewrite leftwardDrag_angle; split; lra.
Qed.

(** ** Momentum after a release *)

Section MomentumFacts.

Import ZoomViewer.

Variable props : Props.
Variable layout : Layout.


(** At the level of the viewer: the frame of a momentum callback leaves
    no momentum callback pending. *)
Lemma runFrame_momentum_frames
      (currentTime initialForce force direction prevScale : R) (v : Viewer) :
  let v' := runFrame props layout currentTime
                     (MomentumAnimate initialForce force direction prevScale)
                     v in
  frames v' = frames v
  \/ exists (id : nat) (p : R * R) (startTime prevX prevY s : R),
       frames v' = frames v ++
         [(id, TransformAnimate None (Some p) 150 startTime prevX prevY s)].
Proof.
  intros v'; subst v'; cbn [runFrame].
  destruct (mrOnEnd _) as [[x y] |]; [| now left].
  unfold setElementEndPosition.
  destruct (targetElement layout); [| now left].
  right; unfold setTranslate; cbn [negb].
  unfold animateTransform.
  destruct (getPrevTransformedPosition _) as [pX pY].
  cbn [requestAnimationFrame setMoveFrame frames setStyle].
  now eexists _, _, _, _, _, _.
Qed.

End MomentumFacts.

(** ** A release under the threshold *)

Lemma trunc_IZR (k : Z) : JS.trunc (IZR k) = k.
Proof.
  unfold JS.trunc; destruct (Rlt_dec (IZR k) 0).
  - rewrite <- opp_IZR, (Zfloor_eq (- k)); [lia | lra].
  - apply Zfloor_eq; lra.
Qed.

Lemma trunc_eq (k : Z) (a : R) : a = IZR k -> JS.trunc a = k.
Proof. intros ->; apply trunc_IZR. Qed.

Ltac trunc_is k :=
  match goal with
  | |- context [JS.trunc ?a] => rewrite (trunc_eq k a) by lra
  end.

(** Content smaller than the viewer and inside it is left where it is. *)
Lemma getNextPosition_inside (viewerRect targetRect : ZoomViewer.Rect)
      (x y inBoundsOffset zoomRatio : R) :
  ZoomViewer.width targetRect * zoomRatio < ZoomViewer.width viewerRect ->
  ZoomViewer.height targetRect * zoomRatio < ZoomViewer.height viewerRect ->
  0 <= x ->
  x + ZoomViewer.width targetRect * zoomRatio
  <= ZoomViewer.width viewerRect ->
  0 <= y ->
  y + ZoomViewer.height targetRect * zoomRatio
  <= ZoomViewer.height viewerRect ->
  ZoomViewer.getNextPosition true (Some (viewerRect, targetRect))
                             x y inBoundsOffset zoomRatio
  = {| ZoomViewer.nextX := x; ZoomViewer.nextY := y;
       ZoomViewer.isOverBounds := Some false |}.
Proof.
  destruct viewerRect as [vw vh], targetRect as [tw th].
  cbn [ZoomViewer.width ZoomViewer.height ZoomViewer.getNextPosition].
  intros.
  unfold_cmp; destruct_cmp; cbn; try reflexivity; exfalso; lra.
Qed.

Ltac inside :=
  match goal with
  | |- context [ZoomViewer.getNextPosition true (Some (?v, ?t)) ?x ?y ?o ?z] =>
      rewrite (getNextPosition_inside v t x y o z)
        by (unfold ZoomViewer.targetRect, ZoomViewer.getPrevTransformedScale,
                   ZoomViewer.setTranslateNow;
            cbn [ZoomViewer.width ZoomViewer.height ZoomViewer.scale]; lra)
  end.

Ltac unfold_app :=
  unfold Scenario.run, Scenario.runAll, App.runAll, App.run, App.withViewer,
         App.viewerOf, App.onStart, App.onMove, App.onEnd, App.init,
         App.timeOf, Gesture.onStart, Gesture.onMove, Gesture.onEnd,
         Swipe.dispatch, Swipe.handleStart, Swipe.handleMove, Swipe.handleEnd,
         ZoomViewer.onPanStart, ZoomViewer.onPanning, ZoomViewer.onPanEnd,
         ZoomViewer.animationFrame, ZoomViewer.runFrame,
         ZoomViewer.moveElementAfterPanEnd, ZoomViewer.setElementEndPosition,
         ZoomViewer.setTranslate, ZoomViewer.animateTransform,
         ZoomViewer.momentumAnimate in *.

Section ShortThrow.

Import Scenario.

Lemma shortThrow_force :
  Swipe.calculateForceAndDirection shortThrowPositions
  = {| Swipe.fdForce := 1; Swipe.fdDirectionAngle := 0 |}.
Proof.
  unfold shortThrowPositions; eval_estimator.
  sqrt_is 15; sqrt_is 10.
  assert (E : JS.atan2 (0 + (0 - 0)) (0 + (10 - 0)) = 0).
  { unfold JS.atan2; decide_cmp.
    replace ((0 + (0 - 0)) / (0 + (10 - 0))) with 0 by (field; lra).
    apply atan_0. }
  rewrite E.
  decide_cmp; cbn [andb].
  replace (10 - 0) with 10 by lra.
  replace (0 + 10 / 10) with 1 by lra.
  rewrite Rmin_left by lra.
  f_equal.
  rewrite (round_eq 0); lra.
Qed.

(** The state when [shortThrow] is released: the distance is 25, the
    force 1, the element is where the drag left it, and a momentum
    callback waits for the next frame. *)
Lemma shortThrow_released :
  let s := runAll shortThrow App.init in
  Swipe.distanceX (Swipe.swiperMatrix (fst s)) = 25
  /\ Swipe.force (Swipe.swiperMatrix (fst s)) = 1
  /\ ZoomViewer.style (App.viewerOf s) = atRelease
  /\ ZoomViewer.frames (App.viewerOf s)
     = [(1%nat, ZoomViewer.MomentumAnimate 1 1 0 1)].
Proof.
  intros s; subst s.
  unfold shortThrow, atRelease; unfold_app.
  cbn -[Swipe.calculateForceAndDirection JS.trunc ZoomViewer.getNextPosition].
  fold shortThrowPositions; rewrite shortThrow_force.
  cbn [Swipe.fdForce Swipe.fdDirectionAngle].
  repeat trunc_is 10%Z; repeat trunc_is 0%Z.
  repeat inside.
  cbn [ZoomViewer.truthy ZoomViewer.isOverBounds orb].
  decide_cmp.
  cbn.
  unfold ZoomViewer.setTranslateNow; cbn [ZoomViewer.scale].
  repeat trunc_is 10%Z; repeat trunc_is 0%Z.
  repeat split; try reflexivity; lra.
Qed.

Lemma cos_sin_0 : cos (0 * PI / 180) = 1 /\ sin (0 * PI / 180) = 0.
Proof.
  replace (0 * PI / 180) with 0 by lra.
  split; [apply cos_0 | apply sin_0].
Qed.

Lemma scalingFactor_1 : ZoomViewer.scalingFactor 1 = 3.
Proof.
  unfold ZoomViewer.scalingFactor.
  rewrite (round_eq 0); lra.
Qed.

(** The momentum callback run on the transform of the release. *)
Lemma momentumAnimate_atRelease :
  ZoomViewer.momentumAnimate ZoomViewer.defaultProps layout 1 1 0 1 atRelease
  = {| ZoomViewer.mrStyle :=
         {| ZoomViewer.translate3d := Some (13, 0)%Z;
            ZoomViewer.scale := None |};
       ZoomViewer.mrForce := 1 * 0.95;
       ZoomViewer.mrOnEnd := None;
       ZoomViewer.mrRequested := false |}.
Proof.
  unfold ZoomViewer.momentumAnimate, atRelease.
  cbn -[JS.trunc ZoomViewer.getNextPosition ZoomViewer.scalingFactor cos sin].
  destruct cos_sin_0 as [-> ->]; rewrite scalingFactor_1.
  inside.
  cbn [ZoomViewer.truthy ZoomViewer.isOverBounds].
  decide_cmp.
  unfold ZoomViewer.setTranslateNow; cbn [ZoomViewer.scale].
  trunc_is 13%Z; trunc_is 0%Z.
  reflexivity.
Qed.

(** The frame after the release, for any viewer in that situation. *)
Lemma momentum_frame_atRelease (id : nat) (v : ZoomViewer.Viewer) :
  ZoomViewer.style v = atRelease ->
  ZoomViewer.frames v = [(id, ZoomViewer.MomentumAnimate 1 1 0 1)] ->
  let v' := ZoomViewer.animationFrame ZoomViewer.defaultProps layout 36 v in
  ZoomViewer.style v'
  = {| ZoomViewer.translate3d := Some (13, 0)%Z; ZoomViewer.scale := None |}
  /\ ZoomViewer.frames v' = [].
Proof.
  destruct v as [st op ptp mf rc nw fr nid rt oic].
  cbn [ZoomViewer.style ZoomViewer.frames]; intros -> ->.
  unfold ZoomViewer.animationFrame.
  cbn [fold_left snd ZoomViewer.runFrame ZoomViewer.frames ZoomViewer.style
       ZoomViewer.setFrames ZoomViewer.setNow].
  rewrite momentumAnimate_atRelease.
  cbn [ZoomViewer.mrOnEnd ZoomViewer.mrStyle ZoomViewer.setStyle
       ZoomViewer.style ZoomViewer.frames].
  split; reflexivity.
Qed.

Lemma shortThrow_after_frame :
  let s := run (App.AnimationFrame 36) (runAll shortThrow App.init) in
  ZoomViewer.style (App.viewerOf s)
  = {| ZoomViewer.translate3d := Some (13, 0)%Z; ZoomViewer.scale := None |}
  /\ ZoomViewer.frames (App.viewerOf s) = [].
Proof.
  destruct shortThrow_released as [_ [_ [Hs Hf]]].
  exact (momentum_frame_atRelease _ _ Hs Hf).
Qed.

End ShortThrow.

(** C1, as stated, fails: [Scenario.shortThrow] is released 25 px from its
    start, within the threshold of 30, with a force of 1; the frame after
    the release moves the element from (10, 0) to (13, 0), by the force
    times the scaling factor along the release angle. *)
Lemma release_under_threshold_moves :
  let s := Scenario.runAll Scenario.shortThrow App.init in
  let s' := Scenario.run (App.AnimationFrame 36) s in
  Rabs (Swipe.distanceX (Swipe.swiperMatrix (fst s)))
  <= Swipe.threshold Swipe.defaultProps
  /\ ZoomViewer.getPrevTransformedPosition (ZoomViewer.style (App.viewerOf s))
     = (10, 0)
  /\ ZoomViewer.getPrevTransformedPosition (ZoomViewer.style (App.viewerOf s'))
     = (13, 0)
  /\ ZoomViewer.getPrevTransformedPosition (ZoomViewer.style (App.viewerOf s'))
     <> ZoomViewer.getPrevTransformedPosition
          (ZoomViewer.style (App.viewerOf s)).
Proof.
  intros s s'; subst s s'.
  destruct shortThrow_released as [Hd [_ [Hs _]]].
  destruct shortThrow_after_frame as [Hs' _].
  rewrite Hd, Hs, Hs'.
  cbn [Swipe.threshold Swipe.defaultProps Scenario.atRelease
       ZoomViewer.getPrevTransformedPosition ZoomViewer.translate3d].
  repeat split.
  - rewrite Rabs_right; lra.
  - intros H; injection H; lra.
Qed.


(** ** What decides the momentum of a release *)

Section ReleaseFacts.

Import ZoomViewer.

Variable props : Props.
Variable layout : Layout.

(** [onPanEnd] reads the force and the angle of the record, nothing else. *)
Lemma onPanEnd_reads_force_and_angle (m1 m2 : Swipe.SwiperMatrix)
      (v : Viewer) :
  Swipe.force m1 = Swipe.force m2 ->
  Swipe.directionAngle m1 = Swipe.directionAngle m2 ->
  onPanEnd props layout m1 v = onPanEnd props layout m2 v.
Proof. intros Hf Ha; unfold onPanEnd; now rewrite Hf, Ha. Qed.

(** C1, as amended.  With the viewer enabled and attached, what a release
    does to the viewer is the same whatever the threshold and the axis of
    the swipe hook, so whatever the release distance: the callback of
    [useGesture] does not read [overThreshold].  The release applies no
    momentum, and settles at the corrected release position, when the
    computed force is 0 or the bounds resolver (inset 30) reports the
    release position out of bounds; otherwise it requests one momentum
    callback with the computed force and angle. *)
Theorem release_momentum_condition
        (p1 p2 : Swipe.SwipeProps) (e : Swipe.PointerEvent)
        (st : Swipe.State) (g : Gesture.GestureStatus) (v : Viewer)
        (own : Rect) :
  isDisabled props = false ->
  targetElement layout = Some own ->
  let after := fun p : Swipe.SwipeProps =>
    Swipe.handleEnd p (App.onEnd props layout) e (st, (g, v)) in
  let m := Swipe.swiperMatrix (fst (after p1)) in
  let np :=
    getNextPosition (isInBounds props) (rects layout (style v))
                    (fst (getPrevTransformedPosition (style v)))
                    (snd (getPrevTransformedPosition (style v))) 30 1 in
  snd (after p1) = snd (after p2)
  /\ (truthy (isOverBounds np) = true \/ Swipe.force m = 0 ->
      snd (snd (after p1))
      = setElementEndPosition props layout (nextX np) (nextY np) v)
  /\ (truthy (isOverBounds np) = false /\ Swipe.force m <> 0 ->
      snd (snd (after p1))
      = requestAnimationFrame
          (MomentumAnimate (Swipe.force m) (Swipe.force m)
                           (Swipe.directionAngle m)
                           (getPrevTransformedScale (style v))) v).
Proof.
  intros Hd Ht after m np.
  split.
  { subst after; cbn [Swipe.handleEnd snd App.onEnd Gesture.onEnd].
    apply (f_equal (pair _)).
    apply onPanEnd_reads_force_and_angle; reflexivity. }
  assert (E : snd (snd (after p1)) = onPanEnd props layout m v) by reflexivity.
  rewrite E; unfold onPanEnd; rewrite Hd, Ht.
  destruct (getPrevTransformedPosition (style v)) as [prevX prevY] eqn:Ep.
  cbn [fst snd] in np; fold np.
  split.
  - intros [H | H].
    + now rewrite H.
    + rewrite H; unfold JS.eqb.
      destruct (Req_dec_T 0 0) as [_ | N]; [| contradiction].
      now rewrite orb_true_r.
  - intros [H N]; rewrite H; unfold JS.eqb.
    destruct (Req_dec_T (Swipe.force m) 0) as [Z | _]; [contradiction |].
    cbn [orb]; unfold moveElementAfterPanEnd; now rewrite Ht.
Qed.

End ReleaseFacts.

(** The state of [Scenario.shortThrow] before its release. *)
Lemma shortThrow_dragged :
  let s := Scenario.runAll
             [App.Pointer (Swipe.Start Scenario.press);
              App.Pointer (Swipe.Move Scenario.drag)] App.init in
  Swipe.positions (Swipe.swiperMatrix (fst s))
    ++ [{| Swipe.x := 25; Swipe.y := 0; Swipe.timeStamp := 20 |}]
  = Scenario.shortThrowPositions
  /\ ZoomViewer.style (App.viewerOf s) = Scenario.atRelease.
Proof.
  intros s; subst s; unfold Scenario.atRelease; unfold_app.
  cbn -[JS.trunc].
  unfold ZoomViewer.setTranslateNow; cbn [ZoomViewer.scale].
  trunc_is 10%Z; trunc_is 0%Z.
  split; reflexivity.
Qed.

(** The release of [Scenario.shortThrow] with the threshold at 30 and at
    0: the viewer is left in the same state, with a momentum callback of
    force 1 requested. *)
Lemma release_momentum_condition_witness :
  let p0 := {| Swipe.directionType := Swipe.vertical; Swipe.threshold := 0;
               Swipe.isEnabled := true |} in
  let s := Scenario.runAll
             [App.Pointer (Swipe.Start Scenario.press);
              App.Pointer (Swipe.Move Scenario.drag)] App.init in
  let after := fun p : Swipe.SwipeProps =>
    Swipe.handleEnd p (App.onEnd ZoomViewer.defaultProps Scenario.layout)
                    Scenario.release s in
  snd (after Swipe.defaultProps) = snd (after p0)
  /\ snd (snd (after Swipe.defaultProps))
     = ZoomViewer.requestAnimationFrame
         (ZoomViewer.MomentumAnimate 1 1 0 1) (App.viewerOf s).
Proof.
  intros p0 s after.
  destruct shortThrow_dragged as [Hp Hs]; fold s in Hp, Hs.
  subst after; destruct s as [st [g v]].
  unfold App.viewerOf in *; cbn [fst snd] in Hp, Hs |- *.
  destruct (release_momentum_condition
              ZoomViewer.defaultProps Scenario.layout
              Swipe.defaultProps p0 Scenario.release st g v
              {| ZoomViewer.width := 100; ZoomViewer.height := 100 |}
              eq_refl eq_refl) as [Hsame [_ Hmom]].
  split; [exact Hsame |].
  assert (Hf : Swipe.calculateForceAndDirection
                 (Swipe.positions (Swipe.swiperMatrix st) ++
                  [{| Swipe.x := Swipe.clientX Scenario.release;
                      Swipe.y := Swipe.clientY Scenario.release;
                      Swipe.timeStamp :=
                        Swipe.eventTimeStamp Scenario.release |}])
               = {| Swipe.fdForce := 1; Swipe.fdDirectionAngle := 0 |}).
  { cbn [Scenario.release Swipe.clientX Swipe.clientY Swipe.eventTimeStamp].
    rewrite Hp; apply shortThrow_force. }
  assert (Hn : ZoomViewer.getNextPosition
                 (ZoomViewer.isInBounds ZoomViewer.defaultProps)
                 (ZoomViewer.rects Scenario.layout Scenario.atRelease)
                 (fst (ZoomViewer.getPrevTransformedPosition
                         Scenario.atRelease))
                 (snd (ZoomViewer.getPrevTransformedPosition
                         Scenario.atRelease)) 30 1
               = {| ZoomViewer.nextX := 10; ZoomViewer.nextY := 0;
                    ZoomViewer.isOverBounds := Some false |}).
  { unfold ZoomViewer.rects, Scenario.atRelease.
    cbn [Scenario.layout ZoomViewer.viewerRef ZoomViewer.targetElement
         ZoomViewer.defaultProps ZoomViewer.isInBounds
         ZoomViewer.getPrevTransformedPosition ZoomViewer.translate3d
         fst snd].
    inside; reflexivity. }
  rewrite Hmom.
  - cbn [Swipe.handleEnd fst Swipe.swiperMatrix Swipe.force
         Swipe.directionAngle].
    rewrite Hf, Hs; reflexivity.
  - cbn [Swipe.handleEnd fst Swipe.swiperMatrix Swipe.force].
    rewrite Hf, Hs, Hn; cbn [Swipe.fdForce]; split; [reflexivity | lra].
Defined.

(** ** The scale across a run of the viewer *)

Section ScaleInvariant.

Import ZoomViewer.

Variable props : Props.
Variable layout : Layout.

Lemma transformAnimate_keeps_floor
      (targetScale : option R) (position : option (R * R))
      (duration startTime prevX prevY prevScale currentTime : R)
      (t : Transform) :
  scaleAboveFloor t ->
  scaleAboveFloor
    (fst (transformAnimate targetScale position duration startTime
                           prevX prevY prevScale currentTime t)).
Proof.
  intros H; unfold transformAnimate, scaleAboveFloor; cbn [fst].
  destruct targetScale as [s |]; cbn [scale].
  - apply toFixed2_floor, Rmax_r.
  - destruct position; exact H.
Qed.

Lemma momentumAnimate_scale (initialForce force direction prevScale : R)
      (t : Transform) :
  scale (mrStyle (momentumAnimate props layout initialForce force direction
                                  prevScale t))
  = scale t.
Proof.
  unfold momentumAnimate.
  destruct (getPrevTransformedPosition t) as [prevX prevY].
  destruct (truthy _); [reflexivity |].
  destruct (_ >? _); reflexivity.
Qed.

Lemma setElementEndPosition_style (x y : R) (v : Viewer) :
  style (setElementEndPosition props layout x y v) = style v.
Proof.
  unfold setElementEndPosition.
  destruct (targetElement layout); [| reflexivity].
  unfold setTranslate; cbn [negb]; unfold animateTransform.
  now destruct (getPrevTransformedPosition (style v)).
Qed.

Lemma runFrame_keeps_floor (currentTime : R) (f : Frame) (v : Viewer) :
  scaleAboveFloor (style v) ->
  scaleAboveFloor (style (runFrame props layout currentTime f v)).
Proof.
  intros H; destruct f as [i f d ps | ts pos du st pX pY ps].
  - cbn [runFrame].
    pose proof (momentumAnimate_scale i f d ps (style v)) as Es.
    unfold scaleAboveFloor in *.
    destruct (mrOnEnd _) as [[x y] |]; cbn [style setMoveFrame];
      rewrite ?setElementEndPosition_style; cbn [style setStyle];
      rewrite Es; exact H.
  - cbn [runFrame].
    pose proof (transformAnimate_keeps_floor ts pos du st pX pY ps
                  currentTime (style v) H) as K.
    destruct (transformAnimate _ _ _ _ _ _ _ _ _) as [t again].
    cbn [fst] in K.
    destruct again; exact K.
Qed.

Lemma animationFrame_keeps_floor (currentTime : R) (v : Viewer) :
  scaleAboveFloor (style v) ->
  scaleAboveFloor (style (animationFrame props layout currentTime v)).
Proof.
  intros H; unfold animationFrame.
  assert (H0 : scaleAboveFloor
                 (style (setFrames [] (setNow currentTime v)))) by exact H.
  revert H0; generalize (setFrames [] (setNow currentTime v)).
  induction (frames v) as [| f fs IH]; intros v0 H0; cbn [fold_left].
  - exact H0.
  - apply IH, runFrame_keeps_floor, H0.
Qed.

End ScaleInvariant.

Section DispatchInvariant.

Variable C : Type.
Variable P : C -> Prop.
Variable swipeProps : Swipe.SwipeProps.
Variable onStart onMove : Swipe.SwiperMatrix -> C -> C.
Variable onEnd : Swipe.SwiperMatrix -> bool -> C -> C.

Hypothesis onStart_keeps : forall m c, P c -> P (onStart m c).
Hypothesis onMove_keeps : forall m c, P c -> P (onMove m c).
Hypothesis onEnd_keeps : forall m b c, P c -> P (onEnd m b c).

Lemma iter_keeps {A : Type} (Q : A -> Prop) (f : A -> A) (n : nat) (a : A) :
  (forall a', Q a' -> Q (f a')) -> Q a -> Q (Nat.iter n f a).
Proof.
  intros Hf Ha; induction n as [| n IH]; cbn; [exact Ha | apply Hf, IH].
Qed.

(** What the callbacks preserve, every event preserves. *)
Lemma dispatch_keeps (ev : Swipe.Event) (s : Swipe.State * C) :
  P (snd s) ->
  P (snd (Swipe.dispatch swipeProps onStart onMove onEnd ev s)).
Proof.
  intros H; destruct ev as [e | e | e]; cbn [Swipe.dispatch].
  - destruct (Swipe.isEnabled swipeProps); [| exact H].
    destruct s as [st c]; cbn; apply onStart_keeps, H.
  - apply (iter_keeps (fun s => P (snd s))); [| exact H].
    intros [st c] Hc; unfold Swipe.handleMove.
    destruct (negb (Swipe.isSwiping st)); [exact Hc |].
    cbn; apply onMove_keeps, Hc.
  - pose proof (iter_keeps (fun s => P (snd s))
                  (Swipe.handleEnd swipeProps onEnd e)
                  (Swipe.listeners (fst s)) s) as K.
    destruct (Nat.iter _ _ _) as [st c]; cbn [snd] in *.
    apply K; [| exact H].
    intros [st' c'] Hc; cbn; apply onEnd_keeps, Hc.
Qed.

End DispatchInvariant.

Section AppInvariant.

Import ZoomViewer.

Variable swipeProps : Swipe.SwipeProps.
Variable props : Props.
Variable layout : Layout.

Lemma onPanStart_style (m : Swipe.SwiperMatrix) (v : Viewer) :
  style (onPanStart props layout m v) = style v.
Proof.
  unfold onPanStart.
  destruct (isDisabled props); [reflexivity |].
  destruct (moveElementAfterPanEndFrame v), (targetElement layout);
    reflexivity.
Qed.

Lemma onPanning_scale (m : Swipe.SwiperMatrix) (v : Viewer) :
  scale (style (onPanning props layout m v)) = scale (style v).
Proof.
  unfold onPanning.
  destruct (isDisabled props), (targetElement layout); try reflexivity.
  now destruct (prevTargetPosition v).
Qed.

Lemma onPanEnd_style (m : Swipe.SwiperMatrix) (v : Viewer) :
  style (onPanEnd props layout m v) = style v.
Proof.
  unfold onPanEnd.
  destruct (isDisabled props), (targetElement layout) eqn:Et;
    try reflexivity.
  destruct (getPrevTransformedPosition (style v)) as [prevX prevY].
  destruct (_ || _).
  - apply setElementEndPosition_style.
  - unfold moveElementAfterPanEnd; now rewrite Et.
Qed.

Lemma zoomTargetElement_style (deltaZoomRatio : R) (v : Viewer) :
  style (zoomTargetElement props layout deltaZoomRatio v) = style v.
Proof.
  unfold zoomTargetElement.
  destruct (viewerRef layout), (targetElement layout); try reflexivity.
  destruct (getPrevTransformedPosition (style v)) as [prevX prevY] eqn:E.
  destruct (_ || _); [reflexivity |].
  destruct (getTransformedPosition _ _ _) as [x y].
  unfold setScale, animateTransform; now rewrite E.
Qed.

Lemma setScale_style (s : R) (position : option (R * R))
      (options : option R) (v : Viewer) :
  style (setScale s position options v) = style v.
Proof.
  unfold setScale, animateTransform.
  destruct position as [[nX nY] |];
    now destruct (getPrevTransformedPosition (style v)).
Qed.

Lemma initTargetElement_style (v : Viewer) :
  style (initTargetElement props layout v) = style v.
Proof.
  unfold initTargetElement.
  destruct (viewerRef layout) as [viewerRect |],
           (targetElement layout) as [own |]; try reflexivity.
  destruct (_ && _).
  - destruct (isDisabled props); [reflexivity |].
    now destruct (Nat.ltb _ _).
  - cbn [removeOpacity0 style].
    destruct (centerOnInit props).
    + destruct (getTransformedPosition _ _ _) as [x y].
      cbn [onInit style]; rewrite setScale_style.
      destruct (_ && _); [| reflexivity].
      cbn [onInit style]; apply setScale_style.
    + destruct (_ && _); [| reflexivity].
      cbn [onInit style]; apply setScale_style.
Qed.

(** Every task of the event loop keeps the scale at or above the floor. *)
Lemma run_keeps_floor (task : App.Task) (s : App.State) :
  scaleAboveFloor (style (App.viewerOf s)) ->
  scaleAboveFloor
    (style (App.viewerOf (App.run swipeProps props layout task s))).
Proof.
  intros H; destruct task as [ev | currentTime | time ev | time];
    cbn [App.run].
  - unfold App.viewerOf.
    apply (dispatch_keeps _ (fun c => scaleAboveFloor (style (snd c)))).
    + intros m [g v] Hc; cbn in *; now rewrite onPanStart_style.
    + intros m [g v] Hc; unfold scaleAboveFloor in *; cbn in *.
      now rewrite onPanning_scale.
    + intros m b [g v] Hc; cbn in *; now rewrite onPanEnd_style.
    + exact H.
  - unfold App.viewerOf, App.withViewer; cbn [snd].
    apply animationFrame_keeps_floor, H.
  - unfold App.viewerOf, App.withViewer, onChangeZoomRatio; cbn [snd].
    rewrite zoomTargetElement_style; exact H.
  - unfold App.viewerOf, App.withViewer; cbn [snd].
    rewrite initTargetElement_style; exact H.
Qed.

(** The invariant of the data model, over every run from the start. *)
Lemma runAll_keeps_floor (tasks : list App.Task) :
  scaleAboveFloor
    (style (App.viewerOf
              (App.runAll swipeProps props layout tasks App.init))).
Proof.
  unfold App.runAll.
  assert (H : scaleAboveFloor (style (App.viewerOf App.init)))
    by exact I.
  revert H; generalize App.init.
  induction tasks as [| task tasks IH]; intros s H; cbn [fold_left].
  - exact H.
  - apply IH, run_keeps_floor, H.
Qed.

End AppInvariant.

(** A zoom event that asks for a ratio of 0.2 from 1, then the display
    refresh at the end of the animation: the scale settles at the floor. *)
Example zoom_below_floor_settles_at_floor :
  let ev := {| ZoomController.zoomRatio := 0.2;
               ZoomController.prevZoomRatio := 1 |} in
  let s := Scenario.runAll [App.Zoom 0 ev; App.AnimationFrame 150] App.init in
  ZoomViewer.style (App.viewerOf s)
  = {| ZoomViewer.translate3d := Some (400, 400)%Z;
       ZoomViewer.scale := Some 0.5 |}
  /\ ZoomViewer.frames (App.viewerOf s) = [].
Proof.
  intros ev s; subst ev s.
  unfold_app.
  unfold ZoomViewer.onChangeZoomRatio, ZoomViewer.zoomTargetElement,
         ZoomViewer.setScale, ZoomViewer.animateTransform,
         ZoomViewer.transformAnimate.
  cbn -[JS.trunc JS.toFixed2 ZoomViewer.getNextPosition Rmax Rmin].
  decide_cmp.
  cbn -[JS.trunc JS.toFixed2 ZoomViewer.getNextPosition Rmax Rmin].
  repeat inside.
  cbn -[JS.trunc JS.toFixed2 Rmax Rmin].
  rewrite !Rmin_right by lra.
  decide_cmp.
  cbn -[JS.trunc JS.toFixed2 Rmax Rmin].
  unfold ZoomViewer.MIN_ZOOM_RATIO; rewrite Rmax_right by lra.
  repeat trunc_is 400%Z.
  replace 0.5 with (IZR 50 / 100) by lra.
  rewrite toFixed2_hundredths by lia.
  split; reflexivity.
Qed.

(** The scale chosen under [fitOnInit] is the one the initialisation
    applies: with the content measured, it reports the previous scale
    times that scale to [onInit], and requests an animation of duration 0
    to it. *)
Lemma initTargetElement_applies_fit
      (props : ZoomViewer.Props) (layout : ZoomViewer.Layout)
      (viewerRect own : ZoomViewer.Rect) (v : ZoomViewer.Viewer) :
  ZoomViewer.viewerRef layout = Some viewerRect ->
  ZoomViewer.targetElement layout = Some own ->
  ZoomViewer.fitOnInit props = true ->
  ZoomViewer.centerOnInit props = true ->
  let tRect := ZoomViewer.targetRect own (ZoomViewer.style v) in
  (ZoomViewer.width tRect =? 0) && (ZoomViewer.height tRect =? 0) = false ->
  let applied :=
    ZoomViewer.getPrevTransformedScale (ZoomViewer.style v)
    * ZoomViewer.fitInitScale viewerRect tRect in
  let v' := ZoomViewer.initTargetElement props layout v in
  ZoomViewer.onInitCalls v' = ZoomViewer.onInitCalls v ++ [applied]
  /\ exists (position : R * R) (prevX prevY : R),
       ZoomViewer.frames v'
       = ZoomViewer.frames v ++
           [(ZoomViewer.nextFrameId v,
             ZoomViewer.TransformAnimate
               (Some applied) (Some position) 0 (ZoomViewer.now v)
               prevX prevY
               (ZoomViewer.getPrevTransformedScale (ZoomViewer.style v)))].
Proof.
  intros Hv Ht Hf Hc tRect Hz applied v'.
  subst v'; unfold ZoomViewer.initTargetElement.
  rewrite Hv, Ht; fold tRect; rewrite Hz, Hf, Hc.
  rewrite andb_false_r.
  destruct (ZoomViewer.getTransformedPosition _ _ _) as [x y].
  unfold ZoomViewer.setScale, ZoomViewer.animateTransform.
  destruct (ZoomViewer.getPrevTransformedPosition (ZoomViewer.style v))
    as [pX pY].
  cbn [ZoomViewer.removeOpacity0 ZoomViewer.onInit
       ZoomViewer.requestAnimationFrame ZoomViewer.onInitCalls
       ZoomViewer.frames].
  split; [reflexivity |].
  now eexists _, _, _.
Qed.

(** * Further properties of the code *)

(** ** The zoom controller: wheel, floor, round trip, events *)

Lemma last_cons_default {A : Type} (a d : A) (l : list A) :
  last (a :: l) d = last l a.
Proof.
  revert a d; induction l as [| b l IH]; intros a d; [reflexivity |].
  change (last (a :: b :: l) d) with (last (b :: l) d).
  now rewrite (IH b d), (IH b a).
Qed.

Section ControllerMore.

Import ZoomController.
Import ZoomWheel.

Variable p : Props.

(** X1.  Wheel events that come less than 150 ms after the last accepted
    one are dropped, however many they are: the ratio, the events
    dispatched and [lastTime] are the same after them. *)
Theorem wheel_burst_dropped
        (st : ZoomController.State) (lastTime : R)
        (events : list (R * WheelEvent)) :
  Forall (fun e => fst e - lastTime < 150) events ->
  handleWheels p events (st, lastTime) = (st, lastTime).
Proof.
  intros H; unfold handleWheels.
  induction H as [| e events He _ IH]; cbn [fold_left]; [reflexivity |].
  unfold handleWheel at 2, throttledZoom, FunctionUtil.throttle.
  unfold JS.ltb; destruct (Rlt_dec (fst e - lastTime) 150); [| contradiction].
  exact IH.
Qed.

Lemma handleWheel_accepted (now : R) (event : WheelEvent)
      (st : ZoomController.State) (lastTime : R) :
  150 <= now - lastTime ->
  handleWheel p now event (st, lastTime)
  = (snd (zoom p (if deltaY event >? 0 then zout else zin) st), now).
Proof.
  intros H; unfold handleWheel, throttledZoom, FunctionUtil.throttle.
  unfold JS.ltb at 1; destruct (Rlt_dec (now - lastTime) 150); [lra |].
  reflexivity.
Qed.

(** X2.  Wheel events that come 150 ms or more after one another are all
    accepted: each dispatches exactly one zoom event, and [lastTime] ends
    at the time of the last one. *)
Theorem wheel_spaced_all_zoom
        (events : list (R * WheelEvent))
        (st : ZoomController.State) (lastTime : R) :
  spaced lastTime events ->
  let s' := handleWheels p events (st, lastTime) in
  length (dispatched (fst s'))
  = (length (dispatched st) + length events)%nat
  /\ snd s' = last (map fst events) lastTime.
Proof.
  revert st lastTime; unfold handleWheels.
  induction events as [| e events IH]; intros st lastTime H;
    cbn [fold_left length map].
  - cbn; split; [lia | reflexivity].
  - destruct H as [He Hs].
    rewrite handleWheel_accepted by exact He.
    destruct (IH (snd (zoom p (if deltaY (snd e) >? 0 then zout else zin)
                            st)) (fst e) Hs) as [IH1 IH2].
    rewrite IH1, IH2; split.
    + cbn [zoom snd dispatched]; rewrite length_app; cbn [length]; lia.
    + symmetry; apply last_cons_default.
Qed.

End ControllerMore.

Lemma wheel_burst_dropped_witness :
  let st := ZoomController.init ZoomController.defaultProps in
  let events := [(1050, {| ZoomWheel.deltaY := 3 |});
                 (1100, {| ZoomWheel.deltaY := -3 |});
                 (1149, {| ZoomWheel.deltaY := 3 |})] in
  ZoomWheel.handleWheels ZoomController.defaultProps events (st, 1000)
  = (st, 1000).
Proof.
  intros st events.
  apply wheel_burst_dropped.
  repeat constructor; cbn; lra.
Defined.

Lemma wheel_spaced_all_zoom_witness :
  let st := ZoomController.init ZoomController.defaultProps in
  let events := [(1000, {| ZoomWheel.deltaY := 3 |});
                 (1200, {| ZoomWheel.deltaY := -3 |})] in
  let s' := ZoomWheel.handleWheels ZoomController.defaultProps events
                                   (st, 0) in
  length (ZoomController.dispatched (fst s')) = 2%nat /\ snd s' = 1200.
Proof.
  intros st events s'.
  apply (wheel_spaced_all_zoom ZoomController.defaultProps events st 0).
  cbn; repeat split; lra.
Defined.

Section ControllerRatios.

Import ZoomController.
Import ZoomWheel.

(** X3.  When the floor is a non-negative number with at most two
    decimals, no call of [zoomIn] or [zoomOut] returns a ratio under it,
    whatever the ratio before the call (also one that [setZoomRatio] put
    under the floor) and whatever the step. *)
Theorem zoom_not_below_floor
        (p : Props) (d : ZoomDirection) (st : ZoomController.State) (k : Z) :
  (0 <= k)%Z ->
  minZoomRatio p = IZR k / 100 ->
  minZoomRatio p <= fst (zoom p d st)
  /\ minZoomRatio p <= getZoomRatio (snd (zoom p d st)).
Proof.
  intros Hk Hm.
  assert (H : minZoomRatio p
              <= JS.toFixed2
                   (Rmax (prevZoomRatioRef st
                          + zoomRatioStep p
                            * match d with zin => 1 | zout => -1 end)
                         (minZoomRatio p))).
  { rewrite Hm at 1.
    rewrite <- (toFixed2_hundredths k Hk), <- Hm.
    apply toFixed2_mono_nonneg; [| apply Rmax_r].
    rewrite Hm; apply IZR_le in Hk; lra. }
  split; exact H.
Qed.

(** X4.  On ratios, steps and floors with at most two decimals, [zoomOut]
    undoes [zoomIn] from any ratio at or above the floor, and [zoomIn]
    undoes [zoomOut] from any ratio at least one step above the floor. *)
Theorem zoomIn_zoomOut_round_trip
        (p : Props) (evs : list PaperZoomEvent) (a b c : Z) :
  (0 <= c <= a)%Z -> (0 <= b)%Z ->
  zoomRatioStep p = IZR b / 100 ->
  minZoomRatio p = IZR c / 100 ->
  let st := {| prevZoomRatioRef := IZR a / 100; dispatched := evs |} in
  getZoomRatio (snd (zoomOut p (snd (zoomIn p st)))) = getZoomRatio st
  /\ ((c <= a - b)%Z ->
      getZoomRatio (snd (zoomIn p (snd (zoomOut p st)))) = getZoomRatio st).
Proof.
  intros Hca Hb Hs Hm st; subst st.
  unfold zoomIn, zoomOut, zoom, getZoomRatio;
    cbn [snd prevZoomRatioRef dispatched].
  rewrite Hs, Hm.
  assert (Ha : IZR c <= IZR a) by (apply IZR_le; lia).
  assert (Hb' : 0 <= IZR b) by (apply IZR_le; lia).
  assert (Hc' : 0 <= IZR c) by (apply IZR_le; lia).
  split.
  - rewrite (Rmax_left (IZR a / 100 + IZR b / 100 * 1)) by lra.
    replace (IZR a / 100 + IZR b / 100 * 1) with (IZR (a + b) / 100)
      by (rewrite plus_IZR; lra).
    rewrite toFixed2_hundredths by lia.
    replace (IZR (a + b) / 100 + IZR b / 100 * -1) with (IZR a / 100)
      by (rewrite plus_IZR; lra).
    rewrite Rmax_left by lra.
    apply toFixed2_hundredths; lia.
  - intros Hab.
    assert (Hab' : IZR c <= IZR (a - b)) by (apply IZR_le; lia).
    rewrite minus_IZR in Hab'.
    rewrite (Rmax_left (IZR a / 100 + IZR b / 100 * -1)) by lra.
    replace (IZR a / 100 + IZR b / 100 * -1) with (IZR (a - b) / 100)
      by (rewrite minus_IZR; lra).
    rewrite toFixed2_hundredths by lia.
    replace (IZR (a - b) / 100 + IZR b / 100 * 1) with (IZR a / 100)
      by (rewrite minus_IZR; lra).
    rewrite Rmax_left by lra.
    apply toFixed2_hundredths; lia.
Qed.

Lemma zoomAll_cons (p : Props) (d : ZoomDirection) (ds : list ZoomDirection)
      (st : ZoomController.State) :
  zoomAll p (d :: ds) st = zoomAll p ds (snd (zoom p d st)).
Proof. reflexivity. Qed.

(** The events a sequence of calls dispatches. *)
Lemma zoomAll_events (p : Props) (ds : list ZoomDirection) (st : ZoomController.State) :
  exists evs : list PaperZoomEvent,
    dispatched (zoomAll p ds st) = dispatched st ++ evs
    /\ length evs = length ds
    /\ chained (getZoomRatio st) evs
    /\ getZoomRatio (zoomAll p ds st)
       = last (map zoomRatio evs) (getZoomRatio st).
Proof.
  revert st; induction ds as [| d ds IH]; intros st.
  - exists []; cbn; rewrite app_nil_r; repeat split; reflexivity.
  - rewrite zoomAll_cons.
    destruct (IH (snd (zoom p d st))) as [evs [E [L [Ch La]]]].
    set (next := JS.toFixed2
                   (Rmax (prevZoomRatioRef st
                          + zoomRatioStep p
                            * match d with zin => 1 | zout => -1 end)
                         (minZoomRatio p))) in *.
    exists ({| zoomRatio := next; prevZoomRatio := prevZoomRatioRef st |}
            :: evs).
    repeat split.
    + rewrite E; cbn [zoom snd dispatched]; fold next.
      now rewrite <- app_assoc.
    + cbn [length]; now rewrite L.
    + exact Ch.
    + rewrite La; cbn [map zoomRatio].
      symmetry; apply last_cons_default.
Qed.

(** X5.  Whatever the calls of [zoomIn] and [zoomOut], the events they
    dispatch are one per call, in order, each carrying as previous ratio
    the ratio of the event before it (the first one the ratio before the
    calls); after at least one call the current ratio is the ratio of the
    last event. *)
Theorem zoom_events_chained
        (p : Props) (ds : list ZoomDirection) (st : ZoomController.State) :
  exists evs : list PaperZoomEvent,
    dispatched (zoomAll p ds st) = dispatched st ++ evs
    /\ length evs = length ds
    /\ chained (getZoomRatio st) evs
    /\ getZoomRatio (zoomAll p ds st)
       = last (map zoomRatio evs) (getZoomRatio st).
Proof. exact (zoomAll_events p ds st). Qed.

End ControllerRatios.

Lemma zoom_not_below_floor_witness :
  let st := ZoomController.setZoomRatio 0.1
              (ZoomController.init ZoomController.defaultProps) in
  0.5 <= fst (ZoomController.zoomOut ZoomController.defaultProps st).
Proof.
  intros st.
  destruct (zoom_not_below_floor ZoomController.defaultProps
              ZoomController.zout st 50) as [H _].
  - lia.
  - cbn; lra.
  - cbn in H; exact H.
Defined.

Lemma zoomIn_zoomOut_round_trip_witness :
  let st := {| ZoomController.prevZoomRatioRef := IZR 125 / 100;
               ZoomController.dispatched := [] |} in
  let p := ZoomController.defaultProps in
  ZoomController.getZoomRatio
    (snd (ZoomController.zoomOut p (snd (ZoomController.zoomIn p st))))
  = ZoomController.getZoomRatio st
  /\ ZoomController.getZoomRatio
       (snd (ZoomController.zoomIn p (snd (ZoomController.zoomOut p st))))
     = ZoomController.getZoomRatio st.
Proof.
  intros st p.
  destruct (zoomIn_zoomOut_round_trip p [] 125 50 50) as [H1 H2].
  - lia.
  - lia.
  - cbn; lra.
  - cbn; lra.
  - split; [exact H1 | apply H2; lia].
Defined.

(** ** The zoom receiver *)

Section ReceiverFacts.

Variable C : Type.
Variable onChangeZoomRatio : R -> R -> C -> C.

Lemma last_nonempty_default {A : Type} (l : list A) (d d' : A) :
  l <> [] -> last l d = last l d'.
Proof.
  destruct l as [| a l]; [contradiction |]; intros _.
  now rewrite !last_cons_default.
Qed.

Lemma last_app_default {A : Type} (l1 l2 : list A) (d : A) :
  last (l1 ++ l2) d = last l2 (last l1 d).
Proof.
  revert d; induction l1 as [| a l1 IH]; intros d; [reflexivity |].
  rewrite <- app_comm_cons, !last_cons_default; apply IH.
Qed.

Lemma receive_ratio (events : list ZoomController.PaperZoomEvent)
      (s : ReceiveZoomEvent.State * C) :
  ReceiveZoomEvent.getZoomRatio
    (fst (ReceiveZoomEvent.receive onChangeZoomRatio events s))
  = last (map ZoomController.zoomRatio events)
         (ReceiveZoomEvent.getZoomRatio (fst s)).
Proof.
  revert s; unfold ReceiveZoomEvent.receive.
  induction events as [| ev events IH]; intros s; [reflexivity |].
  cbn [fold_left map]; rewrite IH.
  cbn [ReceiveZoomEvent.handleZoom fst ReceiveZoomEvent.getZoomRatio
       ReceiveZoomEvent.zoomRatioRef].
  symmetry; apply last_cons_default.
Qed.

(** X6.  After at least one call of [zoomIn] or [zoomOut], a receiver
    that has received the events dispatched on the window reports the
    ratio of the controller: [getZoomRatio] of the two are equal,
    whatever the receiver had cached before. *)
Theorem receiver_follows_controller
        (p : ZoomController.Props)
        (ds : list ZoomController.ZoomDirection)
        (st : ZoomController.State) (s : ReceiveZoomEvent.State * C) :
  ds <> [] ->
  let st' := ZoomWheel.zoomAll p ds st in
  ReceiveZoomEvent.getZoomRatio
    (fst (ReceiveZoomEvent.receive onChangeZoomRatio
            (ZoomController.dispatched st') s))
  = ZoomController.getZoomRatio st'.
Proof.
  intros Hds st'; subst st'.
  destruct (zoomAll_events p ds st) as [evs [E [L [_ La]]]].
  rewrite receive_ratio, E, La, map_app, last_app_default.
  apply last_nonempty_default.
  destruct evs; [destruct ds; [contradiction | discriminate] |].
  discriminate.
Qed.

End ReceiverFacts.

Lemma receiver_follows_controller_witness :
  let p := ZoomController.defaultProps in
  let st' := ZoomWheel.zoomAll p [ZoomController.zin; ZoomController.zout;
                                  ZoomController.zin]
                               (ZoomController.init p) in
  ReceiveZoomEvent.getZoomRatio
    (fst (ReceiveZoomEvent.receive
            (fun zoomRatio prevZoomRatio (c : list (R * R)) =>
               c ++ [(zoomRatio, prevZoomRatio)])
            (ZoomController.dispatched st') (ReceiveZoomEvent.init, [])))
  = ZoomController.getZoomRatio st'.
Proof.
  intros p st'.
  apply receiver_follows_controller; discriminate.
Defined.

(** ** The bounds resolver, whatever the sizes *)

Section ResolverMore.

Import ZoomViewer.

Ltac prune_cmp :=
  repeat match goal with
    | |- context [Rlt_dec ?a ?b] =>
        destruct (Rlt_dec a b); try (exfalso; lra)
    | |- context [Rle_dec ?a ?b] =>
        destruct (Rle_dec a b); try (exfalso; lra)
    end.

Ltac resolver_cases :=
  unfold_cmp; prune_cmp;
  cbn [negb andb orb existsb nextX nextY isOverBounds] in *;
  prune_cmp; cbn [negb andb orb existsb nextX nextY isOverBounds] in *.

(** The corrected position is within the bounds on both axes. *)
Lemma getNextPosition_within
      (viewerRect targetRect : Rect) (x y inBoundsOffset zoomRatio : R) :
  0 <= inBoundsOffset ->
  let r := getNextPosition true (Some (viewerRect, targetRect))
                           x y inBoundsOffset zoomRatio in
  Bounds.within (width targetRect * zoomRatio) (width viewerRect)
                inBoundsOffset (nextX r)
  /\ Bounds.within (height targetRect * zoomRatio) (height viewerRect)
                   inBoundsOffset (nextY r).
Proof.
  destruct viewerRect as [vw vh], targetRect as [tw th].
  cbn [width height getNextPosition]; intros Ho.
  set (W := tw * zoomRatio); set (H := th * zoomRatio).
  unfold Bounds.within.
  repeat split; intros; resolver_cases; lra.
Qed.

(** A position within the bounds is left as it is, and not reported. *)
Lemma getNextPosition_of_within
      (viewerRect targetRect : Rect) (x y inBoundsOffset zoomRatio : R) :
  Bounds.within (width targetRect * zoomRatio) (width viewerRect)
                inBoundsOffset x ->
  Bounds.within (height targetRect * zoomRatio) (height viewerRect)
                inBoundsOffset y ->
  getNextPosition true (Some (viewerRect, targetRect))
                  x y inBoundsOffset zoomRatio
  = {| nextX := x; nextY := y; isOverBounds := Some false |}.
Proof.
  destruct viewerRect as [vw vh], targetRect as [tw th].
  cbn [width height getNextPosition].
  set (W := tw * zoomRatio); set (H := th * zoomRatio).
  unfold Bounds.within; intros [X1 X2] [Y1 Y2].
  resolver_cases; try reflexivity; exfalso; lra.
Qed.

(** X7.  With bounds enforced and an inset that is not negative, along an
    axis where the scaled content is at least as large as the viewport
    the corrected value [c] leaves no gap wider than the inset:
    [c <= inset] and [viewport - inset <= c + extent]; it is the
    candidate, 0 or [viewport - extent], and it is the candidate whenever
    the candidate leaves no such gap. *)
Theorem getNextPosition_larger_axis
        (viewerRect targetRect : Rect) (x y inBoundsOffset zoomRatio : R) :
  0 <= inBoundsOffset ->
  let r := getNextPosition true (Some (viewerRect, targetRect))
                           x y inBoundsOffset zoomRatio in
  let targetWidth := width targetRect * zoomRatio in
  let targetHeight := height targetRect * zoomRatio in
  (width viewerRect <= targetWidth ->
   nextX r <= inBoundsOffset
   /\ width viewerRect - inBoundsOffset <= nextX r + targetWidth
   /\ (nextX r = x \/ nextX r = 0
       \/ nextX r = width viewerRect - targetWidth)
   /\ (x <= inBoundsOffset
       /\ width viewerRect - inBoundsOffset <= x + targetWidth ->
       nextX r = x))
  /\ (height viewerRect <= targetHeight ->
      nextY r <= inBoundsOffset
      /\ height viewerRect - inBoundsOffset <= nextY r + targetHeight
      /\ (nextY r = y \/ nextY r = 0
          \/ nextY r = height viewerRect - targetHeight)
      /\ (y <= inBoundsOffset
          /\ height viewerRect - inBoundsOffset <= y + targetHeight ->
          nextY r = y)).
Proof.
  destruct viewerRect as [vw vh], targetRect as [tw th].
  cbn [width height getNextPosition]; intros Ho.
  set (W := tw * zoomRatio); set (H := th * zoomRatio).
  repeat split; intros; resolver_cases;
    first [lra | left; lra | right; left; lra | right; right; lra].
Qed.

(** X8.  With bounds enforced and an inset that is not negative,
    [isOverBounds] is true exactly when the corrected position differs
    from the candidate on some axis. *)
Theorem isOverBounds_iff_corrected
        (viewerRect targetRect : Rect) (x y inBoundsOffset zoomRatio : R) :
  0 <= inBoundsOffset ->
  let r := getNextPosition true (Some (viewerRect, targetRect))
                           x y inBoundsOffset zoomRatio in
  (isOverBounds r = Some true <-> nextX r <> x \/ nextY r <> y)
  /\ (isOverBounds r = Some false <-> nextX r = x /\ nextY r = y).
Proof.
  destruct viewerRect as [vw vh], targetRect as [tw th].
  cbn [width height getNextPosition]; intros Ho.
  set (W := tw * zoomRatio); set (H := th * zoomRatio).
  repeat split; intros; resolver_cases;
    first [reflexivity | discriminate | lra | left; lra | right; lra
          | match goal with
            | Hd : _ \/ _ |- _ => destruct Hd; lra
            | Hd : _ /\ _ |- _ => destruct Hd; lra
            end].
Qed.

(** X9.  With bounds enforced and an inset that is not negative, the
    resolver applied to its own result changes nothing and reports
    nothing: a corrected position is a fixed point. *)
Theorem getNextPosition_idempotent
        (viewerRect targetRect : Rect) (x y inBoundsOffset zoomRatio : R) :
  0 <= inBoundsOffset ->
  let r := getNextPosition true (Some (viewerRect, targetRect))
                           x y inBoundsOffset zoomRatio in
  getNextPosition true (Some (viewerRect, targetRect))
                  (nextX r) (nextY r) inBoundsOffset zoomRatio
  = {| nextX := nextX r; nextY := nextY r; isOverBounds := Some false |}.
Proof.
  intros Ho r.
  destruct (getNextPosition_within viewerRect targetRect x y
              inBoundsOffset zoomRatio Ho) as [HX HY].
  apply getNextPosition_of_within; assumption.
Qed.

End ResolverMore.

(** ** Zooming about the centre of the viewer *)

Section CentreFacts.

Import ZoomViewer.

(** X10.  [getTransformedPosition] keeps the point of the content that is
    under the centre of the container there: the offset of the centre
    from the translation, measured in content units, is the same before
    (at scale [s]) and after (at scale [s * k]). *)
Theorem getTransformedPosition_keeps_centre
        (x y k s : R) (containerSize : Rect) :
  s <> 0 -> k <> 0 ->
  let centerX := width containerSize / 2 in
  let centerY := height containerSize / 2 in
  let p' := getTransformedPosition (x, y) k containerSize in
  (centerX - fst p') / (s * k) = (centerX - x) / s
  /\ (centerY - snd p') / (s * k) = (centerY - y) / s.
Proof.
  intros Hs Hk centerX centerY p'; subst p'.
  unfold getTransformedPosition; cbn [fst snd]; fold centerX centerY.
  split; field; split; assumption.
Qed.

(** X11.  [getTransformedPosition] composes: scaling by [k1] and then by
    [k2] is scaling by [k1 * k2]; scaling by 1 changes nothing, and
    scaling by [k] and then by [1 / k] gives the position back. *)
Theorem getTransformedPosition_composes
        (p : R * R) (containerSize : Rect) :
  (forall k1 k2 : R,
      getTransformedPosition (getTransformedPosition p k1 containerSize)
                             k2 containerSize
      = getTransformedPosition p (k1 * k2) containerSize)
  /\ getTransformedPosition p 1 containerSize = p
  /\ (forall k : R, k <> 0 ->
        getTransformedPosition (getTransformedPosition p k containerSize)
                               (1 / k) containerSize = p).
Proof.
  destruct p as [x y]; unfold getTransformedPosition; cbn [fst snd].
  repeat split.
  - intros k1 k2; f_equal; ring.
  - f_equal; field.
  - intros k Hk; f_equal; field; exact Hk.
Qed.

End CentreFacts.

Lemma getTransformedPosition_keeps_centre_witness :
  let size := {| ZoomViewer.width := 1000; ZoomViewer.height := 800 |} in
  let p' := ZoomViewer.getTransformedPosition (100, 50) 2 size in
  (1000 / 2 - fst p') / (1 * 2) = (1000 / 2 - 100) / 1
  /\ (800 / 2 - snd p') / (1 * 2) = (800 / 2 - 50) / 1.
Proof.
  intros size p'.
  apply (getTransformedPosition_keeps_centre 100 50 2 1 size); lra.
Defined.

Lemma getTransformedPosition_composes_witness :
  let size := {| ZoomViewer.width := 1000; ZoomViewer.height := 800 |} in
  ZoomViewer.getTransformedPosition
    (ZoomViewer.getTransformedPosition (100, 50) 4 size) (1 / 4) size
  = (100, 50).
Proof.
  intros size.
  apply (proj2 (proj2 (getTransformedPosition_composes (100, 50) size))).
  lra.
Defined.

(** ** Truncation *)

Lemma trunc_toward_zero (a : R) :
  (0 <= a -> 0 <= IZR (JS.trunc a) <= a)
  /\ (a <= 0 -> a <= IZR (JS.trunc a) <= 0).
Proof.
  unfold JS.trunc; destruct (Rlt_dec a 0) as [Hn | Hn].
  - pose proof (Zfloor_bound (- a)) as [B1 B2].
    assert (H0 : (0 <= Zfloor (- a))%Z) by (apply Zfloor_lub; lra).
    apply IZR_le in H0; rewrite opp_IZR; split; intros; lra.
  - pose proof (Zfloor_bound a) as [B1 B2].
    assert (H0 : (0 <= Zfloor a)%Z) by (apply Zfloor_lub; lra).
    apply IZR_le in H0; split; intros; lra.
Qed.

Lemma trunc_mono (a b : R) : a <= b -> (JS.trunc a <= JS.trunc b)%Z.
Proof.
  intros Hab; unfold JS.trunc.
  destruct (Rlt_dec a 0) as [Ha | Ha], (Rlt_dec b 0) as [Hb | Hb].
  - assert (Zfloor (- b) <= Zfloor (- a))%Z by (apply Zfloor_le; lra); lia.
  - assert (0 <= Zfloor (- a))%Z by (apply Zfloor_lub; lra).
    assert (0 <= Zfloor b)%Z by (apply Zfloor_lub; lra).
    lia.
  - lra.
  - apply Zfloor_le; exact Hab.
Qed.

(** Truncation keeps a position within the bounds with no inset. *)
Lemma trunc_within (extent viewport c : R) :
  Bounds.within extent viewport 0 c ->
  Bounds.within extent viewport 0 (IZR (JS.trunc c)).
Proof.
  unfold Bounds.within; intros [Hs Hl].
  destruct (trunc_toward_zero c) as [Tp Tn].
  split; intros H.
  - destruct (Hs H) as [H0 H1]; specialize (Tp H0); lra.
  - destruct (Hl H) as [H0 H1]; specialize (Tn H0); lra.
Qed.

(** ** Settling *)

Section SettleFacts.

Import ZoomViewer.

Variable props : Props.
Variable layout : Layout.

(** The last tick of an animation of the position alone. *)
Lemma transformAnimate_position_done
      (p : R * R) (duration startTime prevX prevY prevScale currentTime : R)
      (t : Transform) :
  duration = 0 \/ (0 < duration /\ duration <= currentTime - startTime) ->
  transformAnimate None (Some p) duration startTime prevX prevY prevScale
                   currentTime t
  = ({| translate3d := Some (JS.trunc (fst p), JS.trunc (snd p));
        scale := scale t |}, false).
Proof.
  intros Hd.
  assert (P : (if duration =? 0 then 1
               else Rmin ((currentTime - startTime) / duration) 1) = 1).
  { unfold_cmp; destruct (Req_dec_T duration 0) as [| Hn];
      [reflexivity |].
    destruct Hd as [Hd | [Hp Hd]]; [contradiction |].
    apply Rmin_right.
    apply (Rmult_le_reg_r duration); [exact Hp |].
    unfold Rdiv; rewrite Rmult_assoc, Rinv_l by lra; lra. }
  unfold transformAnimate; rewrite P.
  replace (prevX + (fst p - prevX) * 1) with (fst p) by lra.
  replace (prevY + (snd p - prevY) * 1) with (snd p) by lra.
  unfold_cmp; destruct (Rlt_dec 1 1); [lra | reflexivity].
Qed.

(** X12.  With bounds enforced and the elements attached, settling at a
    position and letting the animation end (a display refresh 150 ms or
    more later, nothing else pending) leaves the element at a whole
    number of pixels within the bounds on both axes: inside the viewport
    where the content is smaller, covering it where the content is at
    least as large.  The scale is untouched and nothing stays pending. *)
Theorem settle_ends_within_bounds
        (viewerRect own : Rect) (x y currentTime : R) (v : Viewer) :
  isInBounds props = true ->
  viewerRef layout = Some viewerRect ->
  targetElement layout = Some own ->
  frames v = [] ->
  150 <= currentTime - now v ->
  let v' := animationFrame props layout currentTime
                           (setElementEndPosition props layout x y v) in
  let tRect := targetRect own (style v) in
  exists tx ty : Z,
    translate3d (style v') = Some (tx, ty)
    /\ Bounds.within (width tRect) (width viewerRect) 0 (IZR tx)
    /\ Bounds.within (height tRect) (height viewerRect) 0 (IZR ty)
    /\ scale (style v') = scale (style v)
    /\ frames v' = [].
Proof.
  intros Hb Hv Ht Hf Hn v' tRect; subst v'.
  unfold setElementEndPosition, rects; rewrite Ht, Hv, Hb.
  fold tRect.
  set (np := getNextPosition true (Some (viewerRect, tRect)) x y 0 1).
  unfold setTranslate; cbn [negb]; unfold animateTransform.
  destruct (getPrevTransformedPosition (style v)) as [pX pY].
  unfold animationFrame, requestAnimationFrame.
  cbn [frames setFrames setNow style]; rewrite Hf.
  cbn [app fold_left snd runFrame style].
  rewrite transformAnimate_position_done by (right; lra).
  cbn [setStyle style frames translate3d scale fst snd].
  exists (JS.trunc (nextX np)), (JS.trunc (nextY np)).
  destruct (getNextPosition_within viewerRect tRect x y 0 1 (Rle_refl 0))
    as [HX HY].
  fold np in HX, HY; rewrite Rmult_1_r in HX, HY.
  split; [reflexivity |].
  split; [apply trunc_within; exact HX |].
  split; [apply trunc_within; exact HY |].
  split; reflexivity.
Qed.

End SettleFacts.

Lemma settle_ends_within_bounds_witness :
  let v := ZoomViewer.initialViewer in
  let v' := ZoomViewer.animationFrame ZoomViewer.defaultProps Scenario.layout
              200
              (ZoomViewer.setElementEndPosition
                 ZoomViewer.defaultProps Scenario.layout (-40) 2000 v) in
  exists tx ty : Z,
    ZoomViewer.translate3d (ZoomViewer.style v') = Some (tx, ty)
    /\ Bounds.within (100 * 1) 1000 0 (IZR tx)
    /\ Bounds.within (100 * 1) 1000 0 (IZR ty)
    /\ ZoomViewer.scale (ZoomViewer.style v') = None
    /\ ZoomViewer.frames v' = [].
Proof.
  intros v v'.
  apply (settle_ends_within_bounds
           ZoomViewer.defaultProps Scenario.layout
           {| ZoomViewer.width := 1000; ZoomViewer.height := 1000 |}
           {| ZoomViewer.width := 100; ZoomViewer.height := 100 |}
           (-40) 2000 200 v); try reflexivity.
  cbn; lra.
Defined.

(** ** The ticks of an animation *)

Section AnimationMore.

Import ZoomViewer.

Variable props : Props.
Variable layout : Layout.

(** The progress of an animation at a tick. *)
Lemma progress_range (duration elapsedTime : R) :
  0 <= duration -> 0 <= elapsedTime ->
  0 <= (if duration =? 0 then 1 else Rmin (elapsedTime / duration) 1) <= 1.
Proof.
  intros Hd He; unfold_cmp.
  destruct (Req_dec_T duration 0) as [| Hn]; [lra |].
  assert (Hq : 0 <= elapsedTime / duration).
  { apply Rmult_le_pos; [exact He |].
    left; apply Rinv_0_lt_compat; lra. }
  split; [apply Rmin_glb; lra | apply Rmin_r].
Qed.

Lemma progress_done (duration elapsedTime : R) :
  duration = 0 \/ (0 < duration /\ duration <= elapsedTime) ->
  (if duration =? 0 then 1 else Rmin (elapsedTime / duration) 1) = 1.
Proof.
  intros Hd; unfold_cmp.
  destruct (Req_dec_T duration 0) as [| Hn]; [reflexivity |].
  destruct Hd as [Hd | [Hp Hd]]; [contradiction |].
  apply Rmin_right.
  apply (Rmult_le_reg_r duration); [exact Hp |].
  unfold Rdiv; rewrite Rmult_assoc, Rinv_l by lra; lra.
Qed.

Lemma progress_pending (duration elapsedTime : R) :
  0 < duration -> elapsedTime < duration ->
  (if duration =? 0 then 1 else Rmin (elapsedTime / duration) 1) < 1.
Proof.
  intros Hp He; unfold_cmp.
  destruct (Req_dec_T duration 0) as [| Hn]; [lra |].
  apply Rle_lt_trans with (elapsedTime / duration); [apply Rmin_l |].
  apply (Rmult_lt_reg_r duration); [exact Hp |].
  unfold Rdiv; rewrite Rmult_assoc, Rinv_l by lra; lra.
Qed.

(** X13.  A tick of an animation requests another frame exactly when its
    duration has not elapsed: with a positive duration, it does when less
    than the duration has passed since the start and it does not
    otherwise; with a duration of 0 it never does. *)
Theorem transformAnimate_requests_until_done
        (targetScale : option R) (position : option (R * R))
        (duration startTime prevX prevY prevScale currentTime : R)
        (t : Transform) :
  0 <= duration ->
  snd (transformAnimate targetScale position duration startTime
                        prevX prevY prevScale currentTime t) = true
  <-> 0 < duration /\ currentTime - startTime < duration.
Proof.
  intros Hd; unfold transformAnimate; cbn [snd].
  split.
  - intros H.
    destruct (Req_dec_T duration 0) as [Z | NZ].
    + exfalso; rewrite progress_done in H by (left; exact Z).
      unfold_cmp; destruct (Rlt_dec 1 1); [lra | discriminate].
    + split; [lra |].
      destruct (Rlt_dec (currentTime - startTime) duration) as [L | L];
        [exact L | exfalso].
      rewrite progress_done in H by (right; lra).
      unfold_cmp; destruct (Rlt_dec 1 1); [lra | discriminate].
  - intros [Hp He].
    pose proof (progress_pending duration (currentTime - startTime) Hp He)
      as P.
    unfold JS.ltb at 1.
    destruct (Rlt_dec _ 1); [reflexivity | contradiction].
Qed.

End AnimationMore.

Section AnimationEnd.

Import ZoomViewer.

Variable props : Props.
Variable layout : Layout.

Lemma transformAnimate_done_no_request
      (targetScale : option R) (position : option (R * R))
      (duration startTime prevX prevY prevScale currentTime : R)
      (t : Transform) :
  duration = 0 \/ (0 < duration /\ duration <= currentTime - startTime) ->
  snd (transformAnimate targetScale position duration startTime
                        prevX prevY prevScale currentTime t) = false.
Proof.
  intros Hd; unfold transformAnimate; cbn [snd].
  rewrite progress_done by exact Hd.
  unfold_cmp; destruct (Rlt_dec 1 1); [lra | reflexivity].
Qed.

Lemma runFrame_elapsed_frames (t : R) (f : nat * Frame) (v : Viewer) :
  Animation.elapsedAt t f ->
  frames (runFrame props layout t (snd f) v) = frames v.
Proof.
  unfold Animation.elapsedAt; destruct (snd f) as [| ts pos d st pX pY pS];
    [contradiction |].
  intros Hd; cbn [runFrame].
  pose proof (transformAnimate_done_no_request
                ts pos d st pX pY pS t (style v) Hd) as Hreq.
  destruct (transformAnimate ts pos d st pX pY pS t (style v))
    as [t' again].
  cbn [snd] in Hreq; subst again; reflexivity.
Qed.

(** X14.  A display refresh at which every pending callback is an
    animation whose duration has elapsed runs them all and leaves nothing
    pending: every animation ends at the first refresh after its
    duration. *)
Theorem animations_end_after_duration (t : R) (v : Viewer) :
  Forall (Animation.elapsedAt t) (frames v) ->
  frames (animationFrame props layout t v) = [].
Proof.
  intros H; unfold animationFrame.
  assert (H0 : frames (setFrames [] (setNow t v)) = []) by reflexivity.
  revert H0; generalize (setFrames [] (setNow t v)).
  induction H as [| f fs Hf _ IH]; intros v0 H0; cbn [fold_left].
  - exact H0.
  - apply IH; rewrite runFrame_elapsed_frames by exact Hf; exact H0.
Qed.

(** X15.  An animation of the position never overshoots: at a tick that
    comes no earlier than its start, the translation written on each axis
    lies between the translation it started from and the target,
    truncated to whole pixels. *)
Theorem transformAnimate_between
        (targetScale : option R) (p : R * R) (px py : Z)
        (duration startTime prevScale currentTime : R) (t : Transform) :
  0 <= duration -> startTime <= currentTime ->
  let t' := fst (transformAnimate targetScale (Some p) duration startTime
                                  (IZR px) (IZR py) prevScale currentTime t) in
  exists tx ty : Z,
    translate3d t' = Some (tx, ty)
    /\ (Z.min px (JS.trunc (fst p)) <= tx <= Z.max px (JS.trunc (fst p)))%Z
    /\ (Z.min py (JS.trunc (snd p)) <= ty <= Z.max py (JS.trunc (snd p)))%Z.
Proof.
  intros Hd Ht t'; subst t'.
  pose proof (progress_range duration (currentTime - startTime) Hd
                ltac:(lra)) as Hp.
  unfold transformAnimate; cbn [fst].
  set (progress := if duration =? 0 then 1
                   else Rmin ((currentTime - startTime) / duration) 1) in *.
  assert (B : forall (q : Z) (g : R),
             (Z.min q (JS.trunc g)
              <= JS.trunc (IZR q + (g - IZR q) * progress)
              <= Z.max q (JS.trunc g))%Z).
  { intros q g.
    destruct (Rle_dec (IZR q) g) as [L | L].
    - assert (H1 : (JS.trunc (IZR q)
                    <= JS.trunc (IZR q + (g - IZR q) * progress))%Z)
        by (apply trunc_mono; nra).
      assert (H2 : (JS.trunc (IZR q + (g - IZR q) * progress)
                    <= JS.trunc g)%Z)
        by (apply trunc_mono; nra).
      rewrite trunc_IZR in H1; lia.
    - assert (H1 : (JS.trunc (IZR q + (g - IZR q) * progress)
                    <= JS.trunc (IZR q))%Z)
        by (apply trunc_mono; nra).
      assert (H2 : (JS.trunc g
                    <= JS.trunc (IZR q + (g - IZR q) * progress))%Z)
        by (apply trunc_mono; nra).
      rewrite trunc_IZR in H1; lia. }
  eexists _, _; split.
  - destruct targetScale; cbn [translate3d]; reflexivity.
  - split; apply B.
Qed.

End AnimationEnd.

Lemma animations_end_after_duration_witness :
  let v := ZoomViewer.setElementEndPosition
             ZoomViewer.defaultProps Scenario.layout 20 30
             ZoomViewer.initialViewer in
  ZoomViewer.frames
    (ZoomViewer.animationFrame ZoomViewer.defaultProps Scenario.layout 150 v)
  = [].
Proof.
  intros v.
  apply animations_end_after_duration.
  subst v; unfold ZoomViewer.setElementEndPosition, ZoomViewer.setTranslate,
                  ZoomViewer.animateTransform.
  cbn -[ZoomViewer.getNextPosition].
  apply Forall_cons; [unfold Animation.elapsedAt; cbn; right; lra | apply Forall_nil].
Defined.

Lemma transformAnimate_between_witness :
  let t := {| ZoomViewer.translate3d := Some (10, 0)%Z;
              ZoomViewer.scale := None |} in
  let t' := fst (ZoomViewer.transformAnimate None (Some (25.5, -8)) 150 0
                                             (IZR 10) (IZR 0) 1 75 t) in
  exists tx ty : Z,
    ZoomViewer.translate3d t' = Some (tx, ty)
    /\ (Z.min 10 (JS.trunc 25.5) <= tx <= Z.max 10 (JS.trunc 25.5))%Z
    /\ (Z.min 0 (JS.trunc (-8)) <= ty <= Z.max 0 (JS.trunc (-8)))%Z.
Proof.
  intros t t'.
  apply (transformAnimate_between None (25.5, -8) 10 0 150 0 1 75 t); lra.
Defined.

(** ** The estimator: bounds, taps, and what it reads *)

Section EstimatorMore.

Import Swipe.
Import SwipeOrder.

Lemma timeOrdered_nth (ps : list Position) (i : nat) (d : Position) :
  timeOrdered ps -> (S i < length ps)%nat ->
  timeStamp (nth i ps d) <= timeStamp (nth (S i) ps d).
Proof.
  revert i; induction ps as [| a ps IH]; intros i H Hi; [cbn in Hi; lia |].
  destruct ps as [| b ps]; [cbn in Hi; lia |].
  destruct H as [Hab Ht].
  destruct i as [| i]; [exact Hab |].
  apply (IH i Ht); cbn [length] in *; lia.
Qed.

Lemma timeOrdered_skipn (n : nat) (ps : list Position) :
  timeOrdered ps -> timeOrdered (skipn n ps).
Proof.
  revert ps; induction n as [| n IH]; intros ps H; [exact H |].
  destruct ps as [| a ps]; [exact I |].
  cbn [skipn]; apply IH.
  destruct ps; [exact I | exact (proj2 H)].
Qed.

(** The force summed by the first loop is not negative when the samples
    are in the order of their time stamps. *)
Lemma speedLoop_force_nonneg (rel : list Position) (idx : list nat)
      (acc : R * R * R) :
  timeOrdered rel ->
  Forall (fun i => (1 <= i < length rel)%nat) idx ->
  0 <= fst (fst acc) ->
  0 <= fst (fst (fold_left (speedStep rel) idx acc)).
Proof.
  intros Ht; revert acc.
  induction idx as [| i idx IH]; intros acc Hi Ha; [exact Ha |].
  cbn [fold_left]; apply IH; [now inversion Hi |].
  inversion Hi as [| ? ? Hi1 _]; subst.
  destruct acc as [[f tdx] tdy]; cbn [fst] in Ha.
  unfold speedStep; cbn [fst].
  pose proof (timeOrdered_nth rel (i - 1)
                {| x := 0; y := 0; timeStamp := 0 |} Ht) as Hord.
  replace (S (i - 1)) with i in Hord by lia.
  specialize (Hord ltac:(lia)).
  fold (at_ rel (i - 1)) in Hord; fold (at_ rel i) in Hord.
  unfold JS.eqb; destruct (Req_dec_T _ 0) as [| Hn]; [lra |].
  assert (Hs : 0 <= sqrt ((x (at_ rel i) - x (at_ rel (i - 1)))
                          * (x (at_ rel i) - x (at_ rel (i - 1)))
                          + (y (at_ rel i) - y (at_ rel (i - 1)))
                            * (y (at_ rel i) - y (at_ rel (i - 1)))))
    by apply sqrt_pos.
  assert (Hq : 0 <= sqrt ((x (at_ rel i) - x (at_ rel (i - 1)))
                          * (x (at_ rel i) - x (at_ rel (i - 1)))
                          + (y (at_ rel i) - y (at_ rel (i - 1)))
                            * (y (at_ rel i) - y (at_ rel (i - 1))))
                    / (timeStamp (at_ rel i) - timeStamp (at_ rel (i - 1)))).
  { apply Rmult_le_pos; [exact Hs |].
    left; apply Rinv_0_lt_compat; lra. }
  lra.
Qed.

(** X16.  The force returned at release is at most 7, whatever the
    history; it is not negative when the samples are in the order of
    their time stamps. *)
Theorem force_range (ps : list Position) :
  fdForce (calculateForceAndDirection ps) <= MAX_FORCE
  /\ (timeOrdered ps -> 0 <= fdForce (calculateForceAndDirection ps)).
Proof.
  unfold calculateForceAndDirection.
  destruct (speedLoop (relevantPositions ps)) as [[f tdx] tdy] eqn:E.
  cbn [fdForce]; split; [apply Rmin_r |].
  intros Ht.
  assert (Hf : 0 <= f).
  { change f with (fst (fst (f, tdx, tdy))); rewrite <- E.
    unfold speedLoop.
    apply speedLoop_force_nonneg.
    - apply timeOrdered_skipn, Ht.
    - apply Forall_forall; intros i Hi; apply in_seq in Hi; lia.
    - cbn; lra. }
  unfold MAX_FORCE; destruct (isForceZero ps);
    apply Rmin_glb; lra.
Qed.

(** X17.  A history of at most two samples (a press and a release with no
    move between them) gives a force of 0 and an angle of 0, however far
    apart and however quick the two samples are. *)
Theorem tap_has_no_force (ps : list Position) :
  (length ps <= 2)%nat ->
  calculateForceAndDirection ps
  = {| fdForce := 0; fdDirectionAngle := 0 |}.
Proof.
  intros Hl.
  assert (E0 : JS.atan2 0 0 * (180 / PI) / ROUND_ANGLE = 0).
  { unfold JS.atan2, ROUND_ANGLE.
    destruct (Rlt_dec 0 0); [lra |].
    unfold Rdiv; ring. }
  assert (R0 : forall b : bool,
             {| fdForce := Rmin (if b then 0 else 0) MAX_FORCE;
                fdDirectionAngle :=
                  IZR (JS.round (JS.atan2 0 0 * (180 / PI) / ROUND_ANGLE))
                  * ROUND_ANGLE |}
             = {| fdForce := 0; fdDirectionAngle := 0 |}).
  { intros b; rewrite E0, (round_eq 0) by lra.
    unfold MAX_FORCE, ROUND_ANGLE.
    destruct b; rewrite Rmin_left by lra; f_equal; lra. }
  destruct ps as [| a [| b [| c ps]]]; [| | | cbn in Hl; lia];
    unfold calculateForceAndDirection; cbn; exact (R0 true).
Qed.

Lemma lastLoop_app (older recent : list Position) (idx : list nat)
      (t d : R) :
  Forall (fun i => (i + 1 <= length recent)%nat) idx ->
  lastLoop (older ++ recent) idx t d = lastLoop recent idx t d.
Proof.
  revert t d; induction idx as [| i idx IH]; intros t d Hi;
    [reflexivity |].
  inversion Hi as [| ? ? Hi1 Hi2]; subst.
  cbn [lastLoop]; rewrite length_app.
  assert (A : forall j : nat, (j <= length recent)%nat ->
                at_ (older ++ recent) (length older + length recent - j)
                = at_ recent (length recent - j)).
  { intros j Hj; unfold at_.
    replace (length older + length recent - j)%nat
      with (length older + (length recent - j))%nat by lia.
    apply app_nth2_plus. }
  replace (length older + length recent - 1 - i)%nat
    with (length older + length recent - (1 + i))%nat by lia.
  replace (length recent - 1 - i)%nat
    with (length recent - (1 + i))%nat by lia.
  rewrite !A by lia.
  rewrite IH by exact Hi2; reflexivity.
Qed.

(** X18.  The estimator reads the last samples only: with 11 samples or
    more, the force and the angle are the same whatever samples come
    before them in the history. *)
Theorem estimator_reads_recent_samples (older recent : list Position) :
  (11 <= length recent)%nat ->
  calculateForceAndDirection (older ++ recent)
  = calculateForceAndDirection recent.
Proof.
  intros Hl.
  assert (Er : relevantPositions (older ++ recent)
               = relevantPositions recent).
  { unfold relevantPositions, LAST_POSITION_COUNT.
    rewrite skipn_app, length_app.
    rewrite skipn_all2 by lia.
    cbn [app]; f_equal; lia. }
  assert (Ez : isForceZero (older ++ recent) = isForceZero recent).
  { unfold isForceZero, LAST_POSITION_COUNT; rewrite length_app.
    replace (Nat.min 10 (length older + length recent - 1)) with 10%nat
      by lia.
    replace (Nat.min 10 (length recent - 1)) with 10%nat by lia.
    apply lastLoop_app.
    apply Forall_forall; intros i Hi; apply in_seq in Hi; lia. }
  unfold calculateForceAndDirection; now rewrite Er, Ez.
Qed.

End EstimatorMore.

Lemma force_range_witness :
  0 <= Swipe.fdForce (Swipe.calculateForceAndDirection Scenario.steadyThrow).
Proof.
  apply (proj2 (force_range Scenario.steadyThrow)).
  cbn; repeat split; lra.
Defined.

Lemma tap_has_no_force_witness :
  Swipe.calculateForceAndDirection
    [ {| Swipe.x := 0; Swipe.y := 0; Swipe.timeStamp := 0 |};
      {| Swipe.x := 500; Swipe.y := 300; Swipe.timeStamp := 5 |} ]
  = {| Swipe.fdForce := 0; Swipe.fdDirectionAngle := 0 |}.
Proof. apply tap_has_no_force; cbn; lia. Defined.

Lemma estimator_reads_recent_samples_witness :
  let recent := repeat {| Swipe.x := 1; Swipe.y := 2; Swipe.timeStamp := 3 |}
                       11 in
  Swipe.calculateForceAndDirection (Scenario.leftwardDrag ++ recent)
  = Swipe.calculateForceAndDirection recent.
Proof.
  intros recent.
  apply estimator_reads_recent_samples; cbn; lia.
Defined.

(** ** The motion record over a session *)

Section SwipeInvariants.

Import Swipe.
Import SwipeRun.

Variable C : Type.
Variable props : SwipeProps.
Variable onStart : SwiperMatrix -> C -> C.
Variable onMove : SwiperMatrix -> C -> C.
Variable onEnd : SwiperMatrix -> bool -> C -> C.

Lemma hd_error_app_keep {A : Type} (l : list A) (a b : A) :
  hd_error l = Some a -> hd_error (l ++ [b]) = Some a.
Proof. destruct l; [discriminate | exact (fun H => H)]. Qed.

Lemma handleMove_recordOk (e : PointerEvent) (s : State * C) :
  recordOk props (fst s) -> recordOk props (fst (handleMove props onMove e s)).
Proof.
  destruct s as [st c]; unfold handleMove; cbn [fst].
  destruct (negb (isSwiping st)); [exact (fun H => H) |].
  intros [Hh Hd]; split; cbn; [| reflexivity].
  apply hd_error_app_keep; exact Hh.
Qed.

Lemma handleEnd_recordOk (e : PointerEvent) (s : State * C) :
  recordOk props (fst s) -> recordOk props (fst (handleEnd props onEnd e s)).
Proof.
  destruct s as [st c]; unfold handleEnd; cbn [fst].
  intros [Hh Hd]; split; cbn; [| reflexivity].
  apply hd_error_app_keep; exact Hh.
Qed.

Lemma dispatch_recordOk (ev : Event) (s : State * C) :
  recordOk props (fst s) ->
  recordOk props (fst (dispatch props onStart onMove onEnd ev s)).
Proof.
  intros H; destruct ev as [e | e | e]; cbn [dispatch].
  - destruct (isEnabled props); [| exact H].
    destruct s as [st c]; destruct H as [_ Hd]; split; cbn;
      [reflexivity | exact Hd].
  - apply (iter_keeps (fun s => recordOk props (fst s))); [| exact H].
    intros s'; apply handleMove_recordOk.
  - pose proof (iter_keeps (fun s => recordOk props (fst s))
                  (handleEnd props onEnd e) (listeners (fst s)) s
                  (fun s' => handleEnd_recordOk e s') H) as K.
    destruct (Nat.iter _ _ _) as [st c]; exact K.
Qed.

Lemma dispatch_listeners (ev : Event) (s : State * C) :
  (isSwiping (fst s) = true <-> (0 < listeners (fst s))%nat) ->
  let s' := dispatch props onStart onMove onEnd ev s in
  isSwiping (fst s') = true <-> (0 < listeners (fst s'))%nat.
Proof.
  intros H; destruct ev as [e | e | e]; cbn [dispatch].
  - destruct (isEnabled props); [| exact H].
    destruct s as [st c]; cbn; split; [lia | reflexivity].
  - assert (K : forall n s0,
               isSwiping (fst (Nat.iter n (handleMove props onMove e) s0))
               = isSwiping (fst s0)
               /\ listeners (fst (Nat.iter n (handleMove props onMove e) s0))
                  = listeners (fst s0)).
    { induction n as [| n IH]; intros s0; [split; reflexivity |].
      rewrite Nat.iter_succ; destruct (IH s0) as [I1 I2].
      rewrite <- I1, <- I2.
      destruct (Nat.iter n _ s0) as [st c]; unfold handleMove.
      destruct (negb (isSwiping st)); split; reflexivity. }
    cbv zeta; destruct (K (listeners (fst s)) s) as [-> ->]; exact H.
  - cbv zeta.
    destruct (listeners (fst s)) as [| n] eqn:En.
    + cbn [Nat.iter nat_rect]; destruct s as [st c]; cbn in *.
      split; [intros Ht; apply H in Ht; lia | lia].
    + rewrite Nat.iter_succ.
      destruct (Nat.iter n _ s) as [st c]; cbn.
      split; [discriminate | lia].
Qed.

(** X19.  Over any session of start, move and end events from the first
    render, the motion record keeps its first position equal to its start
    (so the positions are never empty) and its direction equal to the
    direction of its distance along the configured axis; and a gesture is
    active exactly while move and end listeners are registered. *)
Theorem session_keeps_record (events : list Event) (c : C) :
  let st := fst (dispatchAll props onStart onMove onEnd events (init, c)) in
  hd_error (positions (swiperMatrix st)) = Some (startOf (swiperMatrix st))
  /\ direction (swiperMatrix st)
     = getDirection (directionType props)
                    (distanceX (swiperMatrix st))
                    (distanceY (swiperMatrix st))
  /\ (isSwiping st = true <-> (0 < listeners st)%nat).
Proof.
  unfold dispatchAll.
  assert (H : recordOk props (fst (init, c))
              /\ (isSwiping (fst (init, c)) = true
                  <-> (0 < listeners (fst (init, c)))%nat)).
  { split; [split |]; cbn.
    - reflexivity.
    - unfold getDirection; destruct (directionType props);
        unfold JS.eqb; destruct (Req_dec_T 0 0); try reflexivity;
        contradiction.
    - split; [discriminate | lia]. }
  revert H; generalize (init, c).
  induction events as [| ev events IH]; intros s [H1 H2]; cbn [fold_left].
  - destruct H1 as [Ha Hb]; repeat split; try assumption; apply H2.
  - apply IH; split.
    + apply dispatch_recordOk, H1.
    + apply dispatch_listeners, H2.
Qed.




End SwipeInvariants.

(** ** The viewer over a session *)

Section AppSession.

Import ZoomViewer.

Variable swipeProps : Swipe.SwipeProps.
Variable props : Props.
Variable layout : Layout.

Lemma dispatch_isPanning (ev : Swipe.Event) (s : App.State) :
  Gesture.isPanning (fst (snd s)) = Swipe.isSwiping (fst s) ->
  let s' := Swipe.dispatch swipeProps (App.onStart props layout)
                           (App.onMove props layout)
                           (App.onEnd props layout) ev s in
  Gesture.isPanning (fst (snd s')) = Swipe.isSwiping (fst s').
Proof.
  intros H; destruct ev as [e | e | e]; cbn [Swipe.dispatch]; cbv zeta.
  - destruct (Swipe.isEnabled swipeProps); [| exact H].
    destruct s as [st c]; reflexivity.
  - apply (iter_keeps
             (fun s : App.State =>
                Gesture.isPanning (fst (snd s)) = Swipe.isSwiping (fst s)));
      [| exact H].
    intros [st c] Hc; unfold Swipe.handleMove.
    destruct (negb (Swipe.isSwiping st)); [exact Hc |].
    cbn in *; exact Hc.
  - pose proof (iter_keeps
                  (fun s : App.State =>
                     Gesture.isPanning (fst (snd s))
                     = Swipe.isSwiping (fst s))
                  (Swipe.handleEnd swipeProps (App.onEnd props layout) e)
                  (Swipe.listeners (fst s)) s) as K.
    destruct (Nat.iter _ _ _) as [st c]; cbn [fst snd] in *.
    apply K; [| exact H].
    intros [st' c'] _; reflexivity.
Qed.

(** X21.  Over any run of the viewer from the first render, [isPanning]
    of [useGesture] is [isSwiping] of the swipe hook: it is true from a
    start to the next end and false otherwise. *)
Theorem isPanning_mirrors_isSwiping (tasks : list App.Task) :
  let s := App.runAll swipeProps props layout tasks App.init in
  Gesture.isPanning (fst (snd s)) = Swipe.isSwiping (fst s).
Proof.
  unfold App.runAll.
  assert (H : Gesture.isPanning (fst (snd App.init))
              = Swipe.isSwiping (fst App.init)) by reflexivity.
  revert H; generalize App.init.
  induction tasks as [| task tasks IH]; intros s H; cbn [fold_left].
  - exact H.
  - apply IH.
    destruct task as [ev | currentTime | time ev | time]; cbn [App.run];
      try exact H.
    apply dispatch_isPanning; exact H.
Qed.

(** The ref of the momentum frame stays empty. *)
Lemma setElementEndPosition_moveFrame (x y : R) (v : Viewer) :
  moveElementAfterPanEndFrame (setElementEndPosition props layout x y v)
  = moveElementAfterPanEndFrame v.
Proof.
  unfold setElementEndPosition.
  destruct (targetElement layout); [| reflexivity].
  unfold setTranslate; cbn [negb]; unfold animateTransform.
  now destruct (getPrevTransformedPosition (style v)).
Qed.

Lemma setScale_moveFrame (s : R) (position : option (R * R))
      (options : option R) (v : Viewer) :
  moveElementAfterPanEndFrame (setScale s position options v)
  = moveElementAfterPanEndFrame v.
Proof.
  unfold setScale, animateTransform.
  destruct position as [[nX nY] |];
    now destruct (getPrevTransformedPosition (style v)).
Qed.

Lemma onPanStart_moveFrame (m : Swipe.SwiperMatrix) (v : Viewer) :
  moveElementAfterPanEndFrame v = None ->
  moveElementAfterPanEndFrame (onPanStart props layout m v) = None.
Proof.
  intros H; unfold onPanStart.
  destruct (isDisabled props); [exact H |].
  rewrite H; destruct (targetElement layout); exact H.
Qed.

Lemma onPanning_moveFrame (m : Swipe.SwiperMatrix) (v : Viewer) :
  moveElementAfterPanEndFrame (onPanning props layout m v)
  = moveElementAfterPanEndFrame v.
Proof.
  unfold onPanning.
  destruct (isDisabled props), (targetElement layout); try reflexivity.
  now destruct (prevTargetPosition v).
Qed.

Lemma onPanEnd_moveFrame (m : Swipe.SwiperMatrix) (v : Viewer) :
  moveElementAfterPanEndFrame (onPanEnd props layout m v)
  = moveElementAfterPanEndFrame v.
Proof.
  unfold onPanEnd.
  destruct (isDisabled props), (targetElement layout) eqn:Et;
    try reflexivity.
  destruct (getPrevTransformedPosition (style v)) as [prevX prevY].
  destruct (_ || _).
  - apply setElementEndPosition_moveFrame.
  - unfold moveElementAfterPanEnd; now rewrite Et.
Qed.

Lemma runFrame_moveFrame (currentTime : R) (f : Frame) (v : Viewer) :
  moveElementAfterPanEndFrame v = None ->
  moveElementAfterPanEndFrame (runFrame props layout currentTime f v) = None.
Proof.
  intros H; destruct f as [i f d ps | ts pos du st pX pY ps];
    cbn [runFrame].
  - destruct (mrOnEnd _) as [[x y] |]; [reflexivity | exact H].
  - destruct (transformAnimate _ _ _ _ _ _ _ _ _) as [t again].
    destruct again; exact H.
Qed.

Lemma animationFrame_moveFrame (currentTime : R) (v : Viewer) :
  moveElementAfterPanEndFrame v = None ->
  moveElementAfterPanEndFrame (animationFrame props layout currentTime v)
  = None.
Proof.
  intros H; unfold animationFrame.
  assert (H0 : moveElementAfterPanEndFrame
                 (setFrames [] (setNow currentTime v)) = None) by exact H.
  revert H0; generalize (setFrames [] (setNow currentTime v)).
  induction (frames v) as [| f fs IH]; intros v0 H0; cbn [fold_left].
  - exact H0.
  - apply IH, runFrame_moveFrame, H0.
Qed.

Lemma zoomTargetElement_moveFrame (deltaZoomRatio : R) (v : Viewer) :
  moveElementAfterPanEndFrame (zoomTargetElement props layout
                                                 deltaZoomRatio v)
  = moveElementAfterPanEndFrame v.
Proof.
  unfold zoomTargetElement.
  destruct (viewerRef layout), (targetElement layout); try reflexivity.
  destruct (getPrevTransformedPosition (style v)) as [prevX prevY] eqn:E.
  destruct (_ || _); [reflexivity |].
  destruct (getTransformedPosition _ _ _) as [x y].
  apply setScale_moveFrame.
Qed.

Lemma initTargetElement_moveFrame (v : Viewer) :
  moveElementAfterPanEndFrame (initTargetElement props layout v)
  = moveElementAfterPanEndFrame v.
Proof.
  unfold initTargetElement.
  destruct (viewerRef layout) as [viewerRect |],
           (targetElement layout) as [own |]; try reflexivity.
  destruct (_ && _).
  - destruct (isDisabled props); [reflexivity |].
    now destruct (Nat.ltb _ _).
  - cbn [removeOpacity0 moveElementAfterPanEndFrame].
    destruct (centerOnInit props).
    + destruct (getTransformedPosition _ _ _) as [x y].
      cbn [onInit moveElementAfterPanEndFrame]; rewrite setScale_moveFrame.
      destruct (_ && _); [| reflexivity].
      cbn [onInit moveElementAfterPanEndFrame]; apply setScale_moveFrame.
    + destruct (_ && _); [| reflexivity].
      cbn [onInit moveElementAfterPanEndFrame]; apply setScale_moveFrame.
Qed.

Lemma run_moveFrame (task : App.Task) (s : App.State) :
  moveElementAfterPanEndFrame (App.viewerOf s) = None ->
  moveElementAfterPanEndFrame
    (App.viewerOf (App.run swipeProps props layout task s)) = None.
Proof.
  intros H; destruct task as [ev | currentTime | time ev | time];
    cbn [App.run].
  - unfold App.viewerOf.
    apply (dispatch_keeps _
             (fun c => moveElementAfterPanEndFrame (snd c) = None)).
    + intros m [g v] Hc; cbn in *; now apply onPanStart_moveFrame.
    + intros m [g v] Hc; cbn in *; now rewrite onPanning_moveFrame.
    + intros m b [g v] Hc; cbn in *; now rewrite onPanEnd_moveFrame.
    + exact H.
  - unfold App.viewerOf, App.withViewer; cbn [snd].
    apply animationFrame_moveFrame, H.
  - unfold App.viewerOf, App.withViewer, onChangeZoomRatio; cbn [snd].
    rewrite zoomTargetElement_moveFrame; exact H.
  - unfold App.viewerOf, App.withViewer; cbn [snd].
    rewrite initTargetElement_moveFrame; exact H.
Qed.

(** X22.  Over any run of the viewer from the first render, the ref that
    should hold the pending momentum frame is empty (the code only ever
    assigns it null), so a press cancels nothing: the callbacks waiting
    for the next display refresh are the same after [onPanStart]. *)
Theorem press_cancels_no_frame
        (tasks : list App.Task) (m : Swipe.SwiperMatrix) :
  let v := App.viewerOf
             (App.runAll swipeProps props layout tasks App.init) in
  moveElementAfterPanEndFrame v = None
  /\ frames (onPanStart props layout m v) = frames v.
Proof.
  intros v.
  assert (Hv : moveElementAfterPanEndFrame v = None).
  { subst v; unfold App.runAll.
    assert (H : moveElementAfterPanEndFrame (App.viewerOf App.init) = None)
      by reflexivity.
    revert H; generalize App.init.
    induction tasks as [| task tasks IH]; intros s H; cbn [fold_left].
    - exact H.
    - apply IH, run_moveFrame, H. }
  split; [exact Hv |].
  unfold onPanStart.
  destruct (isDisabled props); [reflexivity |].
  rewrite Hv; destruct (targetElement layout); reflexivity.
Qed.

End AppSession.

(** ** A drag *)

Section PanFacts.

Import ZoomViewer.

Variable swipeProps : Swipe.SwipeProps.
Variable props : Props.
Variable layout : Layout.

Hypothesis enabled : Swipe.isEnabled swipeProps = true.
Hypothesis notDisabled : isDisabled props = false.
Hypothesis attached : targetElement layout <> None.

Lemma press_panning (e0 : Swipe.PointerEvent) (s : App.State) :
  let s' := App.run swipeProps props layout
                    (App.Pointer (Swipe.Start e0)) s in
  Pan.panning e0 (getPrevTransformedPosition (style (App.viewerOf s))) s'
  /\ style (App.viewerOf s') = style (App.viewerOf s).
Proof.
  cbn [App.run Swipe.dispatch]; rewrite enabled.
  destruct s as [st [g v]]; unfold App.withViewer, App.viewerOf.
  cbn [fst snd Swipe.handleStart]; unfold Pan.panning, App.viewerOf.
  cbn [fst snd Swipe.isSwiping Swipe.swiperMatrix Swipe.startX Swipe.startY
       Swipe.listeners].
  unfold App.onStart, Gesture.onStart; cbn [fst snd].
  unfold onPanStart; rewrite notDisabled.
  destruct (targetElement layout) as [own |]; [| congruence].
  destruct (moveElementAfterPanEndFrame (setNow _ v)); cbn;
    repeat split; lia.
Qed.

Lemma handleMove_panning (e0 e : Swipe.PointerEvent) (p0 : R * R)
      (sc : option R) (s : App.State) :
  Pan.panning e0 p0 s /\ scale (style (App.viewerOf s)) = sc ->
  let s' := Swipe.handleMove swipeProps (App.onMove props layout) e s in
  (Pan.panning e0 p0 s' /\ scale (style (App.viewerOf s')) = sc)
  /\ Pan.pannedTo e0 e p0 (style (App.viewerOf s')).
Proof.
  intros [(Hs & Hl & Hx & Hy & Hp) Hsc]; destruct s as [st [g v]].
  unfold Pan.panning, Pan.pannedTo, App.viewerOf in *; cbn [fst snd] in *.
  unfold Swipe.handleMove; rewrite Hs; cbn [negb fst snd].
  unfold App.onMove, Gesture.onMove, onPanning; cbn [fst snd].
  rewrite notDisabled.
  destruct (targetElement layout) as [own |]; [| congruence].
  rewrite Hp; destruct p0 as [pX pY].
  cbn; rewrite Hx, Hy; repeat split; assumption.
Qed.

Lemma move_panning (e0 e : Swipe.PointerEvent) (p0 : R * R)
      (sc : option R) (s : App.State) :
  Pan.panning e0 p0 s /\ scale (style (App.viewerOf s)) = sc ->
  let s' := App.run swipeProps props layout
                    (App.Pointer (Swipe.Move e)) s in
  (Pan.panning e0 p0 s' /\ scale (style (App.viewerOf s')) = sc)
  /\ Pan.pannedTo e0 e p0 (style (App.viewerOf s')).
Proof.
  intros H; cbn [App.run Swipe.dispatch].
  set (s0 := App.withViewer (setNow (App.timeOf (Swipe.Move e))) s).
  assert (H0 : Pan.panning e0 p0 s0 /\ scale (style (App.viewerOf s0)) = sc).
  { destruct s as [st [g v]]; exact H. }
  clearbody s0; clear H.
  destruct H0 as [Hp Hsc]; pose proof Hp as (_ & Hl & _).
  destruct (Swipe.listeners (fst s0)) as [| n]; [lia |].
  rewrite Nat.iter_succ; apply handleMove_panning.
  apply (iter_keeps
           (fun s => Pan.panning e0 p0 s
                     /\ scale (style (App.viewerOf s)) = sc)).
  - intros s1 H1; apply handleMove_panning, H1.
  - split; assumption.
Qed.

(** X23.  While the viewer is enabled and its target attached, a drag
    moves the element with the pointer: after a press at [e0] and any
    moves of which [e] is the last, the translation is the one the
    element had at the press plus the way of the pointer from [e0] to
    [e], truncated, whatever the moves in between and whatever bounds
    are set; the scale is untouched. *)
Theorem drag_follows_pointer
        (e0 e : Swipe.PointerEvent) (es : list Swipe.PointerEvent)
        (s : App.State) :
  let start := style (App.viewerOf s) in
  let t := style (App.viewerOf
                    (App.runAll swipeProps props layout
                                (Pan.drag e0 (es ++ [e])) s)) in
  Pan.pannedTo e0 e (getPrevTransformedPosition start) t
  /\ scale t = scale start.
Proof.
  cbv zeta; unfold Pan.drag, App.runAll; cbn [fold_left].
  destruct (press_panning e0 s) as [Hp Hst].
  rewrite <- Hst at 2; clear Hst.
  set (p0 := getPrevTransformedPosition (style (App.viewerOf s))) in *.
  assert (H : Pan.panning e0 p0
                (App.run swipeProps props layout
                         (App.Pointer (Swipe.Start e0)) s)
              /\ scale (style (App.viewerOf
                   (App.run swipeProps props layout
                            (App.Pointer (Swipe.Start e0)) s)))
                 = scale (style (App.viewerOf
                   (App.run swipeProps props layout
                            (App.Pointer (Swipe.Start e0)) s))))
    by (split; [exact Hp | reflexivity]).
  revert H.
  generalize (scale (style (App.viewerOf
                   (App.run swipeProps props layout
                            (App.Pointer (Swipe.Start e0)) s)))) at 2 3.
  generalize (App.run swipeProps props layout
                      (App.Pointer (Swipe.Start e0)) s).
  clear Hp; induction es as [| e1 es IH]; intros s1 sc H.
  - cbn [app map fold_left].
    destruct (move_panning e0 e p0 sc s1 H) as [[_ Hsc] Hto].
    split; assumption.
  - cbn [app map fold_left]; apply IH.
    apply (move_panning e0 e1 p0 sc s1 H).
Qed.

End PanFacts.

(** ** Initialisation of the target *)

Section InitMore.

Import ZoomViewer.

Variable swipeProps : Swipe.SwipeProps.
Variable props : Props.
Variable layout : Layout.

Ltac prune_cmp :=
  repeat match goal with
    | |- context [Rlt_dec ?a ?b] =>
        destruct (Rlt_dec a b); try (exfalso; lra)
    | |- context [Rle_dec ?a ?b] =>
        destruct (Rle_dec a b); try (exfalso; lra)
    | |- context [Req_dec_T ?a ?b] =>
        destruct (Req_dec_T a b); try (exfalso; lra)
    end.

(** One call on content that has no size yet. *)
Lemma initTargetElement_unmeasured (viewerRect own : Rect) (v : Viewer) :
  viewerRef layout = Some viewerRect ->
  targetElement layout = Some own ->
  width own = 0 -> height own = 0 ->
  isDisabled props = false ->
  let v' := initTargetElement props layout v in
  findTargetElementRetryCount v' = S (findTargetElementRetryCount v)
  /\ (retryTimers v' + Nat.min (findTargetElementRetryCount v) 30
      = retryTimers v + Nat.min (findTargetElementRetryCount v') 30)%nat
  /\ style v' = style v /\ opacity0 v' = opacity0 v
  /\ frames v' = frames v /\ onInitCalls v' = onInitCalls v.
Proof.
  intros Hv Ht Hw Hh Hd; unfold initTargetElement.
  rewrite Hv, Ht, Hd; unfold targetRect; cbn [width height].
  rewrite Hw, Hh, !Rmult_0_l; unfold_cmp.
  destruct (Req_dec_T 0 0) as [_ | N]; [| exfalso; lra].
  cbn [andb setRetryCount findTargetElementRetryCount].
  unfold FIND_TARGET_ELEMENT_RETRY_MAX_COUNT.
  destruct (Nat.ltb_spec 30 (S (findTargetElementRetryCount v)));
    cbn; repeat split; lia.
Qed.

(** X24.  While the content has no size (both sides 0) and the viewer is
    enabled, calls of [initTargetElement], whoever makes them, change
    nothing on the element and only count: after the calls the counter
    has grown by their number, and the retry timers set are those the
    budget of 30 left, so at most 30 over the life of the component (the
    counter is never reset). *)
Theorem init_retries_bounded
        (viewerRect own : Rect) (times : list R) (s : App.State) :
  viewerRef layout = Some viewerRect ->
  targetElement layout = Some own ->
  width own = 0 -> height own = 0 ->
  isDisabled props = false ->
  let v := App.viewerOf s in
  let v' := App.viewerOf
              (App.runAll swipeProps props layout
                          (map App.InitTarget times) s) in
  findTargetElementRetryCount v'
  = (findTargetElementRetryCount v + length times)%nat
  /\ (retryTimers v' + Nat.min (findTargetElementRetryCount v) 30
      = retryTimers v
        + Nat.min (findTargetElementRetryCount v + length times) 30)%nat
  /\ style v' = style v /\ opacity0 v' = opacity0 v
  /\ frames v' = frames v /\ onInitCalls v' = onInitCalls v.
Proof.
  intros Hv Ht Hw Hh Hd; cbv zeta; unfold App.runAll.
  revert s; induction times as [| t times IH]; intros s.
  - cbn [map fold_left length]; rewrite Nat.add_0_r.
    repeat split; reflexivity.
  - cbn [map fold_left length].
    destruct (IH (App.run swipeProps props layout (App.InitTarget t) s))
      as (C & T & S1 & O & F & I).
    destruct s as [st [g v]]; unfold App.viewerOf in *.
    cbn [App.run App.withViewer fst snd] in *.
    destruct (initTargetElement_unmeasured viewerRect own (setNow t v)
                Hv Ht Hw Hh Hd) as (C' & T' & S' & O' & F' & I').
    cbn [setNow findTargetElementRetryCount retryTimers style opacity0
         frames onInitCalls] in C', T', S', O', F', I'.
    rewrite C' in *.
    repeat split; try congruence; lia.
Qed.

(** The scale chosen under [fitOnInit] makes the content fit, and touch
    the viewer along one axis. *)
Lemma fitInitScale_fits (viewerRect targetRect : Rect) :
  0 < width viewerRect -> 0 < height viewerRect ->
  0 < width targetRect -> 0 < height targetRect ->
  let k := fitInitScale viewerRect targetRect in
  0 < k
  /\ width targetRect * k <= width viewerRect
  /\ height targetRect * k <= height viewerRect
  /\ (width targetRect * k = width viewerRect
      \/ height targetRect * k = height viewerRect).
Proof.
  destruct viewerRect as [vw vh], targetRect as [tw th].
  cbn [width height]; intros Hvw Hvh Htw Hth.
  pose proof (ratio_gt_cross tw th vw vh Hth Hvh) as Hc.
  unfold fitInitScale; cbn [width height]; unfold_cmp.
  destruct (Rlt_dec (vw / vh) (tw / th)) as [L | L].
  - apply Hc in L.
    assert (E : tw * (vw / tw) = vw) by (field; lra).
    repeat split.
    + apply Rdiv_lt_0_compat; assumption.
    + lra.
    + apply (Rmult_le_reg_r tw); [exact Htw |].
      replace (th * (vw / tw) * tw) with (th * vw) by (field; lra).
      lra.
    + left; exact E.
  - assert (L' : tw * vh <= vw * th).
    { destruct (Rle_dec (tw * vh) (vw * th)) as [K | K]; [exact K |].
      exfalso; apply L, Hc; lra. }
    assert (E : th * (vh / th) = vh) by (field; lra).
    repeat split.
    + apply Rdiv_lt_0_compat; assumption.
    + apply (Rmult_le_reg_r th); [exact Hth |].
      replace (tw * (vh / th) * th) with (tw * vh) by (field; lra).
      lra.
    + lra.
    + right; exact E.
Qed.

(** X25.  For rectangles with positive sides, the scale chosen under
    [fitOnInit] is the largest scale at which the content fits in the
    viewer on both axes: the content scaled by it fits, and no scale at
    which it fits is greater. *)
Theorem fitInitScale_largest_fit (viewerRect targetRect : Rect) (k' : R) :
  0 < width viewerRect -> 0 < height viewerRect ->
  0 < width targetRect -> 0 < height targetRect ->
  let k := fitInitScale viewerRect targetRect in
  (width targetRect * k <= width viewerRect
   /\ height targetRect * k <= height viewerRect)
  /\ (width targetRect * k' <= width viewerRect ->
      height targetRect * k' <= height viewerRect ->
      k' <= k).
Proof.
  intros Hvw Hvh Htw Hth k.
  destruct (fitInitScale_fits viewerRect targetRect Hvw Hvh Htw Hth)
    as (Hk & HW & HH & Hone).
  fold k in Hk, HW, HH, Hone.
  split; [split; assumption |].
  intros HW' HH'; destruct Hone as [E | E].
  - apply (Rmult_le_reg_l (width targetRect)); [exact Htw | lra].
  - apply (Rmult_le_reg_l (height targetRect)); [exact Hth | lra].
Qed.

(** The call on measured content with [centerOnInit], and the display
    refresh after it. *)
Lemma init_then_frame (viewerRect own : Rect) (v : Viewer)
      (currentTime : R) :
  viewerRef layout = Some viewerRect ->
  targetElement layout = Some own ->
  centerOnInit props = true ->
  frames v = [] ->
  let tRect := targetRect own (style v) in
  (width tRect =? 0) && (height tRect =? 0) = false ->
  let k := if fitOnInit props then fitInitScale viewerRect tRect else 1 in
  let prevX := if width tRect >=? width viewerRect then 0
               else width viewerRect / 2 - width tRect / 2 in
  let prevY := if height tRect >=? height viewerRect then 0
               else height viewerRect / 2 - height tRect / 2 in
  let np :=
    getNextPosition (isInBounds props) (Some (viewerRect, tRect))
      (fst (getTransformedPosition (prevX, prevY) k viewerRect))
      (snd (getTransformedPosition (prevX, prevY) k viewerRect)) 0 k in
  let v' := animationFrame props layout currentTime
              (initTargetElement props layout v) in
  style v'
  = {| translate3d := Some (JS.trunc (nextX np), JS.trunc (nextY np));
       scale := Some (JS.toFixed2
                        (Rmax (getPrevTransformedScale (style v) * k)
                              MIN_ZOOM_RATIO)) |}
  /\ frames v' = [] /\ opacity0 v' = false
  /\ onInitCalls v'
     = onInitCalls v ++ [getPrevTransformedScale (style v) * k].
Proof.
  intros Hv Ht Hc Hf tRect Hm k prevX prevY np.
  unfold initTargetElement; rewrite Hv, Ht; fold tRect; rewrite Hm, Hc.
  rewrite andb_false_r.
  fold k prevX prevY.
  unfold rects; rewrite Hv, Ht; fold tRect.
  destruct (getTransformedPosition (prevX, prevY) k viewerRect)
    as [x y] eqn:E; cbn [fst snd] in np.
  fold np.
  unfold setScale, animateTransform.
  destruct (getPrevTransformedPosition (style v)) as [pX pY] eqn:Ep.
  unfold animationFrame.
  cbn [removeOpacity0 onInit requestAnimationFrame frames]; rewrite Hf.
  cbn [app fold_left snd runFrame].
  unfold transformAnimate; unfold_cmp.
  destruct (Req_dec_T 0 0) as [_ | N]; [| exfalso; lra].
  destruct (Rlt_dec 1 1) as [L | _]; [exfalso; lra |].
  cbn [fst snd setStyle setFrames setNow style frames opacity0 onInitCalls
       translate3d scale].
  replace (pX + (nextX np - pX) * 1) with (nextX np) by lra.
  replace (pY + (nextY np - pY) * 1) with (nextY np) by lra.
  replace (getPrevTransformedScale (style v)
           + (getPrevTransformedScale (style v) * k
              - getPrevTransformedScale (style v)) * 1)
    with (getPrevTransformedScale (style v) * k) by lra.
  repeat split.
Qed.

(** X26.  With [centerOnInit], content that is measured and smaller than
    the viewer on both axes is centred by the first display refresh after
    [initTargetElement]: the translation written is the truncation of the
    position at which the content, scaled by the factor [k] of the
    initialisation (the fit scale under [fitOnInit], 1 otherwise), has
    its centre at the centre of the viewer; the scale written is the
    previous scale times [k], and the element is made visible.  This
    holds with and without bounds. *)
Theorem init_centres_smaller_content
        (viewerRect own : Rect) (v : Viewer) (currentTime : R) :
  viewerRef layout = Some viewerRect ->
  targetElement layout = Some own ->
  centerOnInit props = true ->
  frames v = [] ->
  let tRect := targetRect own (style v) in
  0 < width tRect < width viewerRect ->
  0 < height tRect < height viewerRect ->
  let k := if fitOnInit props then fitInitScale viewerRect tRect else 1 in
  let v' := animationFrame props layout currentTime
              (initTargetElement props layout v) in
  style v'
  = {| translate3d :=
         Some (JS.trunc (width viewerRect / 2 - width tRect * k / 2),
               JS.trunc (height viewerRect / 2 - height tRect * k / 2));
       scale := Some (JS.toFixed2
                        (Rmax (getPrevTransformedScale (style v) * k)
                              MIN_ZOOM_RATIO)) |}
  /\ frames v' = [] /\ opacity0 v' = false.
Proof.
  intros Hv Ht Hc Hf tRect HW HH k v'.
  assert (Hm : (width tRect =? 0) && (height tRect =? 0) = false).
  { unfold_cmp; destruct (Req_dec_T (width tRect) 0); [exfalso; lra |].
    reflexivity. }
  destruct (init_then_frame viewerRect own v currentTime Hv Ht Hc Hf Hm)
    as (S1 & F & O & _).
  fold tRect k v' in S1, F, O.
  split; [| split; assumption].
  rewrite S1; clear S1 F O.
  assert (Hk : 0 < k /\ width tRect * k <= width viewerRect
               /\ height tRect * k <= height viewerRect).
  { subst k; destruct (fitOnInit props).
    - destruct (fitInitScale_fits viewerRect tRect) as (A & B & C & _);
        [lra | lra | lra | lra |].
      repeat split; assumption.
    - lra. }
  destruct Hk as (Hk & HkW & HkH).
  clear v' Hm; clearbody k; clearbody tRect.
  destruct tRect as [tw th], viewerRect as [vw vh]; cbn [width height] in *.
  unfold_cmp.
  destruct (Rle_dec vw tw) as [L | _]; [exfalso; lra |].
  destruct (Rle_dec vh th) as [L | _]; [exfalso; lra |].
  unfold getTransformedPosition; cbn [fst snd width height].
  replace (vw / 2 + (vw / 2 - tw / 2 - vw / 2) * k)
    with (vw / 2 - tw * k / 2) by lra.
  replace (vh / 2 + (vh / 2 - th / 2 - vh / 2) * k)
    with (vh / 2 - th * k / 2) by lra.
  destruct (isInBounds props).
  - rewrite getNextPosition_of_within; [reflexivity | |];
      unfold Bounds.within; cbn [width height]; split; intros; lra.
  - reflexivity.
Qed.

(** X27.  With [fitOnInit] and [centerOnInit], content that is taller
    than the viewer and relatively wider than it is not centred by the
    initialisation: after the first display refresh its centre is
    strictly below the centre of the viewer, with and without bounds.
    The vertical position comes from the top edge 0 of the unscaled
    content, scaled about the centre of the viewer. *)
Theorem init_large_content_below_centre
        (viewerRect own : Rect) (v : Viewer) (currentTime : R) :
  viewerRef layout = Some viewerRect ->
  targetElement layout = Some own ->
  fitOnInit props = true ->
  centerOnInit props = true ->
  frames v = [] ->
  let tRect := targetRect own (style v) in
  0 < width viewerRect ->
  0 < height viewerRect < height tRect ->
  width tRect * height viewerRect > width viewerRect * height tRect ->
  let k := fitInitScale viewerRect tRect in
  let v' := animationFrame props layout currentTime
              (initTargetElement props layout v) in
  exists (tx : Z) (Y : R),
    translate3d (style v') = Some (tx, JS.trunc Y)
    /\ (Y = height viewerRect / 2 * (1 - k)
        \/ Y = height viewerRect - height tRect * k)
    /\ height viewerRect / 2 < Y + height tRect * k / 2.
Proof.
  intros Hv Ht Hfit Hc Hf tRect Hvw HH Hwide k v'.
  assert (Htw : width viewerRect < width tRect) by nra.
  assert (Hm : (width tRect =? 0) && (height tRect =? 0) = false).
  { unfold_cmp; destruct (Req_dec_T (width tRect) 0); [exfalso; lra |].
    reflexivity. }
  destruct (init_then_frame viewerRect own v currentTime Hv Ht Hc Hf Hm)
    as (S1 & _).
  rewrite Hfit in S1; fold tRect k v' in S1.
  rewrite S1; clear S1; cbn [translate3d].
  assert (Hk : 0 < k /\ width tRect * k = width viewerRect
               /\ height tRect * k < height viewerRect).
  { subst k; unfold fitInitScale; unfold_cmp.
    pose proof (ratio_gt_cross (width tRect) (height tRect)
                  (width viewerRect) (height viewerRect)) as Hx.
    destruct (Rlt_dec _ _) as [L | L];
      [| exfalso; apply L, Hx; lra].
    repeat split.
    - apply Rdiv_lt_0_compat; lra.
    - field; lra.
    - apply (Rmult_lt_reg_r (width tRect)); [lra |].
      replace (height tRect * (width viewerRect / width tRect)
               * width tRect)
        with (height tRect * width viewerRect) by (field; lra).
      lra. }
  destruct Hk as (Hk & HkW & HkH).
  assert (Hk1 : k < 1) by nra.
  clear v' Hm; clearbody k; clearbody tRect.
  destruct tRect as [tw th], viewerRect as [vw vh]; cbn [width height] in *.
  unfold_cmp.
  destruct (Rle_dec vw tw) as [_ | L]; [| exfalso; lra].
  destruct (Rle_dec vh th) as [_ | L]; [| exfalso; lra].
  unfold getTransformedPosition; cbn [fst snd width height].
  set (W := tw * k) in *; set (H := th * k) in *.
  assert (HH' : vh * k < H) by (subst H; nra).
  destruct (isInBounds props).
  - cbn [getNextPosition width height]; fold W H; unfold_cmp.
    prune_cmp; cbn [negb andb nextX nextY]; prune_cmp;
      cbn [negb andb nextX nextY];
      eexists; eexists; (split; [reflexivity |]); split;
        first [ left; lra | right; lra | lra ].
  - cbn [getNextPosition nextX nextY].
    eexists; eexists; split; [reflexivity |]; split; [left; lra | lra].
Qed.

End InitMore.

(** ** A disabled viewer, and zooming out at the floor *)

Section DisabledFacts.

Import ZoomViewer.

Variable swipeProps : Swipe.SwipeProps.
Variable props : Props.
Variable layout : Layout.

(** X28.  A disabled viewer does not react to gestures: over any pointer
    events, from any state, the transform of the element, the pending
    animation frames and the position remembered at the last press are
    what they were. *)
Theorem disabled_ignores_gestures
        (evs : list Swipe.Event) (s : App.State) :
  isDisabled props = true ->
  let v := App.viewerOf s in
  let v' := App.viewerOf
              (App.runAll swipeProps props layout
                          (map App.Pointer evs) s) in
  style v' = style v /\ frames v' = frames v
  /\ prevTargetPosition v' = prevTargetPosition v.
Proof.
  intros Hd; cbv zeta; unfold App.runAll.
  revert s; induction evs as [| ev evs IH]; intros s.
  - repeat split.
  - cbn [map fold_left].
    destruct (IH (App.run swipeProps props layout (App.Pointer ev) s))
      as (S1 & F1 & P1).
    rewrite S1, F1, P1; clear IH S1 F1 P1.
    cbn [App.run]; unfold App.viewerOf.
    apply (dispatch_keeps _
             (fun c => style (snd c) = style (snd (snd s))
                       /\ frames (snd c) = frames (snd (snd s))
                       /\ prevTargetPosition (snd c)
                          = prevTargetPosition (snd (snd s)))).
    + intros m [g v] Hc; cbn [Gesture.onStart App.onStart snd] in *.
      unfold App.onStart, Gesture.onStart, onPanStart; cbn [snd].
      rewrite Hd; exact Hc.
    + intros m [g v] Hc.
      unfold App.onMove, Gesture.onMove, onPanning; cbn [snd] in *.
      rewrite Hd; exact Hc.
    + intros m b [g v] Hc.
      unfold App.onEnd, Gesture.onEnd, onPanEnd; cbn [snd] in *.
      rewrite Hd; exact Hc.
    + destruct s as [st [g v]]; repeat split.
Qed.

End DisabledFacts.

Section FloorFacts.

Import ZoomController.

Variable props : ZoomViewer.Props.
Variable layout : ZoomViewer.Layout.



End FloorFacts.

(** ** The further properties at concrete inputs *)

Lemma getNextPosition_larger_axis_witness :
  let viewerRect := {| ZoomViewer.width := 100; ZoomViewer.height := 100 |} in
  let targetRect := {| ZoomViewer.width := 200; ZoomViewer.height := 200 |} in
  let r := ZoomViewer.getNextPosition true (Some (viewerRect, targetRect))
                                      50 (-150) 30 1 in
  (ZoomViewer.nextX r <= 30 /\ 100 - 30 <= ZoomViewer.nextX r + 200 * 1)
  /\ (ZoomViewer.nextY r <= 30 /\ 100 - 30 <= ZoomViewer.nextY r + 200 * 1).
Proof.
  intros viewerRect targetRect r.
  assert (Ho : 0 <= 30) by lra.
  destruct (getNextPosition_larger_axis viewerRect targetRect 50 (-150) 30 1
              Ho) as [HX HY].
  cbn [ZoomViewer.width ZoomViewer.height viewerRect targetRect] in HX, HY.
  fold r in HX, HY.
  assert (H1 : 100 <= 200 * 1) by lra.
  destruct (HX H1) as (A & B & _), (HY H1) as (D & E & _).
  repeat split; assumption.
Defined.

Lemma isOverBounds_iff_corrected_witness :
  let viewerRect := {| ZoomViewer.width := 100; ZoomViewer.height := 100 |} in
  let targetRect := {| ZoomViewer.width := 200; ZoomViewer.height := 200 |} in
  let r := ZoomViewer.getNextPosition true (Some (viewerRect, targetRect))
                                      50 (-150) 30 1 in
  ZoomViewer.isOverBounds r = Some true
  <-> ZoomViewer.nextX r <> 50 \/ ZoomViewer.nextY r <> -150.
Proof.
  intros viewerRect targetRect r.
  assert (Ho : 0 <= 30) by lra.
  exact (proj1 (isOverBounds_iff_corrected viewerRect targetRect
                  50 (-150) 30 1 Ho)).
Defined.

Lemma getNextPosition_idempotent_witness :
  let viewerRect := {| ZoomViewer.width := 100; ZoomViewer.height := 100 |} in
  let targetRect := {| ZoomViewer.width := 200; ZoomViewer.height := 200 |} in
  let r := ZoomViewer.getNextPosition true (Some (viewerRect, targetRect))
                                      50 (-150) 30 1 in
  ZoomViewer.getNextPosition true (Some (viewerRect, targetRect))
                             (ZoomViewer.nextX r) (ZoomViewer.nextY r) 30 1
  = {| ZoomViewer.nextX := ZoomViewer.nextX r;
       ZoomViewer.nextY := ZoomViewer.nextY r;
       ZoomViewer.isOverBounds := Some false |}.
Proof.
  intros viewerRect targetRect r.
  assert (Ho : 0 <= 30) by lra.
  exact (getNextPosition_idempotent viewerRect targetRect 50 (-150) 30 1 Ho).
Defined.

Lemma transformAnimate_requests_until_done_witness :
  let t := {| ZoomViewer.translate3d := Some (10, 0)%Z;
              ZoomViewer.scale := None |} in
  snd (ZoomViewer.transformAnimate None (Some (25.5, -8)) 150 0 10 0 1 75 t)
  = true.
Proof.
  intros t.
  assert (Hd : 0 <= 150) by lra.
  apply (proj2 (transformAnimate_requests_until_done
                  None (Some (25.5, -8)) 150 0 10 0 1 75 t Hd)).
  split; lra.
Defined.


Lemma drag_follows_pointer_witness :
  let t := ZoomViewer.style
             (App.viewerOf
                (Scenario.runAll
                   (Pan.drag Scenario.press [Scenario.drag; Scenario.release])
                   App.init)) in
  Pan.pannedTo Scenario.press Scenario.release (0, 0) t
  /\ ZoomViewer.scale t = None.
Proof.
  intros t.
  assert (Ha : ZoomViewer.targetElement Scenario.layout <> None)
    by discriminate.
  exact (drag_follows_pointer
           Swipe.defaultProps ZoomViewer.defaultProps Scenario.layout
           eq_refl eq_refl Ha
           Scenario.press Scenario.release [Scenario.drag] App.init).
Defined.

Lemma init_retries_bounded_witness :
  let layout :=
    {| ZoomViewer.viewerRef :=
         Some {| ZoomViewer.width := 1000; ZoomViewer.height := 1000 |};
       ZoomViewer.targetElement :=
         Some {| ZoomViewer.width := 0; ZoomViewer.height := 0 |};
       ZoomViewer.viewerOffset :=
         {| ZoomViewer.width := 1000; ZoomViewer.height := 1000 |} |} in
  let v' := App.viewerOf
              (App.runAll Swipe.defaultProps ZoomViewer.defaultProps layout
                          (map App.InitTarget (repeat 0 40)) App.init) in
  ZoomViewer.findTargetElementRetryCount v' = 40%nat
  /\ ZoomViewer.retryTimers v' = 30%nat.
Proof.
  intros layout v'.
  destruct (init_retries_bounded
              Swipe.defaultProps ZoomViewer.defaultProps layout
              {| ZoomViewer.width := 1000; ZoomViewer.height := 1000 |}
              {| ZoomViewer.width := 0; ZoomViewer.height := 0 |}
              (repeat 0 40) App.init
              eq_refl eq_refl eq_refl eq_refl eq_refl) as (A & B & _).
  fold v' in A, B; clearbody v'.
  assert (E : (ZoomViewer.findTargetElementRetryCount (App.viewerOf App.init)
               + length (repeat 0%R 40) = 40)%nat) by reflexivity.
  assert (E0 : Nat.min (ZoomViewer.findTargetElementRetryCount
                          (App.viewerOf App.init)) 30 = 0%nat)
    by reflexivity.
  assert (E1 : ZoomViewer.retryTimers (App.viewerOf App.init) = 0%nat)
    by reflexivity.
  rewrite E in A, B; rewrite E0, E1 in B.
  split; [exact A | cbn in B; lia].
Defined.

Lemma fitInitScale_largest_fit_witness :
  let viewerRect := {| ZoomViewer.width := 1000; ZoomViewer.height := 1000 |} in
  let targetRect := {| ZoomViewer.width := 200; ZoomViewer.height := 100 |} in
  200 * ZoomViewer.fitInitScale viewerRect targetRect <= 1000
  /\ 100 * ZoomViewer.fitInitScale viewerRect targetRect <= 1000.
Proof.
  intros viewerRect targetRect.
  apply (fitInitScale_largest_fit viewerRect targetRect 1); cbn; lra.
Defined.

Lemma init_centres_smaller_content_witness :
  let v' := ZoomViewer.animationFrame
              ZoomViewer.defaultProps Scenario.layout 0
              (ZoomViewer.initTargetElement
                 ZoomViewer.defaultProps Scenario.layout
                 ZoomViewer.initialViewer) in
  ZoomViewer.frames v' = [] /\ ZoomViewer.opacity0 v' = false.
Proof.
  intros v'.
  apply (init_centres_smaller_content
           ZoomViewer.defaultProps Scenario.layout
           {| ZoomViewer.width := 1000; ZoomViewer.height := 1000 |}
           {| ZoomViewer.width := 100; ZoomViewer.height := 100 |}
           ZoomViewer.initialViewer 0);
    try reflexivity; cbn; lra.
Defined.

Lemma init_large_content_below_centre_witness :
  let viewerRect := {| ZoomViewer.width := 1000; ZoomViewer.height := 1000 |} in
  let own := {| ZoomViewer.width := 2000; ZoomViewer.height := 1500 |} in
  let layout :=
    {| ZoomViewer.viewerRef := Some viewerRect;
       ZoomViewer.targetElement := Some own;
       ZoomViewer.viewerOffset := viewerRect |} in
  let tRect := ZoomViewer.targetRect own
                 (ZoomViewer.style ZoomViewer.initialViewer) in
  let k := ZoomViewer.fitInitScale viewerRect tRect in
  let v' := ZoomViewer.animationFrame ZoomViewer.defaultProps layout 0
              (ZoomViewer.initTargetElement ZoomViewer.defaultProps layout
                 ZoomViewer.initialViewer) in
  exists (tx : Z) (Y : R),
    ZoomViewer.translate3d (ZoomViewer.style v') = Some (tx, JS.trunc Y)
    /\ (Y = ZoomViewer.height viewerRect / 2 * (1 - k)
        \/ Y = ZoomViewer.height viewerRect - ZoomViewer.height tRect * k)
    /\ ZoomViewer.height viewerRect / 2
       < Y + ZoomViewer.height tRect * k / 2.
Proof.
  intros viewerRect own layout tRect k v'.
  apply (init_large_content_below_centre
           ZoomViewer.defaultProps layout viewerRect own
           ZoomViewer.initialViewer 0);
    try reflexivity; cbn; lra.
Defined.

Lemma disabled_ignores_gestures_witness :
  let props :=
    {| ZoomViewer.isInBounds := true; ZoomViewer.fitOnInit := true;
       ZoomViewer.centerOnInit := true; ZoomViewer.isDisabled := true |} in
  let v' := App.viewerOf
              (App.runAll Swipe.defaultProps props Scenario.layout
                          (map App.Pointer
                               [Swipe.Start Scenario.press;
                                Swipe.Move Scenario.drag;
                                Swipe.End Scenario.release]) App.init) in
  ZoomViewer.style v' = ZoomViewer.style (App.viewerOf App.init)
  /\ ZoomViewer.frames v' = ZoomViewer.frames (App.viewerOf App.init)
  /\ ZoomViewer.prevTargetPosition v'
     = ZoomViewer.prevTargetPosition (App.viewerOf App.init).
Proof.
  intros props v'.
  apply (disabled_ignores_gestures Swipe.defaultProps props Scenario.layout).
  reflexivity.
Defined.

